(** * Opcode functions of the EVM core ([lib/opFns.js])

    A shallow embedding of the opcode handlers and of the helpers they
    share ([subGas], [subMemUsage], [memLoad], [memStore], [jumpIsValid],
    [checkCallMemCost], [checkOutOfGas], [makeCall]), with the properties
    that the specification states about them, and with further properties
    of the arithmetic, memory, storage, stack, log and call handlers read
    from the code.

    Conventions of the embedding.
    - A [BN] (bn.js big number) is a [Z]; a stack word is a [BN] in
      [0, 2^256).
    - A JavaScript [Number] holding an offset, a length or a counter is the
      integer it denotes, also a [Z]; JavaScript computes on such integers
      exactly up to [2^53], and the statements say where they need that.
    - A [Buffer] is a list of bytes, each byte a [Z] in [0, 256).
    - A handler runs in the monad [M]: it transforms the [RunState] and
      either returns or throws a [VmError]; what it has written to the
      state before throwing stays written, as in JavaScript.
    - The state manager and the child-frame runner are outside this file of
      the repository.  Their answers are taken from an [Env]ironment, their
      callbacks are run at once (a synchronous backend), and every call to
      them, and every call of the handler's own callback, is appended to the
      [trace] of the run state. *)

From Stdlib Require Import ZArith Lia Bool List.
From stdpp Require Import base list.
Import ListNotations.
Open Scope Z_scope.

(** ** bn.js *)

Module BN.

Definition BN := Z.

(** [notn(width)]: complement of the low [width] bits.  Exact for
    magnitudes below [2^width], the only ones the handlers pass. *)
Definition notn (width : Z) (x : BN) : BN := Z.lxor x (Z.ones width).

(** [fromTwos(width)]:
    [if (this.testn(width - 1)) return this.notn(width).iaddn(1).ineg()] *)
Definition fromTwos (width : Z) (x : BN) : BN :=
  if Z.testbit x (width - 1) then - (notn width x + 1) else x.

(** [toTwos(width)]:
    [if (this.negative !== 0) return this.abs().inotn(width).iaddn(1)] *)
Definition toTwos (width : Z) (x : BN) : BN :=
  if x <? 0 then notn width (Z.abs x) + 1 else x.

(** [div] truncates toward zero. *)
Definition div (a b : BN) : BN := Z.quot a b.

Definition isZero (a : BN) : bool := a =? 0.

End BN.

Definition TWO_POW256 : Z := 2 ^ 256.

Definition is_word (a : Z) : Prop := 0 <= a < TWO_POW256.

(** Two's-complement reading of a word, and its inverse. *)
Definition signed (a : Z) : Z := if a <? 2 ^ 255 then a else a - TWO_POW256.
Definition unsigned (x : Z) : Z := x mod TWO_POW256.

(** ** 0x05 SDIV *)

Definition SDIV (a b : BN.BN) : BN.BN :=
  let b := BN.fromTwos 256 b in
  if BN.isZero b then 0
  else BN.toTwos 256 (BN.div a b).

(** What the specification asks of SDIV: both operands read as
    two's-complement, quotient truncated toward zero, re-encoded. *)
Definition SDIV_spec (a b : Z) : Z :=
  if signed b =? 0 then 0 else unsigned (Z.quot (signed a) (signed b)).

(** ** Buffers, numbers and the fee schedule *)

Abbreviation Buffer := (list Z) (only parsing).
Abbreviation Address := (list Z) (only parsing).

Definition MAX_INT : Z := 9007199254740991.

(** The largest length of a JavaScript array, [2^32 - 1]: the memory of a
    frame is such an array, and an element's index is below this. *)
Definition MAX_ARRAY_LENGTH : Z := 4294967295.

(** [new BN(buffer)]: the big-endian value of the bytes; 0 for no bytes. *)
Definition bufferToBN (b : Buffer) : BN.BN :=
  fold_left (fun acc x => acc * 256 + x) b 0.

(** [utils.bufferToInt]: the same value as a [Number]; exact for a value
    of at most 53 bits, a safe integer. *)
Definition bufferToInt (b : Buffer) : Z := bufferToBN b.

(** [bn.toNumber()]: the value as a [Number], which bn.js gives for a
    number of at most 53 bits. *)
Definition toNumber (x : BN.BN) : Z := x.

(** [utils.unpad]: drops the leading zero bytes. *)
Fixpoint unpad (b : Buffer) : Buffer :=
  match b with
  | [] => []
  | x :: r => if x =? 0 then unpad r else b
  end.

(** [utils.setLengthLeft]: left-pads with zeros to [n] bytes, or keeps the
    last [n] bytes of a longer buffer. *)
Definition setLengthLeft (b : Buffer) (n : nat) : Buffer :=
  if (length b <? n)%nat then replicate (n - length b) 0 ++ b
  else drop (length b - n) b.

(** [slice(start, end)] of a buffer or an array, for [0 <= start]: the
    elements at the positions from [start] up to [end], as far as the
    buffer or array reaches. *)
Definition slice {A : Type} (l : list A) (start stop : Z) : list A :=
  take (Z.to_nat (stop - start)) (drop (Z.to_nat start) l).

(** [Math.ceil(x / d)] for integers [x] and [d]. *)
Definition ceil_div (x d : Z) : Z := - ((- x) / d).

(** The fee schedule ([ethereum-common]): the named constants the handlers
    read as [fees.<name>.v]. *)
Record FeeSchedule : Type := mkFees {
  memoryGas : Z;
  quadCoeffDiv : Z;
  copyGas : Z;
  sstoreSetGas : Z;
  sstoreResetGas : Z;
  sstoreRefundGas : Z;
  callValueTransferGas : Z;
  callNewAccountGas : Z;
  callStipend : Z;
  stackLimit : Z
}.

(** Modelled from the spec: a fee schedule to run the handlers with.  The
    specification names the constants and bounds the depth by [1024]; the
    comment in [subMemUsage] gives [3] and [512] for the memory cost; the
    other values are those of the Homestead schedule. *)
Definition homestead_fees : FeeSchedule :=
  {| memoryGas := 3; quadCoeffDiv := 512; copyGas := 3;
     sstoreSetGas := 20000; sstoreResetGas := 5000; sstoreRefundGas := 15000;
     callValueTransferGas := 9000; callNewAccountGas := 25000;
     callStipend := 2300; stackLimit := 1024 |}.

(** ** Errors *)

(** Modelled from the spec: the error kinds of [constants.js] ([ERROR]). *)
Inductive ERROR : Type :=
| OUT_OF_GAS
| STACK_UNDERFLOW
| STACK_OVERFLOW
| INVALID_JUMP
| INVALID_OPCODE
| STACK_LIMIT_EXCEEDED.

(** [describeLocation]: the code (for its hash), the address and the
    counter of the instruction. *)
Record Location : Type := mkLocation {
  loc_code : Buffer;
  loc_address : Address;
  loc_pc : Z
}.

(** The [VmError] that [trap] throws: a kind, for an invalid jump followed
    by [' at ' + describeLocation(runState)]. *)
Record VmError : Type := mkVmError {
  error_kind : ERROR;
  error_at : option Location
}.

(** An error the state manager hands to a callback. *)
Inductive SmError : Type := IoError (code : nat).

(** The error argument of a callback: [e.error] of a caught trap, or the
    state manager's error passed on. *)
Inductive CbError : Type :=
| OfTrap (e : VmError)
| OfStateManager (e : SmError).

(** ** Accounts, call options, results of a child frame *)

Record Account : Type := mkAccount {
  balance : BN.BN;
  nonce : BN.BN;
  exists_ : bool
}.

Definition set_nonce (n : BN.BN) (a : Account) : Account :=
  {| balance := balance a; nonce := n; exists_ := exists_ a |}.

Record Block : Type := mkBlock {
  number : Z;
  coinbase : Address;
  timestamp : Z;
  difficulty : Z;
  gasLimit : Z
}.

Record Log : Type := mkLog {
  log_address : Address;
  log_topics : list Buffer;
  log_data : Buffer
}.

(** What a call runs: bytecode, or the precompiled contract of an address. *)
Inductive Code : Type :=
| Bytecode (b : Buffer)
| Precompiled (a : Address).

(** [callOptions]; a field that the handler has not set is [None]. *)
Record CallOptions : Type := mkCallOptions {
  co_gasLimit : option BN.BN;
  co_value : BN.BN;
  co_to : option Address;
  co_data : option Buffer;
  co_caller : option Address;
  co_delegatecall : bool;
  co_code : option Code;
  co_compiled : option bool;
  co_origin : option Address;
  co_gasPrice : option BN.BN;
  co_block : option Block;
  co_populateCache : option bool;
  co_selfdestruct : option (list (Address * Address));
  co_depth : option Z
}.

Definition call_options (gl : option BN.BN) (value : BN.BN)
    (to : option Address) (data : option Buffer) (caller : option Address)
    (delegatecall : bool) : CallOptions :=
  {| co_gasLimit := gl; co_value := value; co_to := to; co_data := data;
     co_caller := caller; co_delegatecall := delegatecall;
     co_code := None; co_compiled := None; co_origin := None;
     co_gasPrice := None; co_block := None; co_populateCache := None;
     co_selfdestruct := None; co_depth := None |}.

Definition set_co_gasLimit (x : option BN.BN) (o : CallOptions) : CallOptions :=
  {| co_gasLimit := x; co_value := co_value o; co_to := co_to o;
     co_data := co_data o; co_caller := co_caller o;
     co_delegatecall := co_delegatecall o; co_code := co_code o;
     co_compiled := co_compiled o; co_origin := co_origin o;
     co_gasPrice := co_gasPrice o; co_block := co_block o;
     co_populateCache := co_populateCache o;
     co_selfdestruct := co_selfdestruct o; co_depth := co_depth o |}.

Definition set_co_data (x : option Buffer) (o : CallOptions) : CallOptions :=
  {| co_gasLimit := co_gasLimit o; co_value := co_value o; co_to := co_to o;
     co_data := x; co_caller := co_caller o;
     co_delegatecall := co_delegatecall o; co_code := co_code o;
     co_compiled := co_compiled o; co_origin := co_origin o;
     co_gasPrice := co_gasPrice o; co_block := co_block o;
     co_populateCache := co_populateCache o;
     co_selfdestruct := co_selfdestruct o; co_depth := co_depth o |}.

Definition set_co_code (c : option Code) (compiled : option bool)
    (o : CallOptions) : CallOptions :=
  {| co_gasLimit := co_gasLimit o; co_value := co_value o; co_to := co_to o;
     co_data := co_data o; co_caller := co_caller o;
     co_delegatecall := co_delegatecall o; co_code := c;
     co_compiled := compiled; co_origin := co_origin o;
     co_gasPrice := co_gasPrice o; co_block := co_block o;
     co_populateCache := co_populateCache o;
     co_selfdestruct := co_selfdestruct o; co_depth := co_depth o |}.

(** [localOpts]; [out] is the pair [outOffset], [outLength], which CREATE
    leaves out. *)
Record LocalOpts : Type := mkLocalOpts {
  inOffset : Z;
  inLength : Z;
  out : option (Z * Z)
}.

(** [results] of [runCall], with [results.vm]. *)
Record VmResults : Type := mkVmResults {
  vm_logs : option (list Log);
  vm_gasRefund : option BN.BN;
  vm_exceptionError : option VmError;
  vm_return : option Buffer;
  vm_exception : Z;
  vm_createdAddress : option Address
}.

Record CallResults : Type := mkCallResults {
  gasUsed : BN.BN;
  createdAddress : option Address;
  vm : VmResults
}.

(** A value given to a handler's callback. *)
Inductive Value : Type :=
| VBN (x : BN.BN)
| VBuffer (b : Buffer).

(** ** The world outside: state manager and child-frame runner *)

(** Every call that leaves the handler, in the order made. *)
Inductive Event : Type :=
| SmGetContractStorage (a : Address) (key : Buffer)
| SmPutContractStorage (a : Address) (key value : Buffer)
| SmCacheGet (a : Address)
| SmCachePut (a : Address) (acct : Account)
| SmExists (a : Address)
| SmAccountIsEmpty (a : Address)
| SmGetContractCode (a : Address)
| SmGetAccount (a : Address)
| VmRunCall (o : CallOptions)
| Callback (err : option CbError) (result : option Value).

(** The answers of the world: for a state-manager method the two
    arguments its callback receives, error and value; [isPrecompiled] is
    [utils.isPrecompiled], [runCall] the child-frame runner with the two
    arguments it gives [parseCallResults]. *)
Record Env : Type := mkEnv {
  fees : FeeSchedule;
  getContractStorage : Address -> Buffer -> option SmError * Buffer;
  putContractStorage : Address -> Buffer -> Buffer -> option SmError;
  cache_get : Address -> Account;
  sm_exists : Address -> option SmError * bool;
  accountIsEmpty : Address -> option SmError * bool;
  getContractCode : Address -> option SmError * (Buffer * bool);
  getAccount : Address -> option SmError * Account;
  isPrecompiled : Address -> bool;
  runCall : CallOptions -> option CbError * CallResults
}.

(** ** The run state *)

Record RunState : Type := mkRunState {
  opCode : Z;
  programCounter : Z;
  code : Buffer;
  stack : list BN.BN;
  memory : list (option Z);
  memoryWordCount : Z;
  highestMemCost : BN.BN;
  gasLeft : BN.BN;
  gasRefund : BN.BN;
  validJumps : list Z;
  callData : Buffer;
  callValue : BN.BN;
  address : Address;
  caller : Address;
  origin : Address;
  gasPrice : BN.BN;
  contract : Account;
  block : Block;
  logs : list Log;
  selfdestruct : list (Address * Address);
  depth : Z;
  trace : list Event
}.

Definition set_programCounter (x : Z) (st : RunState) : RunState :=
  {| opCode := opCode st; programCounter := x; code := code st;
     stack := stack st; memory := memory st;
     memoryWordCount := memoryWordCount st;
     highestMemCost := highestMemCost st; gasLeft := gasLeft st;
     gasRefund := gasRefund st; validJumps := validJumps st;
     callData := callData st; callValue := callValue st;
     address := address st; caller := caller st; origin := origin st;
     gasPrice := gasPrice st; contract := contract st; block := block st;
     logs := logs st; selfdestruct := selfdestruct st; depth := depth st;
     trace := trace st |}.

Definition set_stack (x : list BN.BN) (st : RunState) : RunState :=
  {| opCode := opCode st; programCounter := programCounter st;
     code := code st; stack := x; memory := memory st;
     memoryWordCount := memoryWordCount st;
     highestMemCost := highestMemCost st; gasLeft := gasLeft st;
     gasRefund := gasRefund st; validJumps := validJumps st;
     callData := callData st; callValue := callValue st;
     address := address st; caller := caller st; origin := origin st;
     gasPrice := gasPrice st; contract := contract st; block := block st;
     logs := logs st; selfdestruct := selfdestruct st; depth := depth st;
     trace := trace st |}.

Definition set_memory (x : list (option Z)) (st : RunState) : RunState :=
  {| opCode := opCode st; programCounter := programCounter st;
     code := code st; stack := stack st; memory := x;
     memoryWordCount := memoryWordCount st;
     highestMemCost := highestMemCost st; gasLeft := gasLeft st;
     gasRefund := gasRefund st; validJumps := validJumps st;
     callData := callData st; callValue := callValue st;
     address := address st; caller := caller st; origin := origin st;
     gasPrice := gasPrice st; contract := contract st; block := block st;
     logs := logs st; selfdestruct := selfdestruct st; depth := depth st;
     trace := trace st |}.

Definition set_memoryWordCount (x : Z) (st : RunState) : RunState :=
  {| opCode := opCode st; programCounter := programCounter st;
     code := code st; stack := stack st; memory := memory st;
     memoryWordCount := x; highestMemCost := highestMemCost st;
     gasLeft := gasLeft st; gasRefund := gasRefund st;
     validJumps := validJumps st; callData := callData st;
     callValue := callValue st; address := address st; caller := caller st;
     origin := origin st; gasPrice := gasPrice st; contract := contract st;
     block := block st; logs := logs st; selfdestruct := selfdestruct st;
     depth := depth st; trace := trace st |}.

Definition set_highestMemCost (x : BN.BN) (st : RunState) : RunState :=
  {| opCode := opCode st; programCounter := programCounter st;
     code := code st; stack := stack st; memory := memory st;
     memoryWordCount := memoryWordCount st; highestMemCost := x;
     gasLeft := gasLeft st; gasRefund := gasRefund st;
     validJumps := validJumps st; callData := callData st;
     callValue := callValue st; address := address st; caller := caller st;
     origin := origin st; gasPrice := gasPrice st; contract := contract st;
     block := block st; logs := logs st; selfdestruct := selfdestruct st;
     depth := depth st; trace := trace st |}.

Definition set_gasLeft (x : BN.BN) (st : RunState) : RunState :=
  {| opCode := opCode st; programCounter := programCounter st;
     code := code st; stack := stack st; memory := memory st;
     memoryWordCount := memoryWordCount st;
     highestMemCost := highestMemCost st; gasLeft := x;
     gasRefund := gasRefund st; validJumps := validJumps st;
     callData := callData st; callValue := callValue st;
     address := address st; caller := caller st; origin := origin st;
     gasPrice := gasPrice st; contract := contract st; block := block st;
     logs := logs st; selfdestruct := selfdestruct st; depth := depth st;
     trace := trace st |}.

Definition set_gasRefund (x : BN.BN) (st : RunState) : RunState :=
  {| opCode := opCode st; programCounter := programCounter st;
     code := code st; stack := stack st; memory := memory st;
     memoryWordCount := memoryWordCount st;
     highestMemCost := highestMemCost st; gasLeft := gasLeft st;
     gasRefund := x; validJumps := validJumps st; callData := callData st;
     callValue := callValue st; address := address st; caller := caller st;
     origin := origin st; gasPrice := gasPrice st; contract := contract st;
     block := block st; logs := logs st; selfdestruct := selfdestruct st;
     depth := depth st; trace := trace st |}.

Definition set_contract (x : Account) (st : RunState) : RunState :=
  {| opCode := opCode st; programCounter := programCounter st;
     code := code st; stack := stack st; memory := memory st;
     memoryWordCount := memoryWordCount st;
     highestMemCost := highestMemCost st; gasLeft := gasLeft st;
     gasRefund := gasRefund st; validJumps := validJumps st;
     callData := callData st; callValue := callValue st;
     address := address st; caller := caller st; origin := origin st;
     gasPrice := gasPrice st; contract := x; block := block st;
     logs := logs st; selfdestruct := selfdestruct st; depth := depth st;
     trace := trace st |}.

Definition set_logs (x : list Log) (st : RunState) : RunState :=
  {| opCode := opCode st; programCounter := programCounter st;
     code := code st; stack := stack st; memory := memory st;
     memoryWordCount := memoryWordCount st;
     highestMemCost := highestMemCost st; gasLeft := gasLeft st;
     gasRefund := gasRefund st; validJumps := validJumps st;
     callData := callData st; callValue := callValue st;
     address := address st; caller := caller st; origin := origin st;
     gasPrice := gasPrice st; contract := contract st; block := block st;
     logs := x; selfdestruct := selfdestruct st; depth := depth st;
     trace := trace st |}.

Definition set_trace (x : list Event) (st : RunState) : RunState :=
  {| opCode := opCode st; programCounter := programCounter st;
     code := code st; stack := stack st; memory := memory st;
     memoryWordCount := memoryWordCount st;
     highestMemCost := highestMemCost st; gasLeft := gasLeft st;
     gasRefund := gasRefund st; validJumps := validJumps st;
     callData := callData st; callValue := callValue st;
     address := address st; caller := caller st; origin := origin st;
     gasPrice := gasPrice st; contract := contract st; block := block st;
     logs := logs st; selfdestruct := selfdestruct st; depth := depth st;
     trace := x |}.


(** ** The handler monad: state and thrown [VmError]s *)

Inductive Result (A : Type) : Type :=
| Ok (a : A)
| Throw (e : VmError).

Arguments Ok {A} a.
Arguments Throw {A} e.

Definition M (A : Type) : Type := RunState -> Result A * RunState.

Definition ret {A : Type} (a : A) : M A := fun st => (Ok a, st).

Definition bind {A B : Type} (m : M A) (k : A -> M B) : M B :=
  fun st =>
    match m st with
    | (Ok a, st') => k a st'
    | (Throw e, st') => (Throw e, st')
    end.

Declare Scope vm_scope.
Delimit Scope vm_scope with vm.
Notation "x <- c1 ;; c2" := (bind c1 (fun x => c2))
  (at level 100, c1 at next level, right associativity) : vm_scope.
Notation "c1 ;; c2" := (bind c1 (fun _ => c2))
  (at level 100, right associativity) : vm_scope.
Open Scope vm_scope.

Definition get : M RunState := fun st => (Ok st, st).
Definition modify (f : RunState -> RunState) : M unit :=
  fun st => (Ok tt, f st).
Definition throw {A : Type} (e : VmError) : M A := fun st => (Throw e, st).

(** [try { m } catch (e) { ... }]: the state written before the throw stays. *)
Definition try_catch {A : Type} (m : M A) : M (VmError + A) :=
  fun st =>
    match m st with
    | (Ok a, st') => (Ok (inr a), st')
    | (Throw e, st') => (Ok (inl e), st')
    end.

Definition when (b : bool) (m : M unit) : M unit := if b then m else ret tt.

Definition emit (e : Event) : M unit :=
  modify (fun st => set_trace (trace st ++ [e]) st).

(** [cb(err, result)] *)
Definition callback (err : option CbError) (result : option Value) : M unit :=
  emit (Callback err result).

(** ** Helpers of [opFns.js] *)


(** [trap(err)] *)
Definition trap {A : Type} (kind : ERROR) (loc : option Location) : M A :=
  throw {| error_kind := kind; error_at := loc |}.

Definition subGas (amount : BN.BN) : M unit :=
  modify (fun st => set_gasLeft (gasLeft st - amount) st) ;;
  st <- get ;;
  if gasLeft st <? 0 then trap OUT_OF_GAS None else ret tt.

Section Handlers.

Variable env : Env.

Definition subMemUsage (offset length : Z) : M unit :=
  if length =? 0 then ret tt
  else if (offset >? MAX_INT) || (length >? MAX_INT)
  then trap OUT_OF_GAS None
  else
    let newMemoryWordCount := ceil_div (offset + length) 32 in
    st <- get ;;
    if newMemoryWordCount <=? memoryWordCount st then ret tt
    else
      modify (set_memoryWordCount newMemoryWordCount) ;;
      let words := newMemoryWordCount in
      let fee := memoryGas (fees env) in
      let quadCoeff := quadCoeffDiv (fees env) in
      let cost := words * fee + BN.div (words * words) quadCoeff in
      st <- get ;;
      if cost >? highestMemCost st
      then subGas (cost - highestMemCost st) ;;
           modify (set_highestMemCost cost)
      else ret tt.

(** [new Buffer(array)]: a hole or [undefined] becomes the byte 0. *)
Definition Buffer_of_array (a : list (option Z)) : Buffer :=
  default 0 <$> a.

Definition memLoad (offset length : Z) : M Buffer :=
  subMemUsage offset length ;;
  st <- get ;;
  let loaded := slice (memory st) offset (offset + length) in
  let loaded :=
    loaded ++ replicate (Z.to_nat length - List.length loaded) (Some 0) in
  ret (Buffer_of_array loaded).

(** [array[i] = v]: in range the element is replaced; beyond the end
    the array grows, the elements in between being holes. *)
Definition array_set {A : Type} (a : list (option A)) (i : nat)
    (v : option A) : list (option A) :=
  if (i <? List.length a)%nat then <[i := v]> a
  else a ++ replicate (i - List.length a) None ++ [v].

(** [for (i = 0; i < length; i++) memory[offset + i] = val[valOffset + i]] *)
Definition copy_loop (mem : list (option Z)) (offset : Z) (val : Buffer)
    (valOffset : Z) (length : Z) : list (option Z) :=
  fold_left
    (fun m i =>
       array_set m (Z.to_nat (offset + Z.of_nat i))
                 (val !! Z.to_nat (valOffset + Z.of_nat i)))
    (seq 0 (Z.to_nat length)) mem.

(** [skipSubMem] is [None] where the caller leaves the argument out. *)
Definition memStore (offset : Z) (val : Buffer) (valOffset length : Z)
    (skipSubMem : option bool) : M unit :=
  match skipSubMem with
  | Some false => ret tt
  | _ => subMemUsage offset length
  end ;;
  modify (fun st =>
    set_memory (copy_loop (memory st) offset val valOffset length) st).


(** *** 0x30 range *)

Definition CALLDATASIZE : M BN.BN :=
  st <- get ;;
  match callData st with
  | [b] => if b =? 0 then ret 0
           else ret (Z.of_nat (List.length (callData st)))
  | _ => ret (Z.of_nat (List.length (callData st)))
  end.

Definition CALLDATACOPY (memOffset dataOffsetBuf dataLength : Buffer)
    : M unit :=
  let memOffset := bufferToInt memOffset in
  let dataLength := bufferToInt dataLength in
  let dataOffset := bufferToInt dataOffsetBuf in
  st <- get ;;
  memStore memOffset (callData st) dataOffset dataLength None ;;
  subGas (copyGas (fees env) * ceil_div dataLength 32).

Definition CODECOPY (memOffset codeOffset length : Buffer) : M unit :=
  let memOffset := bufferToInt memOffset in
  let codeOffset := bufferToInt codeOffset in
  let length := bufferToInt length in
  st <- get ;;
  memStore memOffset (code st) codeOffset length None ;;
  subGas (copyGas (fees env) * ceil_div length 32).

(** *** 0x50 range *)

Definition SSTORE (key val : Buffer) : M unit :=
  st <- get ;;
  let address := address st in
  let key := setLengthLeft key 32 in
  let value := unpad val in
  emit (SmGetContractStorage address key) ;;
  let '(err, found) := getContractStorage env address key in
  match err with
  | Some e => callback (Some (OfStateManager e)) None
  | None =>
    r <- try_catch
           (if (List.length value =? 0)%nat && (List.length found =? 0)%nat
            then subGas (sstoreResetGas (fees env))
            else if (List.length value =? 0)%nat
                    && negb (List.length found =? 0)%nat
            then subGas (sstoreResetGas (fees env)) ;;
                 modify (fun st =>
                   set_gasRefund
                     (gasRefund st + sstoreRefundGas (fees env)) st)
            else if negb (List.length value =? 0)%nat
                    && (List.length found =? 0)%nat
            then subGas (sstoreSetGas (fees env))
            else if negb (List.length value =? 0)%nat
                    && negb (List.length found =? 0)%nat
            then subGas (sstoreResetGas (fees env))
            else ret tt) ;;
    match r with
    | inl e => callback (Some (OfTrap e)) None
    | inr _ =>
      emit (SmPutContractStorage address key value) ;;
      match putContractStorage env address key value with
      | Some e => callback (Some (OfStateManager e)) None
      | None =>
        emit (SmCacheGet address) ;;
        modify (set_contract (cache_get env address)) ;;
        callback None None
      end
    end
  end.



Definition PUSH : M BN.BN :=
  st <- get ;;
  let numToPush := opCode st - 0x5f in
  let loaded :=
    bufferToBN
      (slice (code st) (programCounter st) (programCounter st + numToPush)) in
  modify (set_programCounter (programCounter st + numToPush)) ;;
  ret loaded.

(** *** 0xf0 range: calls *)

Definition checkCallMemCost (callOptions : CallOptions)
    (localOpts : LocalOpts) : M CallOptions :=
  data <- memLoad (inOffset localOpts) (inLength localOpts) ;;
  let callOptions := set_co_data (Some data) callOptions in
  match out localOpts with
  | Some (outOffset, outLength) =>
      if outLength =? 0 then ret tt else subMemUsage outOffset outLength
  | None => ret tt
  end ;;
  st <- get ;;
  match co_gasLimit callOptions with
  | None => ret (set_co_gasLimit (Some (gasLeft st)) callOptions)
  | Some _ => ret callOptions
  end.

Definition checkOutOfGas (callOptions : CallOptions) : M CallOptions :=
  st <- get ;;
  let gasAllowed := gasLeft st - BN.div (gasLeft st) 64 in
  match co_gasLimit callOptions with
  | Some gl =>
      if gl >? gasAllowed
      then ret (set_co_gasLimit (Some gasAllowed) callOptions)
      else ret callOptions
  | None => ret callOptions
  end.

(** The callback that [makeCall] hands to [runCall]. *)
Definition parseCallResults (localOpts : LocalOpts)
    (err : option CbError) (results : CallResults) : M unit :=
  match vm_logs (vm results) with
  | Some l => modify (fun st => set_logs (logs st ++ l) st)
  | None => ret tt
  end ;;
  match vm_gasRefund (vm results) with
  | Some r => modify (fun st => set_gasRefund (gasRefund st + r) st)
  | None => ret tt
  end ;;
  modify (fun st => set_gasLeft (gasLeft st - gasUsed results) st) ;;
  match vm_exceptionError (vm results) with
  | None =>
    match vm_return (vm results), out localOpts with
    | Some r, Some (outOffset, outLength) =>
        modify (fun st =>
          set_memory
            (copy_loop (memory st) outOffset r 0
               (Z.min outLength (Z.of_nat (List.length r)))) st)
    | _, _ => ret tt
    end ;;
    st <- get ;;
    emit (SmGetAccount (address st)) ;;
    let '(err, account) := getAccount env (address st) in
    modify (set_contract account) ;;
    match createdAddress results with
    | Some a => callback (option_map OfStateManager err) (Some (VBuffer a))
    | None =>
        callback (option_map OfStateManager err)
                 (Some (VBN (vm_exception (vm results))))
    end
  | Some _ =>
    match vm_createdAddress (vm results) with
    | Some _ =>
        modify (fun st =>
          set_contract
            (set_nonce (nonce (contract st) - 1) (contract st)) st)
    | None => ret tt
    end ;;
    callback err (Some (VBuffer [vm_exception (vm results)]))
  end.

Definition makeCall (callOptions : CallOptions) (localOpts : LocalOpts)
    : M unit :=
  st <- get ;;
  let callOptions :=
    {| co_gasLimit := co_gasLimit callOptions;
       co_value := co_value callOptions;
       co_to := co_to callOptions;
       co_data := co_data callOptions;
       co_caller := Some (default (address st) (co_caller callOptions));
       co_delegatecall := co_delegatecall callOptions;
       co_code := co_code callOptions;
       co_compiled := co_compiled callOptions;
       co_origin := Some (origin st);
       co_gasPrice := Some (gasPrice st);
       co_block := Some (block st);
       co_populateCache := Some false;
       co_selfdestruct := Some (selfdestruct st);
       co_depth := Some (depth st + 1) |} in
  if (depth st >=? stackLimit (fees env))
     || (negb (co_delegatecall callOptions)
         && (balance (contract st) <? co_value callOptions))
  then
    modify (fun st => set_stack (stack st ++ [0]) st) ;;
    callback None None
  else
    match co_to callOptions with
    | None =>
        modify (fun st =>
          set_contract
            (set_nonce (nonce (contract st) + 1) (contract st)) st)
    | Some _ => ret tt
    end ;;
    st <- get ;;
    emit (SmCachePut (address st) (contract st)) ;;
    emit (VmRunCall callOptions) ;;
    let '(err, results) := runCall env callOptions in
    parseCallResults localOpts err results.

Definition CREATE (value offset length : Buffer) : M unit :=
  let value := bufferToBN value in
  let offset := bufferToInt offset in
  let length := bufferToInt length in
  let options := call_options None value None None None false in
  let localOpts :=
    {| inOffset := offset; inLength := length; out := None |} in
  options <- checkCallMemCost options localOpts ;;
  options <- checkOutOfGas options ;;
  makeCall options localOpts.

(** [gasLeft] and [options.gasLimit] both get the stipend. *)
Definition addStipend (value : BN.BN) (options : CallOptions)
    : M CallOptions :=
  if negb (BN.isZero value)
  then
    modify (fun st =>
      set_gasLeft (gasLeft st + callStipend (fees env)) st) ;;
    ret (set_co_gasLimit
           (option_map (fun g => g + callStipend (fees env))
              (co_gasLimit options)) options)
  else ret options.

Definition CALL (gasLimit toAddress value inOffset inLength outOffset
    outLength : Buffer) : M unit :=
  let gasLimit := bufferToBN gasLimit in
  let toAddress := setLengthLeft toAddress 20 in
  let value := bufferToBN value in
  let inOffset := bufferToInt inOffset in
  let inLength := bufferToInt inLength in
  let outOffset := bufferToInt outOffset in
  let outLength := bufferToInt outLength in
  data <- memLoad inOffset inLength ;;
  let options :=
    call_options (Some gasLimit) value (Some toAddress) (Some data)
      None false in
  let localOpts :=
    {| inOffset := inOffset; inLength := inLength;
       out := Some (outOffset, outLength) |} in
  when (negb (BN.isZero value))
    (subGas (callValueTransferGas (fees env))) ;;
  emit (SmExists toAddress) ;;
  let '(err, exists') := sm_exists env toAddress in
  match err with
  | Some e => callback (Some (OfStateManager e)) None
  | None =>
    emit (SmAccountIsEmpty toAddress) ;;
    let '(err, empty) := accountIsEmpty env toAddress in
    match err with
    | Some e => callback (Some (OfStateManager e)) None
    | None => ret tt
    end ;;
    (if (negb exists' || empty) && negb (BN.isZero value)
     then
       r <- try_catch (subGas (callNewAccountGas (fees env))) ;;
       match r with
       | inl e => callback (Some (OfTrap e)) None
       | inr _ => ret tt
       end
     else ret tt) ;;
    r <- try_catch (options <- checkCallMemCost options localOpts ;;
                    checkOutOfGas options) ;;
    match r with
    | inl e => callback (Some (OfTrap e)) None
    | inr options =>
      options <- addStipend value options ;;
      makeCall options localOpts
    end
  end.

(** The tail that CALLCODE and DELEGATECALL share: find the code, then
    [makeCall]. *)
Definition loadCodeAndCall (toAddress : Address) (options : CallOptions)
    (localOpts : LocalOpts) : M unit :=
  if isPrecompiled env toAddress
  then
    makeCall
      (set_co_code (Some (Precompiled toAddress)) (Some true) options)
      localOpts
  else
    emit (SmGetContractCode toAddress) ;;
    let '(err, (code, compiled)) := getContractCode env toAddress in
    match err with
    | Some e => callback (Some (OfStateManager e)) None
    | None =>
      makeCall
        (set_co_code (Some (Bytecode code)) (Some compiled) options)
        localOpts
    end.

Definition CALLCODE (gas toAddress value inOffset inLength outOffset
    outLength : Buffer) : M unit :=
  let gas := bufferToBN gas in
  let toAddress := setLengthLeft toAddress 20 in
  let value := bufferToBN value in
  let inOffset := bufferToInt inOffset in
  let inLength := bufferToInt inLength in
  let outOffset := bufferToInt outOffset in
  let outLength := bufferToInt outLength in
  st <- get ;;
  let options :=
    call_options (Some gas) value (Some (address st)) None None false in
  let localOpts :=
    {| inOffset := inOffset; inLength := inLength;
       out := Some (outOffset, outLength) |} in
  when (negb (BN.isZero value))
    (subGas (callValueTransferGas (fees env))) ;;
  options <- checkCallMemCost options localOpts ;;
  options <- checkOutOfGas options ;;
  options <- addStipend value options ;;
  loadCodeAndCall toAddress options localOpts.

Definition DELEGATECALL (gas toAddress inOffset inLength outOffset
    outLength : Buffer) : M unit :=
  st <- get ;;
  let value := callValue st in
  let gas := bufferToBN gas in
  let toAddress := setLengthLeft toAddress 20 in
  let inOffset := bufferToInt inOffset in
  let inLength := bufferToInt inLength in
  let outOffset := bufferToInt outOffset in
  let outLength := bufferToInt outLength in
  let options :=
    call_options (Some gas) value (Some (address st)) None
      (Some (caller st)) true in
  let localOpts :=
    {| inOffset := inOffset; inLength := inLength;
       out := Some (outOffset, outLength) |} in
  options <- checkCallMemCost options localOpts ;;
  options <- checkOutOfGas options ;;
  emit (SmGetAccount toAddress) ;;
  let '(err, account) := getAccount env toAddress in
  match err with
  | Some e => callback (Some (OfStateManager e)) None
  | None => loadCodeAndCall toAddress options localOpts
  end.

End Handlers.

(** ** Vocabulary of the statements *)

(** The errors that [trap] throws for the two kinds met below. *)
Definition out_of_gas : VmError :=
  {| error_kind := OUT_OF_GAS; error_at := None |}.


Definition is_bytes (b : Buffer) : Prop := Forall (fun x => 0 <= x < 256) b.

(** The charge and the refund of the four cases of the SSTORE table. *)
Definition sstore_charge (env : Env) (was_set is_set : bool) : Z :=
  if is_set && negb was_set then sstoreSetGas (fees env)
  else sstoreResetGas (fees env).

Definition sstore_refund (env : Env) (was_set is_set : bool) : Z :=
  if was_set && negb is_set then sstoreRefundGas (fees env) else 0.

(** The total memory cost of [w] words, as the specification writes it:
    [memoryGas * w + floor (w^2 / quadCoeffDiv)]. *)
Definition memCost (f : FeeSchedule) (w : Z) : Z :=
  memoryGas f * w + (w * w) / quadCoeffDiv f.

(** What a frame keeps between memory accesses: the highest cost charged is
    the cost of the words counted. *)
Definition mem_inv (env : Env) (st : RunState) : Prop :=
  0 <= memoryWordCount st /\
  highestMemCost st = memCost (fees env) (memoryWordCount st).

(** [billed st st']: the frame [st'] is [st] but for what memory billing
    writes, [memoryWordCount], [gasLeft] and [highestMemCost]. *)
Definition billed (st st' : RunState) : Prop :=
  st' = set_highestMemCost (highestMemCost st')
          (set_gasLeft (gasLeft st')
             (set_memoryWordCount (memoryWordCount st') st)).

(** The byte of the memory at position [i], as [memLoad] reads it: a hole,
    [undefined] and a position beyond the end of the array all read 0. *)
Definition memory_byte (mem : list (option Z)) (i : nat) : Z :=
  match mem !! i with
  | Some (Some b) => b
  | _ => 0
  end.


(** The test of [makeCall] that refuses a call: the depth has reached the
    limit, or the call is not a DELEGATECALL and the balance of the current
    contract is below the value. *)
Definition call_guard (env : Env) (st : RunState) (delegatecall : bool)
    (value : BN.BN) : bool :=
  (depth st >=? stackLimit (fees env))
  || (negb delegatecall && (balance (contract st) <? value)).

Definition is_state_manager_call (e : Event) : bool :=
  match e with
  | VmRunCall _ | Callback _ _ => false
  | _ => true
  end.

(** An event that neither starts a child frame nor writes to the state
    manager: a lookup, or a callback. *)
Definition reads_only (e : Event) : bool :=
  match e with
  | VmRunCall _ | SmCachePut _ _ | SmPutContractStorage _ _ _ => false
  | _ => true
  end.

(** An event that leaves the handler's world alone: a callback. *)
Definition stays_inside (e : Event) : bool :=
  match e with
  | Callback _ _ => true
  | _ => false
  end.

Definition is_error_callback (e : Event) : bool :=
  match e with
  | Callback (Some _) _ => true
  | _ => false
  end.

(** [refusal allowed lookups charge st r st']: the handler has run from
    [st] to [st'] with result [r]; all it did outside the frame were events
    that [allowed] admits; and if it neither threw nor reported an error, it
    pushed 0, called back once without error after the [lookups], and spent,
    beyond what it paid for memory, [charge]. *)
Definition refusal (allowed : Event -> bool) (lookups : list Event)
    (charge : Z) (st : RunState) (r : Result unit) (st' : RunState) : Prop :=
  exists events,
    trace st' = trace st ++ events /\
    forallb allowed events = true /\
    (r = Ok tt -> existsb is_error_callback events = false ->
     stack st' = stack st ++ [0] /\
     events = lookups ++ [Callback None None] /\
     gasLeft st - gasLeft st' =
       (highestMemCost st' - highestMemCost st) + charge).

(** ** The specification's wording, for comparison *)

(** PUSHn as the specification words it: the next [n] code bytes as a
    big-endian word, zero-padded on the right where the code ends early. *)
Definition PUSH_spec_word (code : Buffer) (pc n : Z) : Z :=
  let avail := slice code pc (pc + n) in
  bufferToBN (avail ++ replicate (Z.to_nat n - length avail) 0).

(** ** Frames and worlds to run the handlers on *)

Module Fixtures.

Definition account0 : Account :=
  {| balance := 0; nonce := 0; exists_ := true |}.

Definition block0 : Block :=
  {| number := 0; coinbase := []; timestamp := 0; difficulty := 0;
     gasLimit := 0 |}.

(** A frame at its start: empty stack and memory, nothing charged. *)
Definition new_frame (code callData : Buffer) (gas : BN.BN) : RunState :=
  {| opCode := 0; programCounter := 0; code := code; stack := [];
     memory := []; memoryWordCount := 0; highestMemCost := 0;
     gasLeft := gas; gasRefund := 0; validJumps := [];
     callData := callData; callValue := 0; address := [];
     caller := []; origin := []; gasPrice := 0; contract := account0;
     block := block0; logs := []; selfdestruct := []; depth := 0;
     trace := [] |}.

Definition at_pc (opc pc : Z) (st : RunState) : RunState :=
  {| opCode := opc; programCounter := pc; code := code st;
     stack := stack st; memory := memory st;
     memoryWordCount := memoryWordCount st;
     highestMemCost := highestMemCost st; gasLeft := gasLeft st;
     gasRefund := gasRefund st; validJumps := validJumps st;
     callData := callData st; callValue := callValue st;
     address := address st; caller := caller st; origin := origin st;
     gasPrice := gasPrice st; contract := contract st; block := block st;
     logs := logs st; selfdestruct := selfdestruct st; depth := depth st;
     trace := trace st |}.


Definition at_depth (d : Z) (bal : BN.BN) (st : RunState) : RunState :=
  {| opCode := opCode st; programCounter := programCounter st;
     code := code st; stack := stack st; memory := memory st;
     memoryWordCount := memoryWordCount st;
     highestMemCost := highestMemCost st; gasLeft := gasLeft st;
     gasRefund := gasRefund st; validJumps := validJumps st;
     callData := callData st; callValue := callValue st;
     address := address st; caller := caller st; origin := origin st;
     gasPrice := gasPrice st;
     contract := {| balance := bal; nonce := 0; exists_ := true |};
     block := block st; logs := logs st; selfdestruct := selfdestruct st;
     depth := d; trace := trace st |}.

Definition results0 : CallResults :=
  {| gasUsed := 0; createdAddress := None;
     vm := {| vm_logs := None; vm_gasRefund := None;
              vm_exceptionError := None; vm_return := None;
              vm_exception := 1; vm_createdAddress := None |} |}.

(** A world that never fails: every slot holds [found], every account
    exists and is not empty. *)
Definition world (found : Buffer) : Env :=
  {| fees := homestead_fees;
     getContractStorage := fun _ _ => (None, found);
     putContractStorage := fun _ _ _ => None;
     cache_get := fun _ => account0;
     sm_exists := fun _ => (None, true);
     accountIsEmpty := fun _ => (None, false);
     getContractCode := fun _ => (None, ([], false));
     getAccount := fun _ => (None, account0);
     isPrecompiled := fun _ => false;
     runCall := fun _ => (None, results0) |}.

End Fixtures.

(** ** The other opcode functions *)

(** *** bn.js and ethereumjs-util, continued *)

(** [a.mod(b)]: the remainder of the truncating division [a.div(b)]; it has
    the sign of [a]. *)
Definition BN_mod (a b : BN.BN) : BN.BN := Z.rem a b.

(** [a.umod(m)] for a positive [m]: the remainder in [0, m). *)
Definition BN_umod (a m : BN.BN) : BN.BN := a mod m.

(** [byteLength()]: the number of bytes of the magnitude, none for zero. *)
Definition BN_byteLength (x : BN.BN) : nat :=
  if x =? 0 then 0%nat else Z.to_nat (Z.log2 (Z.abs x) / 8 + 1).

(** The [n] low bytes of [x], the most significant first. *)
Fixpoint be_bytes (n : nat) (x : Z) : Buffer :=
  match n with
  | O => []
  | S k => be_bytes k (x / 256) ++ [x mod 256]
  end.

(** [toArray('be', length)] and [toBuffer('be', length)]: the magnitude in
    [length] bytes, big-endian, where [length] is given and not 0 (bn.js
    asserts that the number fits), and in [max 1 byteLength] bytes where it
    is not: the number 0 gives the one byte 0. *)
Definition BN_toArray (x : BN.BN) (length : option nat) : Buffer :=
  let reqLength :=
    match length with
    | Some (S n) => S n
    | _ => Nat.max 1 (BN_byteLength x)
    end in
  be_bytes reqLength (Z.abs x).

(** [utils.fromSigned], [utils.toUnsigned]:
    [new BN(num).fromTwos(256)], [new Buffer(num.toTwos(256).toArray())]. *)
Definition fromSigned (num : BN.BN) : BN.BN := BN.fromTwos 256 num.
Definition toUnsigned (num : BN.BN) : Buffer :=
  BN_toArray (BN.toTwos 256 num) None.

(** [utils.intToBuffer]: the bytes of the hexadecimal digits of [i], an even
    number of them: the big-endian bytes of [i], one byte 0 for 0. *)
Definition intToBuffer (i : Z) : Buffer := BN_toArray i None.

(** [utils.setLengthRight]: right-pads with zeros to [n] bytes, or keeps the
    first [n] bytes of a longer buffer. *)
Definition setLengthRight (b : Buffer) (n : nat) : Buffer :=
  if (length b <? n)%nat then b ++ replicate (n - length b) 0
  else take n b.

(** [a.redPow(e)] in the reduction context of the modulus [m], for a
    positive [e]: the power by squaring, reduced at every step. *)
Fixpoint pow_mod_pos (a : Z) (e : positive) (m : Z) : Z :=
  match e with
  | xH => a mod m
  | xO e' => let r := pow_mod_pos a e' m in (r * r) mod m
  | xI e' => let r := pow_mod_pos a e' m in ((r * r) mod m * a) mod m
  end.

Definition redPow (a e m : BN.BN) : BN.BN :=
  match e with
  | Zpos p => pow_mod_pos a p m
  | _ => 1 mod m
  end.

(** [buffer[i] = v] on a [Buffer], whose length is fixed: an index beyond
    the end is ignored. *)
Definition buffer_set (b : Buffer) (i : nat) (v : Z) : Buffer := <[i := v]> b.

(** The constants of the fee schedule that the handlers below read besides
    those of [FeeSchedule]. *)
Record OpFees : Type := mkOpFees {
  expByteGas : Z;
  sha3WordGas : Z;
  logTopicGas : Z;
  logDataGas : Z
}.

(** *** 0x00 range: arithmetic *)

Definition ADD (a b : BN.BN) : BN.BN := BN_mod (a + b) TWO_POW256.

Definition MUL (a b : BN.BN) : BN.BN := BN_mod (a * b) TWO_POW256.

Definition SUB (a b : BN.BN) : BN.BN := BN.toTwos 256 (a - b).

Definition DIV (a b : BN.BN) : BN.BN :=
  if BN.isZero b then 0 else BN.div a b.

Definition MOD (a b : BN.BN) : BN.BN :=
  if BN.isZero b then 0 else BN_mod a b.

Definition SMOD (a b : BN.BN) : Buffer :=
  let a := fromSigned a in
  let b := fromSigned b in
  if BN.isZero b then [0]
  else
    let r := BN_mod (Z.abs a) (Z.abs b) in
    let r := if a <? 0 then - r else r in
    toUnsigned r.

Definition ADDMOD (a b c : BN.BN) : Buffer :=
  let a := a + b in
  if BN.isZero c then [0]
  else BN_toArray (BN_mod a c) (Some 32%nat).

Definition MULMOD (a b c : BN.BN) : Buffer :=
  let a := a * b in
  if BN.isZero c then [0]
  else BN_toArray (BN_mod a c) (Some 32%nat).

Definition SIGNEXTEND (k : BN.BN) (val : Buffer) : Buffer :=
  if k <=? 31
  then
    let k := toNumber k in
    let extendOnes :=
      negb (Z.land (default 0 (val !! Z.to_nat (31 - k))) 0x80 =? 0) in
    fold_left
      (fun val i => buffer_set val i (if extendOnes then 0xff else 0))
      (rev (seq 0 (Z.to_nat (30 - k + 1)))) val
  else val.

(** *** 0x10 range: bit operations *)

Definition AND (a b : BN.BN) : BN.BN := Z.land a b.

Definition OR (a b : BN.BN) : BN.BN := Z.lor a b.

Definition XOR (a b : BN.BN) : BN.BN := Z.lxor a b.

Definition NOT (a : BN.BN) : BN.BN := BN.notn 256 a.

(** [word[pos]] is a byte of the 32 that [setLengthLeft] has made. *)
Definition BYTE (pos word : Buffer) : Buffer :=
  let pos := bufferToInt pos in
  let word := setLengthLeft word 32 in
  if pos <? 32 then intToBuffer (default 0 (word !! Z.to_nat pos))
  else [0].

Section OtherHandlers.

Variable env : Env.
Variable opFees : OpFees.

(** [lib/logTable.js] and [utils.sha3] are functions of other files: the
    handlers are run with whatever function is given for them. *)
Variable logTable : BN.BN -> Z.
Variable sha3 : Buffer -> Buffer.

Definition EXP (base exponent : BN.BN) : M Buffer :=
  let m := TWO_POW256 in
  let base := BN_umod base m in
  if negb (BN.isZero exponent)
  then
    let bytes := 1 + logTable exponent in
    subGas (bytes * expByteGas opFees) ;;
    ret (BN_toArray (redPow base exponent m) (Some 32%nat))
  else ret [1].

(** *** 0x20 range *)

Definition SHA3 (offset length : BN.BN) : M BN.BN :=
  data <- memLoad env (toNumber offset) (toNumber length) ;;
  subGas (sha3WordGas opFees * ceil_div length 32) ;;
  ret (bufferToBN (sha3 data)).

(** *** 0x30 range, continued *)

Definition CALLDATALOAD (pos : Buffer) : M Buffer :=
  let pos := bufferToInt pos in
  st <- get ;;
  let loaded := slice (callData st) pos (pos + 32) in
  let loaded := if (length loaded =? 0)%nat then [0] else loaded in
  ret (setLengthRight loaded 32).

Definition EXTCODECOPY (address memOffset codeOffset length : Buffer)
    : M unit :=
  let address := setLengthLeft address 20 in
  let memOffset := bufferToInt memOffset in
  let codeOffset := bufferToInt codeOffset in
  let length := bufferToInt length in
  subMemUsage env memOffset length ;;
  subGas (copyGas (fees env) * ceil_div length 32) ;;
  emit (SmGetContractCode address) ;;
  let '(err, (code, _)) := getContractCode env address in
  let code := match err with Some _ => [0] | None => code end in
  memStore env memOffset code codeOffset length (Some false) ;;
  callback (option_map OfStateManager err) None.

(** *** 0x50 range, continued *)

Definition MLOAD (pos : BN.BN) : M BN.BN :=
  loaded <- memLoad env (toNumber pos) 32 ;;
  ret (bufferToBN loaded).

Definition MSTORE (offset word : BN.BN) : M unit :=
  let word := BN_toArray word (Some 32%nat) in
  memStore env (toNumber offset) word 0 32 None.

Definition SLOAD (key : BN.BN) : M unit :=
  let key := BN_toArray key (Some 32%nat) in
  st <- get ;;
  emit (SmGetContractStorage (address st) key) ;;
  let '(err, value) := getContractStorage env (address st) key in
  match err with
  | Some e => callback (Some (OfStateManager e)) None
  | None =>
    let value :=
      if negb (length value =? 0)%nat then bufferToBN value else 0 in
    callback None (Some (VBN value))
  end.


(** *** 0x80, 0x90 ranges: the stack, whose top is the last element *)

(** [stack[stack.length - stackPos]]; out of the array it is [undefined],
    [None]. *)
Definition DUP : M (option BN.BN) :=
  st <- get ;;
  let stackPos := opCode st - 0x7f in
  (if stackPos >? Z.of_nat (length (stack st))
   then trap STACK_UNDERFLOW None
   else ret tt) ;;
  ret (stack st !! Z.to_nat (Z.of_nat (length (stack st)) - stackPos)).

(** [stack[swapIndex] = stack.pop()]: for the opcodes 0x90 to 0x9f, for
    which [stackPos] is at least 1, [swapIndex] is within the popped stack
    and the element there is replaced. *)
Definition SWAP : M (option BN.BN) :=
  st <- get ;;
  let stackPos := opCode st - 0x8f in
  let swapIndex := Z.of_nat (length (stack st)) - stackPos - 1 in
  (if swapIndex <? 0 then trap STACK_UNDERFLOW None else ret tt) ;;
  let newTop := stack st !! Z.to_nat swapIndex in
  match last (stack st) with
  | Some top =>
      modify
        (set_stack (<[Z.to_nat swapIndex := top]> (removelast (stack st))))
  | None => ret tt
  end ;;
  ret newTop.

(** *** 0xa0 range *)

(** [LOG(memOffset, memLength, topic..., runState, cb)]: the topics are the
    arguments between the two first and the two last. *)
Definition LOG (memOffset memLength : Buffer) (topics : list Buffer)
    : M unit :=
  let topics := (fun a => setLengthLeft a 32) <$> topics in
  let memOffset := bufferToInt memOffset in
  let memLength := bufferToInt memLength in
  st <- get ;;
  let numOfTopics := opCode st - 0xa0 in
  mem <- memLoad env memOffset memLength ;;
  subGas (numOfTopics * logTopicGas opFees + memLength * logDataGas opFees) ;;
  st <- get ;;
  let log :=
    {| log_address := address st; log_topics := topics; log_data := mem |} in
  modify (set_logs (logs st ++ [log])).

End OtherHandlers.

(** ** Vocabulary of the statements, continued *)

(** What a frame keeps from one handler to the next: the memory invariant
    and a gas counter that is not negative. *)
Definition frame_ok (env : Env) (st : RunState) : Prop :=
  mem_inv env st /\ 0 <= gasLeft st.

(** [b] is the [length] bytes of the memory [mem] from [offset] on. *)
Definition bytes_of_memory (mem : list (option Z)) (offset length : Z)
    (b : Buffer) : Prop :=
  List.length b = Z.to_nat length /\
  forall k, (k < Z.to_nat length)%nat ->
    b !! k = Some (memory_byte mem (Z.to_nat offset + k)).

Definition stack_underflow : VmError :=
  {| error_kind := STACK_UNDERFLOW; error_at := None |}.

Definition is_storage_write (e : Event) : bool :=
  match e with
  | SmPutContractStorage _ _ _ => true
  | _ => false
  end.

(** The options that [makeCall] hands [runCall]: those it was given, with
    the caller, the origin, the gas price, the block, the self-destructs of
    the frame, and a depth one more than the frame's. *)
Definition child_options (st : RunState) (o : CallOptions) : CallOptions :=
  {| co_gasLimit := co_gasLimit o;
     co_value := co_value o;
     co_to := co_to o;
     co_data := co_data o;
     co_caller := Some (default (address st) (co_caller o));
     co_delegatecall := co_delegatecall o;
     co_code := co_code o;
     co_compiled := co_compiled o;
     co_origin := Some (origin st);
     co_gasPrice := Some (gasPrice st);
     co_block := Some (block st);
     co_populateCache := Some false;
     co_selfdestruct := Some (selfdestruct st);
     co_depth := Some (depth st + 1) |}.

Definition is_child_run (e : Event) : bool :=
  match e with
  | VmRunCall _ => true
  | _ => false
  end.

(** A child-frame runner that uses no more gas than the limit it is
    given. *)
Definition runner_within_limit (env : Env) : Prop :=
  forall o g, co_gasLimit o = Some g -> gasUsed (snd (runCall env o)) <= g.

(** What runs at an address: the precompiled contract, or the code that the
    state manager has there. *)
Definition code_at (env : Env) (a : Address) : Code :=
  if isPrecompiled env a then Precompiled a
  else Bytecode (fst (snd (getContractCode env a))).

(** The frame [st1] is [st] in all that a child frame is given of it, and
    has run no child that [st] has not. *)
Definition same_frame (st st1 : RunState) : Prop :=
  address st1 = address st /\ caller st1 = caller st /\
  origin st1 = origin st /\ gasPrice st1 = gasPrice st /\
  block st1 = block st /\ selfdestruct st1 = selfdestruct st /\
  depth st1 = depth st /\ callValue st1 = callValue st /\
  memory st1 = memory st /\
  forall o, In (VmRunCall o) (trace st1) -> In (VmRunCall o) (trace st).

(** The frame has come from [st] to [st1] as [same_frame] has it, and has
    spent, beyond what it has paid for memory, [charge]. *)
Definition call_progress (st st1 : RunState) (charge : Z) : Prop :=
  same_frame st st1 /\
  gasLeft st - gasLeft st1 =
    (highestMemCost st1 - highestMemCost st) + charge.

(** The options [o'] of a child frame started from the frame [st]: the
    target, the value, the caller and the code it is given, one level
    deeper, with the bytes of the memory of [st] in the input range as its
    data. *)
Definition child_context (st : RunState) (o' : CallOptions)
    (to : option Address) (value : BN.BN) (caller : Address)
    (delegatecall : bool) (code : option Code) (inOffset inLength : Z)
    : Prop :=
  co_to o' = to /\ co_value o' = value /\ co_caller o' = Some caller /\
  co_delegatecall o' = delegatecall /\ co_code o' = code /\
  co_depth o' = Some (depth st + 1) /\
  co_origin o' = Some (origin st) /\
  exists data,
    co_data o' = Some data /\
    bytes_of_memory (memory st) inOffset inLength data.

(** What a handler that has run the child [o'] has spent: the memory
    expansion, the [charge] of the handler, and the gas the child used. *)
Definition call_bill (env : Env) (st st' : RunState) (o' : CallOptions)
    (charge : Z) : Prop :=
  gasLeft st - gasLeft st' =
    (highestMemCost st' - highestMemCost st) + charge
    + gasUsed (snd (runCall env o')).

(** * Properties *)

Section BNFacts.

Lemma notn_below (w x : Z) :
  0 <= w -> 0 <= x < 2 ^ w -> BN.notn w x = 2 ^ w - 1 - x.
Proof.
  intros Hw Hx. unfold BN.notn.
  destruct (Z.eq_dec x 0) as [-> | Hnz].
  - rewrite Z.lxor_0_l, Z.ones_equiv. lia.
  - assert (Hlog : Z.log2 x < w) by (apply Z.log2_lt_pow2; lia).
    rewrite <- Z.ldiff_ones_l_low by lia.
    rewrite <- Z.sub_nocarry_ldiff by (apply Z.ldiff_ones_r_low; lia).
    rewrite Z.ones_equiv. lia.
Qed.

Lemma testbit_top (w x : Z) :
  0 < w -> 0 <= x < 2 ^ w -> Z.testbit x (w - 1) = (2 ^ (w - 1) <=? x).
Proof.
  intros Hw Hx.
  assert (Hp : 2 ^ w = 2 * 2 ^ (w - 1)).
  { replace w with (Z.succ (w - 1)) at 1 by lia. apply Z.pow_succ_r. lia. }
  assert (Hpos : 0 < 2 ^ (w - 1)) by (apply Z.pow_pos_nonneg; lia).
  rewrite Z.testbit_eqb by lia.
  destruct (Z.leb_spec (2 ^ (w - 1)) x) as [Hge | Hlt].
  - assert (x / 2 ^ (w - 1) = 1) as ->; [| reflexivity].
    symmetry. apply Z.div_unique with (r := x - 2 ^ (w - 1)); lia.
  - rewrite Z.div_small by lia. reflexivity.
Qed.

Lemma two_pow256_half : TWO_POW256 = 2 * 2 ^ 255.
Proof. reflexivity. Qed.

Lemma fromTwos_signed (a : Z) : is_word a -> BN.fromTwos 256 a = signed a.
Proof.
  unfold is_word, BN.fromTwos, signed. intros Ha.
  rewrite testbit_top by (unfold TWO_POW256 in Ha; lia).
  change (256 - 1) with 255.
  destruct (Z.leb_spec (2 ^ 255) a), (Z.ltb_spec a (2 ^ 255)); try lia.
  rewrite notn_below by (unfold TWO_POW256 in Ha; lia).
  fold TWO_POW256. lia.
Qed.

Lemma toTwos_unsigned (x : Z) :
  - TWO_POW256 < x < TWO_POW256 -> BN.toTwos 256 x = unsigned x.
Proof.
  unfold TWO_POW256, BN.toTwos, unsigned. intros Hx.
  destruct (Z.ltb_spec x 0).
  - rewrite notn_below by lia. unfold TWO_POW256.
    apply Z.mod_unique with (q := -1); lia.
  - unfold TWO_POW256. rewrite Z.mod_small; lia.
Qed.

Lemma signed_range (a : Z) : is_word a -> - 2 ^ 255 <= signed a < 2 ^ 255.
Proof.
  unfold is_word, signed. rewrite two_pow256_half. intros Ha.
  destruct (Z.ltb_spec a (2 ^ 255)); lia.
Qed.

Lemma quot_bound (a b : Z) : Z.abs (Z.quot a b) <= Z.abs a.
Proof.
  destruct (Z.eq_dec b 0) as [-> | Hb].
  - rewrite Z.quot_0_r_ext by reflexivity. lia.
  - rewrite <- Z.quot_abs by lia.
    apply Z.quot_le_upper_bound; nia.
Qed.

End BNFacts.

(** ** SDIV *)

(** What the code computes: the dividend is divided as it stands on the
    stack, unsigned; only the divisor is read as two's-complement. *)
Lemma SDIV_unsigned_dividend (a b : Z) :
  is_word a -> is_word b ->
  SDIV a b = if signed b =? 0 then 0 else unsigned (Z.quot a (signed b)).
Proof.
  intros Ha Hb. unfold SDIV, BN.isZero, BN.div.
  rewrite fromTwos_signed by assumption.
  destruct (signed b =? 0); [reflexivity |].
  apply toTwos_unsigned.
  pose proof (quot_bound a (signed b)). unfold is_word in Ha. lia.
Qed.

(** Where the dividend is non-negative as a signed number the code agrees
    with the specification. *)
Lemma SDIV_nonneg_dividend (a b : Z) :
  is_word a -> is_word b -> a < 2 ^ 255 -> SDIV a b = SDIV_spec a b.
Proof.
  intros Ha Hb Hlt. rewrite SDIV_unsigned_dividend by assumption.
  unfold SDIV_spec. replace (signed a) with a; [reflexivity |].
  unfold signed. destruct (Z.ltb_spec a (2 ^ 255)); lia.
Qed.

(** C1. SDIV of the words encoding -2 and 2: the specification asks for
    the word encoding -1, [2^256 - 1]; the code divides the unsigned
    [2^256 - 2] by 2 and returns [2^255 - 1]. *)
Theorem SDIV_minus2_by_2 :
  SDIV (TWO_POW256 - 2) 2 = 2 ^ 255 - 1 /\
  SDIV_spec (TWO_POW256 - 2) 2 = TWO_POW256 - 1 /\
  SDIV (TWO_POW256 - 2) 2 <> SDIV_spec (TWO_POW256 - 2) 2.
Proof. vm_compute. repeat split; congruence. Qed.

(** ** The monad *)

Ltac unfold_vm :=
  unfold bind, ret, get, modify, throw, trap, when, emit, callback,
    try_catch in *.

(** Unfolds the monad in the goal and reduces, leaving the helpers
    folded. *)
Ltac step_vm :=
  cbv beta iota zeta
      delta [bind get ret when emit callback modify throw try_catch].


(** ** subGas *)

Lemma subGas_run (amount : Z) (st : RunState) :
  subGas amount st =
    (if gasLeft st - amount <? 0 then Throw out_of_gas else Ok tt,
     set_gasLeft (gasLeft st - amount) st).
Proof.
  unfold subGas. unfold_vm. simpl.
  destruct (gasLeft st - amount <? 0); reflexivity.
Qed.

(** C10. A deduction of [amount] through [subGas] traps OUT_OF_GAS exactly
    when [amount] exceeds the gas left, and, trap or not, leaves
    [gasLeft] at its previous value minus [amount]: after a trap the
    counter is negative, not restored. *)
Theorem subGas_deducts_before_trap (amount : Z) (st : RunState) :
  let r := fst (subGas amount st) in
  let st' := snd (subGas amount st) in
  (r = Throw out_of_gas <-> gasLeft st < amount) /\
  (r = Ok tt <-> amount <= gasLeft st) /\
  gasLeft st' = gasLeft st - amount /\
  st' = set_gasLeft (gasLeft st - amount) st /\
  (r = Throw out_of_gas -> gasLeft st' < 0).
Proof.
  rewrite subGas_run. simpl.
  destruct (Z.ltb_spec (gasLeft st - amount) 0);
    repeat split; intros; try lia; try discriminate; reflexivity.
Qed.

(** ** CALLDATASIZE *)

(** C9, as the specification has it, fails: for call data of the single
    byte 0x00, whose length is 1, CALLDATASIZE returns 0. *)
Lemma CALLDATASIZE_single_zero_byte :
  let st := Fixtures.new_frame [] [0] 100 in
  Z.of_nat (length (callData st)) = 1 /\
  fst (CALLDATASIZE st) = Ok 0.
Proof. split; reflexivity. Qed.

(** C9, amended. CALLDATASIZE returns the byte length of the call data,
    except for call data that is exactly the single byte 0x00, for which it
    returns 0; the frame is left as it was. *)
Theorem CALLDATASIZE_length_or_zero (st : RunState) :
  CALLDATASIZE st =
    (Ok (if bool_decide (callData st = [0]) then 0
         else Z.of_nat (length (callData st))), st).
Proof.
  unfold CALLDATASIZE. unfold_vm.
  destruct (callData st) as [| b [| b' l]] eqn:E; simpl.
  - reflexivity.
  - destruct (Z.eqb_spec b 0) as [-> | Hb].
    + reflexivity.
    + rewrite bool_decide_eq_false_2; [reflexivity | congruence].
  - rewrite bool_decide_eq_false_2; [reflexivity | congruence].
Qed.

(** ** PUSH *)

Lemma bufferToBN_app (l1 l2 : Buffer) :
  bufferToBN (l1 ++ l2) =
    fold_left (fun acc x => acc * 256 + x) l2 (bufferToBN l1).
Proof. unfold bufferToBN. apply fold_left_app. Qed.

Lemma bufferToBN_zeros_right (l : Buffer) (k : nat) :
  bufferToBN (l ++ replicate k 0) = bufferToBN l * 256 ^ Z.of_nat k.
Proof.
  rewrite bufferToBN_app. generalize (bufferToBN l). clear l.
  induction k as [| k IH]; intros v; simpl replicate.
  - simpl. lia.
  - cbn [fold_left]. rewrite IH.
    rewrite Nat2Z.inj_succ, Z.pow_succ_r by lia. lia.
Qed.

(** C7, as the specification has it, fails: PUSH2 whose immediate is cut
    to the one byte 0x01 by the end of the code pushes 1, where the
    right-padded word is 0x0100 = 256. *)
Lemma PUSH_truncated_not_right_padded :
  let st := Fixtures.at_pc 0x61 1 (Fixtures.new_frame [0x61; 0x01] [] 100) in
  fst (PUSH st) = Ok 1 /\
  PUSH_spec_word (code st) (programCounter st) 2 = 256.
Proof. split; reflexivity. Qed.

(** C7, amended. PUSHn pushes the code bytes that are there from the program
    counter on, at most [n] of them, read as a big-endian integer without
    padding, and advances the program counter by [n].  The word of the
    specification is that integer shifted left by one byte for every
    missing byte; the two are equal when all [n] bytes are there. *)
Theorem PUSH_available_bytes (st : RunState) :
  let n := opCode st - 0x5f in
  let pc := programCounter st in
  let avail := slice (code st) pc (pc + n) in
  let missing := (Z.to_nat n - length avail)%nat in
  PUSH st = (Ok (bufferToBN avail), set_programCounter (pc + n) st) /\
  PUSH_spec_word (code st) pc n = bufferToBN avail * 256 ^ Z.of_nat missing /\
  (0 <= pc -> 0 <= n -> pc + n <= Z.of_nat (length (code st)) ->
   missing = 0%nat /\ PUSH_spec_word (code st) pc n = bufferToBN avail).
Proof.
  intros n pc avail missing. split; [reflexivity |].
  assert (Hspec : PUSH_spec_word (code st) pc n
                  = bufferToBN avail * 256 ^ Z.of_nat missing).
  { unfold PUSH_spec_word. apply bufferToBN_zeros_right. }
  split; [exact Hspec |].
  intros Hpc Hn Hlen.
  assert (Hm : missing = 0%nat).
  { unfold missing, avail, slice.
    rewrite length_take, length_drop.
    replace (pc + n - pc) with n by lia. lia. }
  split; [exact Hm |].
  rewrite Hspec, Hm. simpl. lia.
Qed.

(** ** JUMP, JUMPI *)




(** ** Buffers as numbers *)

Lemma fold_be_shift (l : Buffer) (a : Z) :
  fold_left (fun acc x => acc * 256 + x) l a =
    a * 256 ^ Z.of_nat (length l) + bufferToBN l.
Proof.
  unfold bufferToBN. revert a.
  induction l as [| x l IH]; intros a; simpl fold_left.
  - simpl. lia.
  - rewrite IH, (IH (0 * 256 + x)).
    cbn [length]. rewrite Nat2Z.inj_succ, Z.pow_succ_r by lia. lia.
Qed.

Lemma bufferToBN_cons (x : Z) (l : Buffer) :
  bufferToBN (x :: l) = x * 256 ^ Z.of_nat (length l) + bufferToBN l.
Proof.
  unfold bufferToBN at 1. simpl fold_left. rewrite fold_be_shift. lia.
Qed.

Lemma bufferToBN_nonneg (l : Buffer) : is_bytes l -> 0 <= bufferToBN l.
Proof.
  induction 1 as [| x l Hx _ IH].
  - reflexivity.
  - rewrite bufferToBN_cons.
    assert (0 < 256 ^ Z.of_nat (length l)) by (apply Z.pow_pos_nonneg; lia).
    nia.
Qed.

Lemma unpad_nil_iff_zero (l : Buffer) :
  is_bytes l -> (unpad l = [] <-> bufferToBN l = 0).
Proof.
  induction 1 as [| x l Hx Hl IH].
  - split; reflexivity.
  - rewrite bufferToBN_cons. simpl unpad.
    pose proof (bufferToBN_nonneg l Hl) as Hnn.
    assert (Hp : 0 < 256 ^ Z.of_nat (length l))
      by (apply Z.pow_pos_nonneg; lia).
    destruct (Z.eqb_spec x 0) as [-> | Hnz].
    + rewrite IH. split; lia.
    + split; [discriminate | nia].
Qed.

Lemma unpad_idempotent (l : Buffer) : unpad (unpad l) = unpad l.
Proof.
  induction l as [| x l IH]; [reflexivity |].
  simpl. destruct (Z.eqb_spec x 0) as [-> | Hnz]; [exact IH |].
  simpl. apply Z.eqb_neq in Hnz. rewrite Hnz. reflexivity.
Qed.

(** A stored value without leading zero bytes is empty exactly when it is
    zero as a number. *)
Lemma stripped_nil_iff_zero (l : Buffer) :
  is_bytes l -> unpad l = l -> (length l = 0%nat <-> bufferToBN l = 0).
Proof.
  intros Hb Hs. rewrite <- unpad_nil_iff_zero by exact Hb.
  rewrite Hs. destruct l; simpl; split; congruence.
Qed.

(** ** SSTORE *)

Section SSTORE_facts.

Variable env : Env.

(** SSTORE once the slot has been read: the charge is taken, and unless
    that traps the refund is credited and the value written. *)
Lemma SSTORE_run (key val found : Buffer) (st : RunState) :
  let k := setLengthLeft key 32 in
  let value := unpad val in
  let was_set := negb (length found =? 0)%nat in
  let is_set := negb (length value =? 0)%nat in
  let charge := sstore_charge env was_set is_set in
  let st1 :=
    set_gasLeft (gasLeft st - charge)
      (set_trace (trace st ++ [SmGetContractStorage (address st) k]) st) in
  let st2 :=
    set_gasRefund (gasRefund st + sstore_refund env was_set is_set) st1 in
  let st3 :=
    set_trace (trace st2 ++ [SmPutContractStorage (address st) k value])
      st2 in
  getContractStorage env (address st) k = (None, found) ->
  SSTORE env key val st =
    (Ok tt,
     if gasLeft st - charge <? 0
     then set_trace
            (trace st1 ++ [Callback (Some (OfTrap out_of_gas)) None]) st1
     else
       match putContractStorage env (address st) k value with
       | Some e =>
           set_trace
             (trace st3 ++ [Callback (Some (OfStateManager e)) None]) st3
       | None =>
           let st4 :=
             set_contract (cache_get env (address st))
               (set_trace (trace st3 ++ [SmCacheGet (address st)]) st3) in
           set_trace (trace st4 ++ [Callback None None]) st4
       end).
Proof.
  intros k value was_set is_set charge st1 st2 st3 Hget.
  unfold SSTORE. fold k. fold value.
  repeat (unfold_vm; cbv beta iota). rewrite Hget.
  subst st3 st2 st1 charge. unfold sstore_charge, sstore_refund.
  subst was_set is_set.
  destruct (length value =? 0)%nat, (length found =? 0)%nat;
    cbn [negb andb]; rewrite subGas_run; cbv beta iota;
    destruct (_ <? 0); cbv beta iota;
    try reflexivity;
    destruct (putContractStorage _ _ _ _); try reflexivity;
    destruct st; cbn; rewrite ?Z.add_0_r; reflexivity.
Qed.

Lemma sstore_state_gas (key val found : Buffer) (st : RunState) :
  let k := setLengthLeft key 32 in
  let was_set := negb (length found =? 0)%nat in
  let is_set := negb (length (unpad val) =? 0)%nat in
  let charge := sstore_charge env was_set is_set in
  let st' := snd (SSTORE env key val st) in
  getContractStorage env (address st) k = (None, found) ->
  gasLeft st' = gasLeft st - charge /\
  gasRefund st' =
    (if gasLeft st - charge <? 0 then gasRefund st
     else gasRefund st + sstore_refund env was_set is_set) /\
  (last (trace st') = Some (Callback None None) <->
   charge <= gasLeft st /\
   putContractStorage env (address st) k (unpad val) = None).
Proof.
  intros k was_set is_set charge st' Hget. subst st'.
  rewrite (SSTORE_run key val found st Hget). cbn [snd].
  fold k. fold was_set. fold is_set. fold charge.
  destruct (Z.ltb_spec (gasLeft st - charge) 0) as [Hlt | Hge].
  - split; [reflexivity |]. split; [reflexivity |].
    cbn [trace set_trace]. rewrite last_snoc.
    split; [discriminate | lia].
  - destruct (putContractStorage env (address st) k (unpad val)) eqn:Eput;
      (split; [reflexivity |]); (split; [reflexivity |]);
      cbn [trace set_trace]; rewrite last_snoc.
    + split; [discriminate | intros [_ ?]; discriminate].
    + split; [intros _; split; [lia | reflexivity] | reflexivity].
Qed.

(** What SSTORE hands the state manager to store has no leading zero
    bytes. *)
Lemma SSTORE_writes_stripped (key val : Buffer) (st : RunState)
    (a : Address) (k v : Buffer) :
  In (SmPutContractStorage a k v) (trace (snd (SSTORE env key val st))) ->
  In (SmPutContractStorage a k v) (trace st) \/ unpad v = v.
Proof.
  destruct (getContractStorage env (address st) (setLengthLeft key 32))
    as [[e |] found] eqn:Eget.
  - unfold SSTORE. repeat (unfold_vm; cbv beta iota). rewrite Eget.
    cbn. rewrite !in_app_iff. cbn. intros [[H | [H | []]] | [H | []]];
      try discriminate; auto.
  - rewrite (SSTORE_run key val found st Eget). cbn [snd].
    destruct (_ <? 0); [| destruct (putContractStorage _ _ _ _)];
      cbn; rewrite !in_app_iff; cbn; intros H;
      repeat match goal with
             | H : _ \/ _ |- _ => destruct H
             | H : False |- _ => destruct H
             | H : _ = SmPutContractStorage _ _ _ |- _ =>
                 inversion H; subst; clear H
             end; auto using unpad_idempotent.
Qed.

End SSTORE_facts.

(** C2. SSTORE, once the state manager has answered the read of the slot:
    previous value zero and new value zero, [sstoreResetGas] is taken from
    [gasLeft] and [gasRefund] stays; previous non-zero and new zero,
    [sstoreResetGas] is taken and [sstoreRefundGas] is added to [gasRefund]
    (the refund is credited where the charge has not trapped
    OUT_OF_GAS); previous zero and new non-zero, [sstoreSetGas] is taken;
    both non-zero, [sstoreResetGas] is taken and [gasRefund] stays.  The
    slot holds what an SSTORE writes, a value without leading zero bytes. *)
Theorem SSTORE_gas_table (env : Env) (key val : Buffer) (st : RunState) :
  let k := setLengthLeft key 32 in
  let found := snd (getContractStorage env (address st) k) in
  let prev := bufferToBN found in
  let new := bufferToBN val in
  let st' := snd (SSTORE env key val st) in
  fst (getContractStorage env (address st) k) = None ->
  is_bytes val -> is_bytes found -> unpad found = found ->
  (prev = 0 -> new = 0 ->
   gasLeft st' = gasLeft st - sstoreResetGas (fees env) /\
   gasRefund st' = gasRefund st) /\
  (prev <> 0 -> new = 0 ->
   gasLeft st' = gasLeft st - sstoreResetGas (fees env) /\
   (sstoreResetGas (fees env) <= gasLeft st ->
    gasRefund st' = gasRefund st + sstoreRefundGas (fees env))) /\
  (prev = 0 -> new <> 0 ->
   gasLeft st' = gasLeft st - sstoreSetGas (fees env) /\
   gasRefund st' = gasRefund st) /\
  (prev <> 0 -> new <> 0 ->
   gasLeft st' = gasLeft st - sstoreResetGas (fees env) /\
   gasRefund st' = gasRefund st).
Proof.
  intros k found prev new st' Hget Hval Hfound Hstripped.
  assert (Hg : getContractStorage env (address st) k = (None, found)).
  { subst found. destruct (getContractStorage env (address st) k).
    simpl in *. congruence. }
  assert (Hprev : (length found =? 0)%nat = (prev =? 0)).
  { pose proof (stripped_nil_iff_zero found Hfound Hstripped) as H.
    fold prev in H.
    destruct (Nat.eqb_spec (length found) 0), (Z.eqb_spec prev 0);
      tauto. }
  assert (Hnew : (length (unpad val) =? 0)%nat = (new =? 0)).
  { pose proof (unpad_nil_iff_zero val Hval) as H. fold new in H.
    destruct (Nat.eqb_spec (length (unpad val)) 0) as [E | E],
             (Z.eqb_spec new 0); try reflexivity.
    - apply length_zero_iff_nil in E. tauto.
    - exfalso. apply E. apply length_zero_iff_nil. tauto. }
  destruct (sstore_state_gas env key val found st Hg) as (Hgas & Href & _).
  fold k in Hgas, Href. fold st' in Hgas, Href.
  rewrite Hprev, Hnew in Hgas, Href.
  unfold sstore_charge, sstore_refund in Hgas, Href.
  split; [| split; [| split]]; intros Hp Hn;
    (apply Z.eqb_eq in Hp || apply Z.eqb_neq in Hp);
    (apply Z.eqb_eq in Hn || apply Z.eqb_neq in Hn);
    rewrite Hp, Hn in Hgas, Href; cbn [negb andb] in Hgas, Href;
    (split; [exact Hgas |]); try intros Hcharge;
    destruct (Z.ltb_spec (gasLeft st - sstoreResetGas (fees env)) 0);
    destruct (Z.ltb_spec (gasLeft st - sstoreSetGas (fees env)) 0);
    lia.
Qed.

Lemma SSTORE_gas_table_witness :
  let env := Fixtures.world [0x42] in
  let st := Fixtures.new_frame [] [] 100000 in
  let st' := snd (SSTORE env [1] [0] st) in
  gasLeft st' = 100000 - 5000 /\ gasRefund st' = 0 + 15000.
Proof.
  intros env st st'.
  assert (Hget : fst (getContractStorage env (address st)
                        (setLengthLeft [1] 32)) = None) by reflexivity.
  assert (Hval : is_bytes [0]) by (repeat constructor; lia).
  assert (Hfound : is_bytes (snd (getContractStorage env (address st)
                                    (setLengthLeft [1] 32))))
    by (repeat constructor; simpl; lia).
  assert (Hstripped :
            unpad (snd (getContractStorage env (address st)
                          (setLengthLeft [1] 32)))
            = snd (getContractStorage env (address st)
                     (setLengthLeft [1] 32))) by reflexivity.
  destruct (SSTORE_gas_table env [1] [0] st Hget Hval Hfound Hstripped)
    as (_ & Hcase & _).
  destruct Hcase as [Hgas Hrefund]; [vm_compute; congruence | reflexivity |].
  split; [exact Hgas |].
  apply Hrefund. vm_compute. congruence.
Defined.

(** ** subMemUsage *)

(** [MAX_INT] is the largest safe integer: up to [2^53] every integer is a
    [Number], and a sum that stays there is exact. *)
Lemma MAX_INT_safe : MAX_INT = 2 ^ 53 - 1.
Proof. reflexivity. Qed.


Lemma memCost_mono (f : FeeSchedule) (a b : Z) :
  0 < quadCoeffDiv f -> 0 <= memoryGas f -> 0 <= a <= b ->
  memCost f a <= memCost f b.
Proof.
  intros Hq Hg Hab. unfold memCost.
  assert (a * a <= b * b) by nia.
  pose proof (Z.div_le_mono (a * a) (b * b) (quadCoeffDiv f) Hq ltac:(lia)).
  nia.
Qed.

Section subMemUsage_facts.

Variable env : Env.

Lemma subMemUsage_run (offset length : Z) (st : RunState) :
  let w := ceil_div (offset + length) 32 in
  let cost :=
    w * memoryGas (fees env) + Z.quot (w * w) (quadCoeffDiv (fees env)) in
  let st1 := set_memoryWordCount w st in
  let st2 := set_gasLeft (gasLeft st - (cost - highestMemCost st)) st1 in
  subMemUsage env offset length st =
    if length =? 0 then (Ok tt, st)
    else if (offset >? MAX_INT) || (length >? MAX_INT)
    then (Throw out_of_gas, st)
    else if w <=? memoryWordCount st then (Ok tt, st)
    else if cost >? highestMemCost st
    then if gasLeft st - (cost - highestMemCost st) <? 0
         then (Throw out_of_gas, st2)
         else (Ok tt, set_highestMemCost cost st2)
    else (Ok tt, st1).
Proof.
  intros w cost st1 st2. unfold subMemUsage.
  destruct (length =? 0); [reflexivity |].
  destruct ((offset >? MAX_INT) || (length >? MAX_INT)); [reflexivity |].
  fold w. repeat (unfold_vm; cbv beta iota).
  destruct (w <=? memoryWordCount st); [reflexivity |].
  cbv beta iota. unfold BN.div. fold cost. fold st1.
  replace (highestMemCost st1) with (highestMemCost st) by reflexivity.
  destruct (cost >? highestMemCost st); [| reflexivity].
  rewrite subGas_run.
  replace (gasLeft st1) with (gasLeft st) by reflexivity.
  fold st2.
  destruct (gasLeft st - (cost - highestMemCost st) <? 0); reflexivity.
Qed.


Hypothesis quadCoeffDiv_pos : 0 < quadCoeffDiv (fees env).
Hypothesis memoryGas_nonneg : 0 <= memoryGas (fees env).

Lemma code_cost_is_memCost (w : Z) :
  w * memoryGas (fees env) + Z.quot (w * w) (quadCoeffDiv (fees env))
  = memCost (fees env) w.
Proof.
  unfold memCost. rewrite Z.quot_div_nonneg by nia. lia.
Qed.

(** A growth of the word count under [mem_inv]: the state, and the trap. *)
Lemma subMemUsage_grow (offset length : Z) (st : RunState) :
  let w := ceil_div (offset + length) 32 in
  let inc := memCost (fees env) w - highestMemCost st in
  mem_inv env st -> 0 <= gasLeft st ->
  length <> 0 -> offset <= MAX_INT -> length <= MAX_INT ->
  memoryWordCount st < w ->
  0 <= inc /\
  subMemUsage env offset length st =
    if gasLeft st - inc <? 0
    then (Throw out_of_gas,
          set_gasLeft (gasLeft st - inc) (set_memoryWordCount w st))
    else (Ok tt,
          set_highestMemCost (memCost (fees env) w)
            (set_gasLeft (gasLeft st - inc) (set_memoryWordCount w st))).
Proof.
  intros w inc [Hw0 Hinv] Hgas Hlen Hoff Hlen' Hgrow.
  assert (Hmono : highestMemCost st <= memCost (fees env) w).
  { rewrite Hinv. apply memCost_mono; lia. }
  split; [unfold inc; lia |].
  rewrite subMemUsage_run. fold w. rewrite code_cost_is_memCost.
  apply Z.eqb_neq in Hlen. rewrite Hlen.
  replace (offset >? MAX_INT) with false
    by (symmetry; rewrite Z.gtb_ltb; apply Z.ltb_ge; lia).
  replace (length >? MAX_INT) with false
    by (symmetry; rewrite Z.gtb_ltb; apply Z.ltb_ge; lia).
  cbn [orb].
  replace (w <=? memoryWordCount st) with false
    by (symmetry; apply Z.leb_gt; lia).
  fold inc. rewrite Z.gtb_ltb.
  destruct (Z.ltb_spec (highestMemCost st) (memCost (fees env) w))
    as [Hlt | Hge]; [reflexivity |].
  assert (Heq : memCost (fees env) w = highestMemCost st) by lia.
  assert (Hinc : inc = 0) by (unfold inc; lia).
  rewrite Hinc, Z.sub_0_r, Heq.
  replace (gasLeft st <? 0) with false by (symmetry; apply Z.ltb_ge; lia).
  destruct st; reflexivity.
Qed.

(** A frame keeps [mem_inv] and a non-negative [gasLeft] through every
    access that does not trap. *)
Lemma subMemUsage_keeps_inv (offset length : Z) (st st' : RunState) :
  mem_inv env st -> 0 <= gasLeft st ->
  subMemUsage env offset length st = (Ok tt, st') ->
  mem_inv env st' /\ 0 <= gasLeft st'.
Proof.
  intros Hinv Hgas Hrun.
  destruct (Z.eq_dec length 0) as [-> | Hlen].
  { rewrite subMemUsage_run in Hrun. simpl in Hrun.
    inversion Hrun; subst. auto. }
  destruct (Z_le_gt_dec offset MAX_INT) as [Hoff |];
    [destruct (Z_le_gt_dec length MAX_INT) as [Hlen' |] |].
  - destruct (Z_lt_le_dec (memoryWordCount st)
                (ceil_div (offset + length) 32)) as [Hgrow | Hsame].
    + destruct (subMemUsage_grow offset length st Hinv Hgas Hlen Hoff
                  Hlen' Hgrow) as [Hinc Heq].
      rewrite Heq in Hrun.
      destruct (Z.ltb_spec
                  (gasLeft st -
                   (memCost (fees env) (ceil_div (offset + length) 32) -
                    highestMemCost st)) 0); [discriminate |].
      inversion Hrun; subst. destruct Hinv as [Hw0 _].
      split; [split |]; cbn; lia.
    + rewrite subMemUsage_run in Hrun.
      apply Z.eqb_neq in Hlen. rewrite Hlen in Hrun.
      destruct ((offset >? MAX_INT) || (length >? MAX_INT));
        [discriminate |].
      replace (ceil_div (offset + length) 32 <=? memoryWordCount st)
        with true in Hrun by (symmetry; apply Z.leb_le; lia).
      inversion Hrun; subst. auto.
  - rewrite subMemUsage_run in Hrun.
    apply Z.eqb_neq in Hlen. rewrite Hlen in Hrun.
    replace (length >? MAX_INT) with true in Hrun
      by (symmetry; rewrite Z.gtb_ltb; apply Z.ltb_lt; lia).
    rewrite orb_true_r in Hrun. discriminate.
  - rewrite subMemUsage_run in Hrun.
    apply Z.eqb_neq in Hlen. rewrite Hlen in Hrun.
    replace (offset >? MAX_INT) with true in Hrun
      by (symmetry; rewrite Z.gtb_ltb; apply Z.ltb_lt; lia).
    discriminate.
Qed.

End subMemUsage_facts.

(** A frame starts with no words counted and nothing charged. *)
Lemma new_frame_mem_inv (env : Env) (code callData : Buffer) (gas : BN.BN) :
  0 < quadCoeffDiv (fees env) ->
  mem_inv env (Fixtures.new_frame code callData gas).
Proof.
  intros Hq. split; [cbn; lia |]. unfold memCost. cbn.
  rewrite Z.div_0_l by lia. lia.
Qed.



(** ** What memory billing touches *)

Lemma billed_refl (st : RunState) : billed st st.
Proof. unfold billed. destruct st; reflexivity. Qed.

Lemma billed_trans (a b c : RunState) : billed a b -> billed b c -> billed a c.
Proof.
  unfold billed. destruct a, b, c. cbn.
  intros Hab Hbc. inversion Hab; subst. inversion Hbc; subst. reflexivity.
Qed.

Lemma subMemUsage_billed (env : Env) (offset length : Z) (st : RunState) :
  billed st (snd (subMemUsage env offset length st)).
Proof.
  rewrite subMemUsage_run.
  repeat match goal with
         | |- context [if ?b then _ else _] => destruct b
         end; unfold billed; destruct st; reflexivity.
Qed.

(** An access that does not trap has been paid for: [gasLeft] stays
    non-negative and falls by what [highestMemCost] rises. *)
Lemma subMemUsage_paid (env : Env) (offset length : Z) (st st' : RunState) :
  subMemUsage env offset length st = (Ok tt, st') ->
  gasLeft st - gasLeft st' = highestMemCost st' - highestMemCost st /\
  (0 <= gasLeft st -> 0 <= gasLeft st').
Proof.
  rewrite subMemUsage_run.
  repeat match goal with
         | |- context [if ?b then _ else _] => destruct b eqn:?
         end; intros H; inversion H; subst; cbn; lia.
Qed.

Lemma memLoad_run (env : Env) (offset length : Z) (st : RunState) :
  memLoad env offset length st =
    match subMemUsage env offset length st with
    | (Ok _, st') =>
        (Ok (Buffer_of_array
               (slice (memory st') offset (offset + length) ++
                replicate
                  (Z.to_nat length -
                   List.length (slice (memory st') offset (offset + length)))
                  (Some 0))), st')
    | (Throw e, st') => (Throw e, st')
    end.
Proof.
  unfold memLoad. unfold_vm.
  destruct (subMemUsage env offset length st) as [[[] | e] st'];
    reflexivity.
Qed.

Lemma memLoad_state (env : Env) (offset length : Z) (st : RunState) :
  snd (memLoad env offset length st) = snd (subMemUsage env offset length st)
  /\ (forall b, fst (memLoad env offset length st) = Ok b ->
      fst (subMemUsage env offset length st) = Ok tt)
  /\ (forall e, fst (memLoad env offset length st) = Throw e ->
      fst (subMemUsage env offset length st) = Throw e).
Proof.
  rewrite memLoad_run.
  destruct (subMemUsage env offset length st) as [[[] | e] st']; cbn;
    repeat split; intros; congruence.
Qed.

(** ** checkCallMemCost, checkOutOfGas *)

Section CallGas.

Variable env : Env.

Lemma memLoad_billed (offset length : Z) (st : RunState) :
  billed st (snd (memLoad env offset length st)).
Proof.
  destruct (memLoad_state env offset length st) as [-> _].
  apply subMemUsage_billed.
Qed.

Lemma memLoad_paid (offset length : Z) (st st' : RunState) (b : Buffer) :
  memLoad env offset length st = (Ok b, st') ->
  gasLeft st - gasLeft st' = highestMemCost st' - highestMemCost st /\
  (0 <= gasLeft st -> 0 <= gasLeft st').
Proof.
  rewrite memLoad_run.
  destruct (subMemUsage env offset length st) as [[[] | e] st1] eqn:E;
    intros H; inversion H; subst.
  eapply subMemUsage_paid; eauto.
Qed.

(** [checkCallMemCost], run: the input range is loaded and billed, the
    output range billed, and a missing gas limit set to the gas left. *)
Lemma checkCallMemCost_run (o : CallOptions) (lo : LocalOpts)
    (st : RunState) :
  checkCallMemCost env o lo st =
    match memLoad env (inOffset lo) (inLength lo) st with
    | (Throw e, st1) => (Throw e, st1)
    | (Ok data, st1) =>
      match
        match out lo with
        | Some (outOffset, outLength) =>
            if outLength =? 0 then (Ok tt, st1)
            else subMemUsage env outOffset outLength st1
        | None => (Ok tt, st1)
        end
      with
      | (Throw e, st2) => (Throw e, st2)
      | (Ok _, st2) =>
          (Ok (set_co_gasLimit
                 (Some (default (gasLeft st2) (co_gasLimit o)))
                 (set_co_data (Some data) o)), st2)
      end
    end.
Proof.
  unfold checkCallMemCost. unfold bind at 1.
  destruct (memLoad env (inOffset lo) (inLength lo) st)
    as [[data | e] st1]; [| reflexivity].
  unfold bind at 1.
  destruct (out lo) as [[outOffset outLength] |].
  - destruct (outLength =? 0).
    + unfold_vm. cbn. destruct o as [[gl |] ? ? ? ? ? ? ? ? ? ? ? ? ?]; reflexivity.
    + destruct (subMemUsage env outOffset outLength st1)
        as [[[] | e] st2]; [| reflexivity].
      unfold_vm. cbn. destruct o as [[gl |] ? ? ? ? ? ? ? ? ? ? ? ? ?]; reflexivity.
  - unfold_vm. cbn. destruct o as [[gl |] ? ? ? ? ? ? ? ? ? ? ? ? ?]; reflexivity.
Qed.

Lemma checkCallMemCost_billed (o : CallOptions) (lo : LocalOpts)
    (st : RunState) :
  billed st (snd (checkCallMemCost env o lo st)).
Proof.
  rewrite checkCallMemCost_run.
  pose proof (memLoad_billed (inOffset lo) (inLength lo) st) as H1.
  destruct (memLoad env (inOffset lo) (inLength lo) st)
    as [[data | e] st1]; cbn in H1; [| exact H1].
  destruct (out lo) as [[outOffset outLength] |]; [| exact H1].
  destruct (outLength =? 0); [exact H1 |].
  pose proof (subMemUsage_billed env outOffset outLength st1) as H2.
  destruct (subMemUsage env outOffset outLength st1) as [[[] | e] st2];
    cbn in *; eapply billed_trans; eauto.
Qed.

Lemma checkCallMemCost_ok (o o1 : CallOptions) (lo : LocalOpts)
    (st st1 : RunState) :
  checkCallMemCost env o lo st = (Ok o1, st1) ->
  (exists data,
     o1 = set_co_gasLimit (Some (default (gasLeft st1) (co_gasLimit o)))
            (set_co_data (Some data) o)) /\
  gasLeft st - gasLeft st1 = highestMemCost st1 - highestMemCost st /\
  (0 <= gasLeft st -> 0 <= gasLeft st1).
Proof.
  rewrite checkCallMemCost_run.
  destruct (memLoad env (inOffset lo) (inLength lo) st)
    as [[data | e] st'] eqn:Eload; [| discriminate].
  destruct (memLoad_paid _ _ _ _ _ Eload) as [Hpaid Hnn].
  destruct (out lo) as [[outOffset outLength] |].
  - destruct (outLength =? 0).
    + intros H; inversion H; subst. eauto.
    + destruct (subMemUsage env outOffset outLength st')
        as [[[] | e] st2] eqn:Eout; [| discriminate].
      destruct (subMemUsage_paid _ _ _ _ _ Eout) as [Hpaid2 Hnn2].
      intros H; inversion H; subst.
      split; [eauto |]. split; [lia | auto].
  - intros H; inversion H; subst. eauto.
Qed.

Lemma checkOutOfGas_run (o : CallOptions) (st : RunState) :
  checkOutOfGas o st =
    (Ok match co_gasLimit o with
        | Some gl =>
            if gl >? gasLeft st - Z.quot (gasLeft st) 64
            then set_co_gasLimit
                   (Some (gasLeft st - Z.quot (gasLeft st) 64)) o
            else o
        | None => o
        end, st).
Proof.
  unfold checkOutOfGas, BN.div. unfold_vm.
  destruct (co_gasLimit o) as [gl |]; [| reflexivity].
  destruct (gl >? _); reflexivity.
Qed.

End CallGas.




(** ** Memory as an array with holes *)

Lemma memory_byte_array_set (a : list (option Z)) (i j : nat)
    (v : option Z) :
  memory_byte (array_set a i v) j =
    if decide (j = i) then default 0 v else memory_byte a j.
Proof.
  unfold memory_byte, array_set.
  destruct (Nat.ltb_spec i (length a)) as [Hlt | Hge].
  - destruct (decide (j = i)) as [-> | Hne].
    + rewrite list_lookup_insert_eq by lia. destruct v; reflexivity.
    + rewrite list_lookup_insert_ne by congruence. reflexivity.
  - destruct (decide (j = i)) as [-> | Hne].
    + rewrite lookup_app_r by lia.
      rewrite lookup_app_r by (rewrite length_replicate; lia).
      rewrite length_replicate.
      replace (i - length a - (i - length a))%nat with 0%nat by lia.
      destruct v; reflexivity.
    + destruct (Nat.lt_ge_cases j (length a)) as [Hj | Hj].
      * rewrite lookup_app_l by lia. reflexivity.
      * rewrite (lookup_ge_None_2 a j) by lia.
        rewrite lookup_app_r by lia.
        destruct (Nat.lt_ge_cases j i) as [Hji | Hji].
        -- rewrite lookup_app_l by (rewrite length_replicate; lia).
           rewrite lookup_replicate_2 by lia. reflexivity.
        -- rewrite lookup_app_r by (rewrite length_replicate; lia).
           rewrite length_replicate.
           rewrite lookup_ge_None_2 by (simpl; lia). reflexivity.
Qed.

(** The copy loop of [memStore], byte by byte. *)
Lemma copy_loop_byte (mem : list (option Z)) (val : Buffer)
    (offset valOffset : Z) (n j : nat) :
  0 <= offset -> 0 <= valOffset ->
  memory_byte (copy_loop mem offset val valOffset (Z.of_nat n)) j =
    if decide (Z.to_nat offset <= j < Z.to_nat offset + n)%nat
    then default 0 (val !! (Z.to_nat valOffset + (j - Z.to_nat offset))%nat)
    else memory_byte mem j.
Proof.
  intros Hoff Hval. unfold copy_loop. rewrite Nat2Z.id.
  induction n as [| n IH].
  - simpl. destruct (decide _); [lia | reflexivity].
  - rewrite seq_S, fold_left_app. cbn [fold_left Nat.add].
    rewrite memory_byte_array_set, IH. clear IH.
    replace (Z.to_nat (offset + Z.of_nat n))
      with (Z.to_nat offset + n)%nat by lia.
    replace (Z.to_nat (valOffset + Z.of_nat n))
      with (Z.to_nat valOffset + n)%nat by lia.
    destruct (decide (j = (Z.to_nat offset + n)%nat)) as [-> | Hne].
    + destruct (decide _); [| lia].
      replace (Z.to_nat offset + n - Z.to_nat offset)%nat with n by lia.
      reflexivity.
    + destruct (decide (Z.to_nat offset <= j < Z.to_nat offset + n)%nat),
               (decide (Z.to_nat offset <= j < Z.to_nat offset + S n)%nat);
        try lia; reflexivity.
Qed.

Lemma copy_loop_byte_Z (mem : list (option Z)) (val : Buffer)
    (offset valOffset len : Z) (j : nat) :
  0 <= offset -> 0 <= valOffset -> 0 <= len ->
  memory_byte (copy_loop mem offset val valOffset len) j =
    if decide (Z.to_nat offset <= j < Z.to_nat offset + Z.to_nat len)%nat
    then default 0 (val !! (Z.to_nat valOffset + (j - Z.to_nat offset))%nat)
    else memory_byte mem j.
Proof.
  intros Hoff Hval Hlen.
  rewrite <- (Z2Nat.id len) at 1 by lia. apply copy_loop_byte; lia.
Qed.

(** [memLoad] returns [length] bytes, the bytes of the memory from
    [offset] on. *)
Lemma memLoad_bytes (env : Env) (offset length : Z) (st st' : RunState)
    (b : Buffer) :
  0 <= offset -> 0 <= length ->
  memLoad env offset length st = (Ok b, st') ->
  List.length b = Z.to_nat length /\
  forall k, (k < Z.to_nat length)%nat ->
    b !! k = Some (memory_byte (memory st') (Z.to_nat offset + k)).
Proof.
  intros Hoff Hlen. rewrite memLoad_run.
  destruct (subMemUsage env offset length st) as [[[] | e] st1];
    [| discriminate].
  intros H; inversion H; subst st' b; clear H.
  unfold Buffer_of_array, slice.
  replace (offset + length - offset) with length by lia.
  set (sl := take (Z.to_nat length) (drop (Z.to_nat offset) (memory st1))).
  assert (Hsl : (List.length sl <= Z.to_nat length)%nat).
  { unfold sl. rewrite length_take. lia. }
  split.
  - rewrite length_fmap, length_app, length_replicate. lia.
  - intros k Hk. rewrite list_lookup_fmap. unfold memory_byte.
    destruct (Nat.lt_ge_cases k (List.length sl)) as [Hin | Hout].
    + rewrite lookup_app_l by lia. unfold sl.
      rewrite lookup_take_lt by lia. rewrite lookup_drop.
      unfold sl in Hin. rewrite length_take, length_drop in Hin.
      destruct (lookup_lt_is_Some_2 (memory st1) (Z.to_nat offset + k)
                  ltac:(lia)) as [x Hx].
      rewrite Hx. destruct x; reflexivity.
    + rewrite lookup_app_r by lia.
      rewrite lookup_replicate_2 by lia. cbn.
      unfold sl in Hout. rewrite length_take, length_drop in Hout.
      rewrite (lookup_ge_None_2 (memory st1)) by lia. reflexivity.
Qed.

(** ** memStore, CALLDATACOPY, CODECOPY *)

Lemma memStore_run (env : Env) (offset valOffset length : Z) (val : Buffer)
    (st : RunState) :
  memStore env offset val valOffset length None st =
    match subMemUsage env offset length st with
    | (Ok _, st1) =>
        (Ok tt,
         set_memory (copy_loop (memory st1) offset val valOffset length) st1)
    | (Throw e, st1) => (Throw e, st1)
    end.
Proof.
  unfold memStore. unfold_vm.
  destruct (subMemUsage env offset length st) as [[[] | e] st1];
    reflexivity.
Qed.




(** ** makeCall and the call handlers, when the call is refused *)

Lemma billed_explicit (st st' : RunState) :
  billed st st' ->
  exists w g h,
    st' = set_highestMemCost h (set_gasLeft g (set_memoryWordCount w st)).
Proof. intros H. eauto. Qed.

Section Refused.

Variable env : Env.

(** The frame once [makeCall] has refused: 0 on the stack, the callback
    called without error or result. *)
Lemma makeCall_refuses (o : CallOptions) (lo : LocalOpts) (st : RunState) :
  call_guard env st (co_delegatecall o) (co_value o) = true ->
  makeCall env o lo st =
    (Ok tt,
     set_trace (trace st ++ [Callback None None])
       (set_stack (stack st ++ [0]) st)).
Proof.
  unfold call_guard, makeCall. intros Hguard.
  unfold bind at 1. unfold get at 1. cbv beta iota.
  cbn [co_delegatecall co_value]. rewrite Hguard.
  unfold_vm. reflexivity.
Qed.

Lemma CREATE_refused (value offset length : Buffer) (st : RunState) :
  call_guard env st false (bufferToBN value) = true ->
  CREATE env value offset length st =
    match memLoad env (bufferToInt offset) (bufferToInt length) st with
    | (Ok _, st1) =>
        (Ok tt,
         set_trace (trace st1 ++ [Callback None None])
           (set_stack (stack st1 ++ [0]) st1))
    | (Throw e, st1) => (Throw e, st1)
    end.
Proof.
  intros Hguard. unfold CREATE. unfold bind at 1.
  rewrite checkCallMemCost_run. cbn [inOffset inLength out].
  pose proof (memLoad_billed env (bufferToInt offset) (bufferToInt length) st)
    as Hb.
  destruct (memLoad env (bufferToInt offset) (bufferToInt length) st)
    as [[data | e] st1]; [| reflexivity].
  cbn [snd] in Hb. unfold bind. rewrite checkOutOfGas_run.
  apply makeCall_refuses.
  rewrite Hb. unfold call_guard in *. cbn.
  destruct (_ >? _); cbn; exact Hguard.
Qed.

(** Closes a [refusal] goal whose final state and result are explicit. *)
Ltac close_refusal :=
  unfold refusal;
  cbn [trace stack gasLeft highestMemCost set_trace set_stack set_gasLeft
       set_highestMemCost set_memoryWordCount set_contract];
  first
    [ exists []; split; [symmetry; apply app_nil_r |]
    | eexists; split; [rewrite <- ?app_assoc; cbn [app]; reflexivity |] ];
  (split; [reflexivity |]);
  intros Hok Herr; try discriminate Hok; try discriminate Herr;
  (split; [reflexivity |]); (split; [reflexivity |]);
  try lia.

Lemma CREATE_refusal (value offset length : Buffer) (st st' : RunState)
    (r : Result unit) :
  call_guard env st false (bufferToBN value) = true ->
  CREATE env value offset length st = (r, st') ->
  refusal stays_inside [] 0 st r st'.
Proof.
  intros Hguard. rewrite (CREATE_refused _ _ _ _ Hguard).
  pose proof (memLoad_billed env (bufferToInt offset) (bufferToInt length) st)
    as Hb.
  destruct (memLoad env (bufferToInt offset) (bufferToInt length) st)
    as [[data | e] st1] eqn:Eload; cbn [snd] in Hb;
    intros H; inversion H; subst r st'; clear H;
    apply billed_explicit in Hb; destruct Hb as (w1 & g1 & h1 & Hst1).
  - destruct (memLoad_paid env _ _ _ _ _ Eload) as [Hpaid _].
    subst st1. cbn in Hpaid. close_refusal.
  - subst st1. close_refusal.
Qed.

(** What [memLoad] and [checkCallMemCost] can do to a frame. *)
Lemma memLoad_cases (offset length : Z) (st : RunState) :
  exists w g h,
    let st1 :=
      set_highestMemCost h (set_gasLeft g (set_memoryWordCount w st)) in
    (exists e, memLoad env offset length st = (Throw e, st1)) \/
    (exists data,
       memLoad env offset length st = (Ok data, st1) /\
       gasLeft st - g = h - highestMemCost st).
Proof.
  pose proof (memLoad_billed env offset length st) as Hb.
  apply billed_explicit in Hb. destruct Hb as (w & g & h & Hst1).
  exists w, g, h. cbv zeta.
  destruct (memLoad env offset length st) as [[data | e] st1] eqn:Eload;
    cbn [snd] in Hst1.
  - right. exists data. split; [congruence |].
    destruct (memLoad_paid env _ _ _ _ _ Eload) as [Hpaid _].
    rewrite Hst1 in Hpaid. exact Hpaid.
  - left. exists e. congruence.
Qed.

Lemma checkCallMemCost_cases (o : CallOptions) (lo : LocalOpts)
    (st : RunState) :
  exists w g h,
    let st1 :=
      set_highestMemCost h (set_gasLeft g (set_memoryWordCount w st)) in
    (exists e, checkCallMemCost env o lo st = (Throw e, st1)) \/
    (exists data,
       checkCallMemCost env o lo st =
         (Ok (set_co_gasLimit (Some (default g (co_gasLimit o)))
                (set_co_data (Some data) o)), st1) /\
       gasLeft st - g = h - highestMemCost st).
Proof.
  pose proof (checkCallMemCost_billed env o lo st) as Hb.
  apply billed_explicit in Hb. destruct Hb as (w & g & h & Hst1).
  exists w, g, h. cbv zeta.
  destruct (checkCallMemCost env o lo st) as [[o1 | e] st1] eqn:Emem;
    cbn [snd] in Hst1.
  - right.
    destruct (checkCallMemCost_ok env _ _ _ _ _ Emem)
      as ([data Ho1] & Hpaid & _).
    exists data. rewrite Hst1 in Ho1, Hpaid. cbn in Ho1, Hpaid.
    split; [congruence | exact Hpaid].
  - left. exists e. congruence.
Qed.

Lemma loadCodeAndCall_refusal (lookups : list Event) (charge : Z)
    (toAddress : Buffer) (o : CallOptions) (lo : LocalOpts)
    (st0 st st' : RunState) (r : Result unit) :
  call_guard env st (co_delegatecall o) (co_value o) = true ->
  stack st = stack st0 ->
  trace st = trace st0 ++ lookups ->
  forallb reads_only lookups = true ->
  existsb is_error_callback lookups = false ->
  gasLeft st0 - gasLeft st =
    (highestMemCost st - highestMemCost st0) + charge ->
  loadCodeAndCall env toAddress o lo st = (r, st') ->
  refusal reads_only
    (lookups ++
     if isPrecompiled env toAddress then []
     else [SmGetContractCode toAddress])
    charge st0 r st'.
Proof.
  intros Hguard Hstack Htrace Hreads Hnoerr Hgas.
  unfold loadCodeAndCall.
  destruct (isPrecompiled env toAddress).
  - rewrite makeCall_refuses by exact Hguard.
    intros H; inversion H; subst r st'; clear H.
    unfold refusal. cbn. rewrite Htrace, Hstack, app_nil_r.
    exists (lookups ++ [Callback None None]).
    rewrite <- app_assoc, forallb_app, Hreads.
    split; [reflexivity |]. split; [reflexivity |].
    intros _ _. split; [reflexivity |]. split; [reflexivity | exact Hgas].
  - step_vm.
    destruct (getContractCode env toAddress) as [[e |] [code compiled]];
      step_vm.
    + intros H; inversion H; subst r st'; clear H.
      unfold refusal. cbn. rewrite Htrace.
      exists (lookups ++ [SmGetContractCode toAddress;
                          Callback (Some (OfStateManager e)) None]).
      rewrite <- !app_assoc, forallb_app, existsb_app, Hreads.
      split; [reflexivity |]. split; [reflexivity |].
      intros _ Herr. rewrite orb_true_r in Herr. discriminate.
    + rewrite makeCall_refuses by exact Hguard.
      intros H; inversion H; subst r st'; clear H.
      unfold refusal. cbn. rewrite Htrace, Hstack.
      exists (lookups ++ [SmGetContractCode toAddress; Callback None None]).
      rewrite <- !app_assoc, forallb_app, Hreads.
      split; [reflexivity |]. split; [reflexivity |].
      intros _ _. split; [reflexivity |].
      split; [rewrite <- ?app_assoc; reflexivity | exact Hgas].
Qed.

Lemma CALLCODE_refusal (gas toAddress value inOffset inLength outOffset
    outLength : Buffer) (st st' : RunState) (r : Result unit) :
  let to := setLengthLeft toAddress 20 in
  let v := bufferToBN value in
  call_guard env st false v = true ->
  CALLCODE env gas toAddress value inOffset inLength outOffset outLength st
    = (r, st') ->
  refusal reads_only
    (if isPrecompiled env to then [] else [SmGetContractCode to])
    (if v =? 0 then 0
     else callValueTransferGas (fees env) - callStipend (fees env))
    st r st'.
Proof.
  intros to v Hguard. unfold CALLCODE. fold to. fold v.
  unfold addStipend, BN.isZero. step_vm.
  destruct (Z.eqb_spec v 0) as [Hv | Hv]; cbn [negb].
  - match goal with
    | |- context [checkCallMemCost env ?o ?lo st] =>
        destruct (checkCallMemCost_cases o lo st)
          as (w & g & h & [[e He] | (data & He & Hpaid)]);
        rewrite He; clear He
    end.
    + intros Hrun; inversion Hrun; subst r st'. close_refusal.
    + rewrite checkOutOfGas_run. cbv beta iota.
      apply (loadCodeAndCall_refusal []).
      * unfold call_guard in *. cbn. destruct (_ >? _); cbn; exact Hguard.
      * reflexivity.
      * cbn. symmetry. apply app_nil_r.
      * reflexivity.
      * reflexivity.
      * cbn. lia.
  - rewrite subGas_run.
    destruct (Z.ltb_spec (gasLeft st - callValueTransferGas (fees env)) 0).
    + intros Hrun; inversion Hrun; subst r st'. close_refusal.
    + match goal with
      | |- context [checkCallMemCost env ?o ?lo ?s] =>
          destruct (checkCallMemCost_cases o lo s)
            as (w & g & h & [[e He] | (data & He & Hpaid)]);
          rewrite He; clear He
      end.
      * intros Hrun; inversion Hrun; subst r st'. close_refusal.
      * rewrite checkOutOfGas_run. cbv beta iota.
        apply (loadCodeAndCall_refusal []).
        -- unfold call_guard in *. cbn. destruct (_ >? _); cbn; exact Hguard.
        -- reflexivity.
        -- cbn. symmetry. apply app_nil_r.
        -- reflexivity.
        -- reflexivity.
        -- cbn in *. lia.
Qed.

Lemma DELEGATECALL_refusal (gas toAddress inOffset inLength outOffset
    outLength : Buffer) (st st' : RunState) (r : Result unit) :
  let to := setLengthLeft toAddress 20 in
  call_guard env st true (callValue st) = true ->
  DELEGATECALL env gas toAddress inOffset inLength outOffset outLength st
    = (r, st') ->
  refusal reads_only
    (SmGetAccount to ::
     if isPrecompiled env to then [] else [SmGetContractCode to])
    0 st r st'.
Proof.
  intros to Hguard. unfold DELEGATECALL. fold to. step_vm.
  match goal with
  | |- context [checkCallMemCost env ?o ?lo st] =>
      destruct (checkCallMemCost_cases o lo st)
        as (w & g & h & [[e He] | (data & He & Hpaid)]);
      rewrite He; clear He
  end.
  - intros Hrun; inversion Hrun; subst r st'. close_refusal.
  - rewrite checkOutOfGas_run. cbv beta iota.
    destruct (getAccount env to) as [[e |] account]; cbv beta iota.
    + intros Hrun; inversion Hrun; subst r st'.
      unfold refusal. cbn.
      exists [SmGetAccount to; Callback (Some (OfStateManager e)) None].
      rewrite <- app_assoc.
      split; [reflexivity |]. split; [reflexivity |].
      intros _ Herr. discriminate.
    + apply (loadCodeAndCall_refusal [SmGetAccount to]).
      * unfold call_guard in *. cbn. destruct (_ >? _); cbn; exact Hguard.
      * reflexivity.
      * reflexivity.
      * reflexivity.
      * reflexivity.
      * cbn. lia.
Qed.

(** One step of CALL on the path to [makeCall]: the next helper is run
    by its equation, a test is decided both ways. *)
Ltac call_step Hguard :=
  match goal with
  | |- context [memLoad env ?off ?len ?s] =>
      let e := fresh "e" in
      let He := fresh "He" in
      let Hpaid := fresh "Hpaid" in
      destruct (memLoad_cases off len s)
        as (? & ? & ? & [[e He] | (? & He & Hpaid)]);
      rewrite He; clear He
  | |- context [subGas ?a ?s] =>
      rewrite (subGas_run a s);
      let Hg := fresh "Hg" in
      destruct (Z.ltb_spec (gasLeft s - a) 0) as [Hg | Hg]
  | |- context [checkCallMemCost env ?o ?lo ?s] =>
      let e := fresh "e" in
      let He := fresh "He" in
      let Hpaid := fresh "Hpaid" in
      destruct (checkCallMemCost_cases o lo s)
        as (? & ? & ? & [[e He] | (? & He & Hpaid)]);
      rewrite He; clear He
  | |- context [checkOutOfGas ?o ?s] => rewrite (checkOutOfGas_run o s)
  | |- context [makeCall env ?o ?lo ?s] =>
      rewrite (makeCall_refuses o lo s)
        by (unfold call_guard in *; cbn; try destruct (_ >? _); cbn;
            exact Hguard)
  end;
  cbv beta iota.

Ltac call_leaf :=
  let Hrun := fresh "Hrun" in
  intros Hrun; inversion Hrun; subst; clear Hrun;
  unfold refusal;
  cbn [trace stack gasLeft highestMemCost set_trace set_stack set_gasLeft
       set_highestMemCost set_memoryWordCount set_contract];
  first
    [ exists []; split; [symmetry; apply app_nil_r |]
    | eexists; split; [rewrite <- ?app_assoc; cbn [app]; reflexivity |] ];
  (split; [reflexivity |]);
  let Hok := fresh "Hok" in
  let Herr := fresh "Herr" in
  intros Hok Herr; try discriminate Hok; try discriminate Herr;
  (split; [reflexivity |]); (split; [reflexivity |]);
  cbn in *; lia.

Lemma CALL_refusal (gasLimit toAddress value inOffset inLength outOffset
    outLength : Buffer) (st st' : RunState) (r : Result unit) :
  let to := setLengthLeft toAddress 20 in
  let v := bufferToBN value in
  call_guard env st false v = true ->
  CALL env gasLimit toAddress value inOffset inLength outOffset outLength st
    = (r, st') ->
  refusal reads_only [SmExists to; SmAccountIsEmpty to]
    (if v =? 0 then 0
     else callValueTransferGas (fees env)
          + (if negb (snd (sm_exists env to)) || snd (accountIsEmpty env to)
             then callNewAccountGas (fees env) else 0)
          - callStipend (fees env))
    st r st'.
Proof.
  intros to v Hguard. unfold CALL. fold to. fold v.
  unfold addStipend, BN.isZero. step_vm.
  call_step Hguard; [call_leaf |].
  destruct (Z.eqb_spec v 0) as [Hv | Hv]; cbn [negb].
  - destruct (sm_exists env to) as [[e |] ex]; cbv beta iota;
      [call_leaf |].
    destruct (accountIsEmpty env to) as [[e |] empty];
      rewrite andb_false_r; cbv beta iota;
      repeat first [call_leaf | call_step Hguard].
  - call_step Hguard; [call_leaf |].
    destruct (sm_exists env to) as [[e |] ex]; cbv beta iota;
      [call_leaf |].
    destruct (accountIsEmpty env to) as [[e |] empty];
      rewrite andb_true_r; destruct ex, empty; cbn [negb orb snd];
      cbv beta iota; repeat first [call_leaf | call_step Hguard].
Qed.

End Refused.

Lemma call_guard_true (env : Env) (st : RunState) (delegatecall : bool)
    (value : BN.BN) :
  call_guard env st delegatecall value = true <->
  stackLimit (fees env) <= depth st \/
  (delegatecall = false /\ balance (contract st) < value).
Proof.
  unfold call_guard.
  rewrite orb_true_iff, andb_true_iff, negb_true_iff, Z.geb_le, Z.ltb_lt.
  tauto.
Qed.

(** C5, as the specification has it, fails: a CALL of value 1 at depth
    1024, with zero-length input and output, does push 0 and leaves the
    runner alone, but it asks the state manager whether the target exists
    and whether it is empty, and with no memory to pay for it spends
    [callValueTransferGas - callStipend = 6700] gas. *)
Lemma CALL_at_depth_limit_looks_up_and_charges :
  let env := Fixtures.world [] in
  let st := Fixtures.at_depth 1024 10 (Fixtures.new_frame [] [] 100000) in
  let st' := snd (CALL env [0] [9] [1] [0] [0] [0] [0] st) in
  let to := setLengthLeft [9] 20 in
  stack st' = stack st ++ [0] /\
  filter (fun e => is_state_manager_call e = true) (trace st') =
    [SmExists to; SmAccountIsEmpty to] /\
  highestMemCost st' = highestMemCost st /\
  gasLeft st - gasLeft st' = 6700.
Proof. vm_compute. repeat split; reflexivity. Qed.

(** C5, amended. A CREATE, CALL, CALLCODE or DELEGATECALL at a depth of
    [stackLimit] (1024) or more, and a CREATE, CALL or CALLCODE whose
    value exceeds the balance of the current contract, never invokes the
    child-frame runner and never writes to the state manager; when it
    neither traps in its own billing nor is failed by a state-manager
    lookup, it pushes 0 onto the stack and calls back once, without error.
    CREATE then has made no state-manager call and has spent no gas beyond
    its memory bills.  CALL has asked the state manager whether the target
    exists and whether it is empty; CALLCODE has loaded the code of a
    target that is not precompiled; DELEGATECALL has loaded the target's
    account and, if not precompiled, its code.  DELEGATECALL, and CALL and
    CALLCODE of value zero, have spent no gas beyond their memory bills; a
    CALL or CALLCODE of non-zero value has also been charged
    [callValueTransferGas], CALL [callNewAccountGas] as well for a target
    that does not exist or is empty, and has been credited [callStipend]. *)
Theorem refused_call_pushes_zero (env : Env) (st : RunState) :
  (forall value offset length r st',
     stackLimit (fees env) <= depth st \/
     balance (contract st) < bufferToBN value ->
     CREATE env value offset length st = (r, st') ->
     refusal stays_inside [] 0 st r st') /\
  (forall gasLimit toAddress value inOffset inLength outOffset outLength
          r st',
     let to := setLengthLeft toAddress 20 in
     let v := bufferToBN value in
     stackLimit (fees env) <= depth st \/ balance (contract st) < v ->
     CALL env gasLimit toAddress value inOffset inLength outOffset
       outLength st = (r, st') ->
     refusal reads_only [SmExists to; SmAccountIsEmpty to]
       (if v =? 0 then 0
        else callValueTransferGas (fees env)
             + (if negb (snd (sm_exists env to))
                   || snd (accountIsEmpty env to)
                then callNewAccountGas (fees env) else 0)
             - callStipend (fees env))
       st r st') /\
  (forall gas toAddress value inOffset inLength outOffset outLength r st',
     let to := setLengthLeft toAddress 20 in
     let v := bufferToBN value in
     stackLimit (fees env) <= depth st \/ balance (contract st) < v ->
     CALLCODE env gas toAddress value inOffset inLength outOffset
       outLength st = (r, st') ->
     refusal reads_only
       (if isPrecompiled env to then [] else [SmGetContractCode to])
       (if v =? 0 then 0
        else callValueTransferGas (fees env) - callStipend (fees env))
       st r st') /\
  (forall gas toAddress inOffset inLength outOffset outLength r st',
     let to := setLengthLeft toAddress 20 in
     stackLimit (fees env) <= depth st ->
     DELEGATECALL env gas toAddress inOffset inLength outOffset
       outLength st = (r, st') ->
     refusal reads_only
       (SmGetAccount to ::
        if isPrecompiled env to then [] else [SmGetContractCode to])
       0 st r st').
Proof.
  split; [| split; [| split]].
  - intros value offset length r st' Hguard.
    apply CREATE_refusal. apply call_guard_true. tauto.
  - intros gasLimit toAddress value inOffset inLength outOffset outLength
      r st' to v Hguard.
    apply CALL_refusal. apply call_guard_true. tauto.
  - intros gas toAddress value inOffset inLength outOffset outLength
      r st' to v Hguard.
    apply CALLCODE_refusal. apply call_guard_true. tauto.
  - intros gas toAddress inOffset inLength outOffset outLength r st' to
      Hguard.
    apply DELEGATECALL_refusal. apply call_guard_true. tauto.
Qed.

(** The specification's sixth scenario, for CREATE: at depth 1024 it pushes
    0, calls nothing outside the frame and spends no gas. *)
Lemma refused_call_pushes_zero_witness :
  let env := Fixtures.world [] in
  let st := Fixtures.at_depth 1024 0 (Fixtures.new_frame [] [] 100000) in
  let st' := snd (CREATE env [0] [0] [0] st) in
  stack st' = stack st ++ [0] /\
  trace st' = trace st ++ [Callback None None] /\
  gasLeft st - gasLeft st' = highestMemCost st' - highestMemCost st.
Proof.
  intros env st st'.
  destruct (CREATE env [0] [0] [0] st) as [r st1] eqn:Erun.
  assert (Hr : r = Ok tt) by (vm_compute in Erun; congruence).
  assert (Hguard : stackLimit (fees env) <= depth st \/
                   balance (contract st) < bufferToBN [0])
    by (left; vm_compute; congruence).
  destruct (refused_call_pushes_zero env st) as [Hcreate _].
  destruct (Hcreate [0] [0] [0] r st1 Hguard Erun)
    as (events & Htrace & _ & Hok).
  assert (Hnoerr : existsb is_error_callback events = false).
  { assert (Hev : events = [Callback None None]).
    { vm_compute in Erun. inversion Erun; subst st1.
      cbn in Htrace. symmetry. exact Htrace. }
    rewrite Hev. reflexivity. }
  destruct (Hok Hr Hnoerr) as (Hstack & Hev & Hgas).
  subst st'. cbn [snd]. rewrite Htrace, Hev.
  split; [exact Hstack |]. split; [reflexivity |]. lia.
Defined.

(** ** The handlers run the gas cap *)

Lemma bind_assoc {A B C : Type} (m : M A) (f : A -> M B) (g : B -> M C)
    (st : RunState) :
  bind (bind m f) g st = bind m (fun x => bind (f x) g) st.
Proof. unfold bind. destruct (m st) as [[a | e] st']; reflexivity. Qed.

(** CREATE hands [makeCall] the options that [checkCallMemCost] and
    [checkOutOfGas] have capped. *)
Lemma CREATE_through_cap (env : Env) (value offset length : Buffer)
    (st : RunState) :
  CREATE env value offset length st =
    (capped <-
       (options <-
          checkCallMemCost env
            (call_options None (bufferToBN value) None None None false)
            {| inOffset := bufferToInt offset;
               inLength := bufferToInt length; out := None |} ;;
        checkOutOfGas options) ;;
     makeCall env capped
       {| inOffset := bufferToInt offset; inLength := bufferToInt length;
          out := None |}) st.
Proof. unfold CREATE. rewrite bind_assoc. reflexivity. Qed.

(** CALLCODE and DELEGATECALL cap the options in the same way, CALLCODE
    before it adds the stipend; CALL runs the same two helpers inside its
    [try]. *)
Lemma CALLCODE_through_cap (env : Env) (gas toAddress value inOffset inLength
    outOffset outLength : Buffer) (st : RunState) :
  let lo :=
    {| inOffset := bufferToInt inOffset; inLength := bufferToInt inLength;
       out := Some (bufferToInt outOffset, bufferToInt outLength) |} in
  let o :=
    call_options (Some (bufferToBN gas)) (bufferToBN value)
      (Some (address st)) None None false in
  CALLCODE env gas toAddress value inOffset inLength outOffset outLength st =
    (when (negb (BN.isZero (bufferToBN value)))
          (subGas (callValueTransferGas (fees env))) ;;
     capped <- (options <- checkCallMemCost env o lo ;;
                checkOutOfGas options) ;;
     options <- addStipend env (bufferToBN value) capped ;;
     loadCodeAndCall env (setLengthLeft toAddress 20) options lo) st.
Proof.
  intros lo o. unfold CALLCODE. fold lo.
  unfold bind at 1. unfold get at 1. cbv beta iota. fold o.
  unfold bind at 1 5.
  destruct (when _ _ st) as [[[] | e] st1]; [| reflexivity].
  rewrite bind_assoc. reflexivity.
Qed.

Lemma DELEGATECALL_through_cap (env : Env) (gas toAddress inOffset inLength
    outOffset outLength : Buffer) (st : RunState) :
  let lo :=
    {| inOffset := bufferToInt inOffset; inLength := bufferToInt inLength;
       out := Some (bufferToInt outOffset, bufferToInt outLength) |} in
  let o :=
    call_options (Some (bufferToBN gas)) (callValue st)
      (Some (address st)) None (Some (caller st)) true in
  let to := setLengthLeft toAddress 20 in
  DELEGATECALL env gas toAddress inOffset inLength outOffset outLength st =
    (capped <- (options <- checkCallMemCost env o lo ;;
                checkOutOfGas options) ;;
     emit (SmGetAccount to) ;;
     let '(err, account) := getAccount env to in
     match err with
     | Some e => callback (Some (OfStateManager e)) None
     | None => loadCodeAndCall env to capped lo
     end) st.
Proof.
  intros lo o to. unfold DELEGATECALL. fold lo. fold to.
  unfold bind at 1. unfold get at 1. cbv beta iota. fold o.
  rewrite bind_assoc. reflexivity.
Qed.

(** The child frame that [makeCall] starts gets the gas limit and the
    value of the options it was handed. *)
Lemma makeCall_child_options (env : Env) (o o' : CallOptions)
    (lo : LocalOpts) (st : RunState) :
  In (VmRunCall o') (trace (snd (makeCall env o lo st))) ->
  In (VmRunCall o') (trace st) \/
  (co_gasLimit o' = co_gasLimit o /\ co_value o' = co_value o).
Proof.
  unfold makeCall, parseCallResults. step_vm.
  destruct (_ || _).
  - cbn. rewrite in_app_iff. cbn. intros [H | [H | []]];
      [auto | discriminate].
  - destruct (runCall env _) as [err [used created [lg rf ex rt exn ca]]].
    cbn [vm vm_logs vm_gasRefund vm_exceptionError vm_return vm_exception
         vm_createdAddress gasUsed createdAddress].
    destruct (co_to o), lg, rf, ex, rt, (out lo) as [[? ?] |], created, ca;
      cbn; try destruct (getAccount env (address st));
      cbn; rewrite ?in_app_iff; cbn;
      intros H;
      repeat match goal with
             | H : _ \/ _ |- _ => destruct H
             | H : False |- _ => destruct H
             | H : _ = VmRunCall _ |- _ => inversion H; subst; clear H
             end; auto.
Qed.

(** ** Numbers as byte arrays *)

Lemma bufferToBN_snoc (l : Buffer) (x : Z) :
  bufferToBN (l ++ [x]) = bufferToBN l * 256 + x.
Proof. rewrite bufferToBN_app. reflexivity. Qed.

Lemma be_bytes_length (n : nat) (x : Z) : length (be_bytes n x) = n.
Proof.
  revert x. induction n as [| n IH]; intros x; [reflexivity |].
  cbn [be_bytes]. rewrite length_app, IH. simpl. lia.
Qed.

Lemma be_bytes_is_bytes (n : nat) (x : Z) : is_bytes (be_bytes n x).
Proof.
  revert x. induction n as [| n IH]; intros x; [constructor |].
  cbn [be_bytes]. apply Forall_app. split; [apply IH |].
  constructor; [| constructor]. apply Z.mod_pos_bound. lia.
Qed.

Lemma bufferToBN_be_bytes (n : nat) (x : Z) :
  bufferToBN (be_bytes n x) = x mod 256 ^ Z.of_nat n.
Proof.
  revert x. induction n as [| n IH]; intros x.
  - simpl. rewrite Z.mod_1_r. reflexivity.
  - cbn [be_bytes]. rewrite bufferToBN_snoc, IH.
    rewrite Nat2Z.inj_succ, Z.pow_succ_r by lia.
    assert (Hp : 0 < 256 ^ Z.of_nat n) by (apply Z.pow_pos_nonneg; lia).
    rewrite Z.rem_mul_r by lia. lia.
Qed.

Lemma bufferToBN_bound (l : Buffer) :
  is_bytes l -> 0 <= bufferToBN l < 256 ^ Z.of_nat (length l).
Proof.
  induction 1 as [| x l Hx _ IH].
  - cbn. lia.
  - rewrite bufferToBN_cons. cbn [length].
    rewrite Nat2Z.inj_succ, Z.pow_succ_r by lia. nia.
Qed.

Lemma byteLength_bound (x : Z) :
  0 <= x -> x < 256 ^ Z.of_nat (Nat.max 1 (BN_byteLength x)).
Proof.
  intros Hx. unfold BN_byteLength.
  destruct (Z.eqb_spec x 0) as [-> | Hnz]; [reflexivity |].
  rewrite Z.abs_eq by lia.
  assert (Hl : 0 <= Z.log2 x) by apply Z.log2_nonneg.
  assert (Hq : 0 <= Z.log2 x / 8) by (apply Z.div_pos; lia).
  rewrite Nat.max_r by lia. rewrite Z2Nat.id by lia.
  change 256 with (2 ^ 8). rewrite <- Z.pow_mul_r by lia.
  apply Z.lt_le_trans with (2 ^ Z.succ (Z.log2 x)).
  - apply Z.log2_spec. lia.
  - apply Z.pow_le_mono_r; [lia |].
    pose proof (Z.mul_succ_div_gt (Z.log2 x) 8 ltac:(lia)). lia.
Qed.

Lemma BN_toArray_value (x : Z) :
  0 <= x -> bufferToBN (BN_toArray x None) = x.
Proof.
  intros Hx. unfold BN_toArray. rewrite Z.abs_eq by lia.
  rewrite bufferToBN_be_bytes. apply Z.mod_small.
  split; [lia | apply byteLength_bound; lia].
Qed.

Lemma BN_toArray_32 (x : Z) :
  is_word x ->
  bufferToBN (BN_toArray x (Some 32%nat)) = x /\
  length (BN_toArray x (Some 32%nat)) = 32%nat /\
  is_bytes (BN_toArray x (Some 32%nat)).
Proof.
  unfold is_word, TWO_POW256. intros Hx. unfold BN_toArray.
  rewrite Z.abs_eq by lia.
  split; [| split; [apply be_bytes_length | apply be_bytes_is_bytes]].
  rewrite bufferToBN_be_bytes. apply Z.mod_small.
  change (256 ^ Z.of_nat 32) with (2 ^ 256). lia.
Qed.

(** ** Arithmetic on words *)

Lemma BN_mod_nonneg (a m : Z) : 0 <= a -> 0 < m -> BN_mod a m = a mod m.
Proof. intros Ha Hm. unfold BN_mod. apply Z.rem_mod_nonneg; lia. Qed.

Lemma word_mod (x : Z) : is_word (x mod TWO_POW256).
Proof. apply Z.mod_pos_bound. reflexivity. Qed.

Lemma ADD_mod (a b : Z) :
  is_word a -> is_word b -> ADD a b = (a + b) mod TWO_POW256.
Proof.
  unfold is_word, ADD. intros Ha Hb. apply BN_mod_nonneg; [lia | reflexivity].
Qed.

Lemma MUL_mod (a b : Z) :
  is_word a -> is_word b -> MUL a b = (a * b) mod TWO_POW256.
Proof.
  unfold is_word, MUL. intros Ha Hb. apply BN_mod_nonneg; [nia | reflexivity].
Qed.

Lemma SUB_mod (a b : Z) :
  is_word a -> is_word b -> SUB a b = (a - b) mod TWO_POW256.
Proof.
  unfold is_word, SUB. intros Ha Hb.
  rewrite toTwos_unsigned by lia. reflexivity.
Qed.

Lemma bitwise_word (f : Z -> Z -> Z) (a b : Z) :
  (forall n, Z.testbit (f a b) n = false \/ ~ (Z.testbit a n = false /\ Z.testbit b n = false)) ->
  0 <= f a b ->
  is_word a -> is_word b -> is_word (f a b).
Proof.
  unfold is_word, TWO_POW256. intros Hbits Hnn Ha Hb.
  split; [exact Hnn |].
  destruct (Z.eq_dec (f a b) 0) as [-> | Hnz]; [lia |].
  apply Z.log2_lt_pow2; [lia |].
  destruct (Z_lt_le_dec (Z.log2 (f a b)) 256) as [Hlt | Hge]; [exact Hlt |].
  exfalso.
  destruct (Hbits (Z.log2 (f a b))) as [H0 | H1].
  - rewrite Z.bit_log2 in H0 by lia. discriminate.
  - apply H1. split; apply Z.bits_above_log2; try lia.
    + destruct (Z.eq_dec a 0) as [-> | ?]; [cbn; lia |].
      assert (Z.log2 a < 256) by (apply Z.log2_lt_pow2; lia). lia.
    + destruct (Z.eq_dec b 0) as [-> | ?]; [cbn; lia |].
      assert (Z.log2 b < 256) by (apply Z.log2_lt_pow2; lia). lia.
Qed.

(** X1. Every arithmetic and bitwise handler that returns a number returns
    a word in [0, 2^256) when its operands are words. *)
Theorem word_ops_closed (a b : BN.BN) :
  is_word a -> is_word b ->
  is_word (ADD a b) /\ is_word (MUL a b) /\ is_word (SUB a b) /\
  is_word (DIV a b) /\ is_word (SDIV a b) /\ is_word (MOD a b) /\
  is_word (AND a b) /\ is_word (OR a b) /\ is_word (XOR a b) /\
  is_word (NOT a).
Proof.
  intros Ha Hb.
  assert (H0 : is_word 0) by (unfold is_word, TWO_POW256; lia).
  repeat match goal with |- _ /\ _ => split end.
  - rewrite ADD_mod by assumption. apply word_mod.
  - rewrite MUL_mod by assumption. apply word_mod.
  - rewrite SUB_mod by assumption. apply word_mod.
  - unfold DIV, BN.isZero, BN.div.
    destruct (Z.eqb_spec b 0); [exact H0 |].
    unfold is_word in *. rewrite Z.quot_div_nonneg by lia.
    split; [apply Z.div_pos; lia |].
    apply Z.le_lt_trans with a; [| lia].
    apply Z.div_le_upper_bound; nia.
  - rewrite SDIV_unsigned_dividend by assumption.
    destruct (signed b =? 0); [exact H0 | apply word_mod].
  - unfold MOD, BN.isZero, BN_mod.
    destruct (Z.eqb_spec b 0); [exact H0 |].
    unfold is_word in *. rewrite Z.rem_mod_nonneg by lia.
    pose proof (Z.mod_pos_bound a b ltac:(lia)). lia.
  - unfold AND. apply bitwise_word; try assumption.
    + intros n. rewrite Z.land_spec.
      destruct (Z.testbit a n), (Z.testbit b n); cbn; intuition congruence.
    + apply Z.land_nonneg. unfold is_word in *. lia.
  - unfold OR. apply bitwise_word; try assumption.
    + intros n. rewrite Z.lor_spec.
      destruct (Z.testbit a n), (Z.testbit b n); cbn; intuition congruence.
    + apply Z.lor_nonneg. unfold is_word in *. lia.
  - unfold XOR. apply bitwise_word; try assumption.
    + intros n. rewrite Z.lxor_spec.
      destruct (Z.testbit a n), (Z.testbit b n); cbn; intuition congruence.
    + apply Z.lxor_nonneg. unfold is_word in *. lia.
  - unfold NOT. unfold is_word, TWO_POW256 in *.
    rewrite notn_below by lia. lia.
Qed.

Lemma word_ops_closed_witness :
  is_word (ADD (TWO_POW256 - 1) 1) /\ is_word (SUB 0 1) /\ is_word (NOT 0).
Proof.
  assert (Ha : is_word (TWO_POW256 - 1)) by (unfold is_word, TWO_POW256; lia).
  assert (H1 : is_word 1) by (unfold is_word, TWO_POW256; lia).
  assert (H0 : is_word 0) by (unfold is_word, TWO_POW256; lia).
  split; [apply (word_ops_closed (TWO_POW256 - 1) 1 Ha H1) |].
  split; [apply (word_ops_closed 0 1 H0 H1) |].
  apply (word_ops_closed 0 1 H0 H1).
Defined.

(** X2. ADD, MUL and SUB compute modulo [2^256], and on words SUB undoes
    ADD and ADD undoes SUB. *)
Theorem ADD_SUB_wrap_and_cancel (a b : BN.BN) :
  is_word a -> is_word b ->
  ADD a b = (a + b) mod TWO_POW256 /\
  MUL a b = (a * b) mod TWO_POW256 /\
  SUB a b = (a - b) mod TWO_POW256 /\
  SUB (ADD a b) b = a /\
  ADD (SUB a b) b = a.
Proof.
  intros Ha Hb.
  split; [apply ADD_mod; assumption |].
  split; [apply MUL_mod; assumption |].
  split; [apply SUB_mod; assumption |].
  split.
  - rewrite SUB_mod, ADD_mod by
      (try assumption; rewrite ADD_mod by assumption; apply word_mod).
    rewrite Zminus_mod_idemp_l.
    replace (a + b - b) with a by lia.
    apply Z.mod_small. exact Ha.
  - rewrite ADD_mod, SUB_mod by
      (try assumption; rewrite SUB_mod by assumption; apply word_mod).
    rewrite Zplus_mod_idemp_l.
    replace (a - b + b) with a by lia.
    apply Z.mod_small. exact Ha.
Qed.

Lemma ADD_SUB_wrap_and_cancel_witness :
  ADD (TWO_POW256 - 1) 2 = 1 /\ SUB 1 2 = TWO_POW256 - 1 /\
  ADD (SUB 1 2) 2 = 1.
Proof.
  assert (Ha : is_word (TWO_POW256 - 1)) by (unfold is_word, TWO_POW256; lia).
  assert (H1 : is_word 1) by (unfold is_word, TWO_POW256; lia).
  assert (H2 : is_word 2) by (unfold is_word, TWO_POW256; lia).
  destruct (ADD_SUB_wrap_and_cancel (TWO_POW256 - 1) 2 Ha H2) as (Hadd & _).
  destruct (ADD_SUB_wrap_and_cancel 1 2 H1 H2) as (_ & _ & Hsub & _ & Hback).
  split; [rewrite Hadd; reflexivity |].
  split; [rewrite Hsub; reflexivity | exact Hback].
Defined.

(** X3. DIV and MOD by zero return 0; by a non-zero divisor they return the
    quotient and the remainder of the unsigned division:
    [a = b * DIV a b + MOD a b] with [0 <= MOD a b < b]. *)
Theorem DIV_MOD_division (a b : BN.BN) :
  is_word a -> is_word b ->
  (b = 0 -> DIV a b = 0 /\ MOD a b = 0) /\
  (b <> 0 ->
   DIV a b = a / b /\ MOD a b = a mod b /\
   a = b * DIV a b + MOD a b /\ 0 <= MOD a b < b).
Proof.
  unfold is_word, DIV, MOD, BN.isZero, BN.div, BN_mod. intros Ha Hb. split.
  - intros ->. split; reflexivity.
  - intros Hnz. apply Z.eqb_neq in Hnz. rewrite Hnz. apply Z.eqb_neq in Hnz.
    rewrite Z.quot_div_nonneg, Z.rem_mod_nonneg by lia.
    split; [reflexivity |]. split; [reflexivity |].
    split; [apply Z.div_mod; lia | apply Z.mod_pos_bound; lia].
Qed.

Lemma DIV_MOD_division_witness :
  DIV 7 0 = 0 /\ MOD 7 0 = 0 /\ DIV 7 2 = 3 /\ MOD 7 2 = 1.
Proof.
  assert (H7 : is_word 7) by (unfold is_word, TWO_POW256; lia).
  assert (H2 : is_word 2) by (unfold is_word, TWO_POW256; lia).
  assert (H0 : is_word 0) by (unfold is_word, TWO_POW256; lia).
  destruct (DIV_MOD_division 7 0 H7 H0) as [Hz _].
  destruct (DIV_MOD_division 7 2 H7 H2) as [_ Hnz].
  destruct (Hz eq_refl) as [Hd Hm].
  destruct (Hnz ltac:(lia)) as (Hq & Hr & _).
  repeat split; assumption.
Defined.

(** ** SMOD, ADDMOD, MULMOD, NOT *)

Lemma rem_by_magnitudes (a b : Z) :
  b <> 0 ->
  (if a <? 0 then - Z.rem (Z.abs a) (Z.abs b) else Z.rem (Z.abs a) (Z.abs b))
  = Z.rem a b.
Proof.
  intros Hb. rewrite Z.rem_abs_r by exact Hb.
  destruct (Z.ltb_spec a 0) as [Hneg | Hpos].
  - rewrite Z.abs_neq by lia. rewrite Z.rem_opp_l by exact Hb. lia.
  - rewrite Z.abs_eq by lia. reflexivity.
Qed.

(** X4. SMOD reads both operands as two's-complement numbers and returns
    the bytes of the word that encodes the remainder of the truncating
    division, whose sign is that of the dividend; for a zero divisor it
    returns the byte 0. *)
Theorem SMOD_sign_of_dividend (a b : BN.BN) :
  is_word a -> is_word b ->
  bufferToBN (SMOD a b) =
    (if signed b =? 0 then 0 else unsigned (Z.rem (signed a) (signed b))) /\
  is_bytes (SMOD a b).
Proof.
  intros Ha Hb. unfold SMOD, fromSigned, BN.isZero, BN_mod.
  rewrite !fromTwos_signed by assumption.
  destruct (Z.eqb_spec (signed b) 0) as [Hz | Hnz].
  - split; [reflexivity |]. repeat constructor; lia.
  - rewrite rem_by_magnitudes by exact Hnz.
    split; [| apply be_bytes_is_bytes].
    unfold toUnsigned.
    pose proof (signed_range b Hb) as Hsb.
    pose proof (Z.rem_bound_abs (signed a) (signed b) Hnz) as Hr.
    rewrite toTwos_unsigned by (rewrite two_pow256_half; lia).
    apply BN_toArray_value. apply Z.mod_pos_bound. reflexivity.
Qed.

Lemma SMOD_sign_of_dividend_witness :
  bufferToBN (SMOD (TWO_POW256 - 7) 3) = TWO_POW256 - 1 /\
  bufferToBN (SMOD 7 (TWO_POW256 - 3)) = 1 /\
  bufferToBN (SMOD 7 0) = 0.
Proof.
  assert (Hm7 : is_word (TWO_POW256 - 7)) by (unfold is_word, TWO_POW256; lia).
  assert (Hm3 : is_word (TWO_POW256 - 3)) by (unfold is_word, TWO_POW256; lia).
  assert (H7 : is_word 7) by (unfold is_word, TWO_POW256; lia).
  assert (H3 : is_word 3) by (unfold is_word, TWO_POW256; lia).
  assert (H0 : is_word 0) by (unfold is_word, TWO_POW256; lia).
  destruct (SMOD_sign_of_dividend (TWO_POW256 - 7) 3 Hm7 H3) as [E1 _].
  destruct (SMOD_sign_of_dividend 7 (TWO_POW256 - 3) H7 Hm3) as [E2 _].
  destruct (SMOD_sign_of_dividend 7 0 H7 H0) as [E3 _].
  split; [rewrite E1; reflexivity |].
  split; [rewrite E2; reflexivity | rewrite E3; reflexivity].
Defined.

(** X5. ADDMOD and MULMOD return the 32 bytes of [(a + b) mod c] and of
    [(a * b) mod c], the sum and the product taken in full, without the wrap
    at [2^256]; for a zero modulus they return the byte 0. *)
Theorem ADDMOD_MULMOD_no_wrap (a b c : BN.BN) :
  is_word a -> is_word b -> is_word c ->
  (c = 0 -> ADDMOD a b c = [0] /\ MULMOD a b c = [0]) /\
  (c <> 0 ->
   bufferToBN (ADDMOD a b c) = (a + b) mod c /\
   bufferToBN (MULMOD a b c) = (a * b) mod c /\
   length (ADDMOD a b c) = 32%nat /\ length (MULMOD a b c) = 32%nat).
Proof.
  unfold is_word. intros Ha Hb Hc. unfold ADDMOD, MULMOD, BN.isZero. split.
  - intros ->. split; reflexivity.
  - intros Hnz. apply Z.eqb_neq in Hnz. rewrite Hnz. apply Z.eqb_neq in Hnz.
    rewrite !BN_mod_nonneg by nia.
    pose proof (Z.mod_pos_bound (a + b) c ltac:(lia)) as Hs.
    pose proof (Z.mod_pos_bound (a * b) c ltac:(lia)) as Hp.
    destruct (BN_toArray_32 ((a + b) mod c)) as (Es & Ls & _);
      [unfold is_word; lia |].
    destruct (BN_toArray_32 ((a * b) mod c)) as (Ep & Lp & _);
      [unfold is_word; lia |].
    auto.
Qed.

Lemma ADDMOD_MULMOD_no_wrap_witness :
  bufferToBN (ADDMOD (TWO_POW256 - 1) 2 7) = (TWO_POW256 + 1) mod 7 /\
  bufferToBN (MULMOD (TWO_POW256 - 1) 2 7) = (2 * TWO_POW256 - 2) mod 7 /\
  ADDMOD 1 2 0 = [0].
Proof.
  assert (Hm : is_word (TWO_POW256 - 1)) by (unfold is_word, TWO_POW256; lia).
  assert (H1 : is_word 1) by (unfold is_word, TWO_POW256; lia).
  assert (H2 : is_word 2) by (unfold is_word, TWO_POW256; lia).
  assert (H7 : is_word 7) by (unfold is_word, TWO_POW256; lia).
  assert (H0 : is_word 0) by (unfold is_word, TWO_POW256; lia).
  destruct (ADDMOD_MULMOD_no_wrap (TWO_POW256 - 1) 2 7 Hm H2 H7) as [_ Hnz].
  destruct (ADDMOD_MULMOD_no_wrap 1 2 0 H1 H2 H0) as [Hz _].
  destruct (Hnz ltac:(lia)) as (Ea & Em & _).
  destruct (Hz eq_refl) as [Ez _].
  split; [rewrite Ea; reflexivity |].
  split; [rewrite Em; reflexivity | exact Ez].
Defined.

(** X6. NOT returns the complement of the word in 256 bits,
    [2^256 - 1 - a], and NOT of NOT is the word itself. *)
Theorem NOT_complement (a : BN.BN) :
  is_word a ->
  NOT a = TWO_POW256 - 1 - a /\ NOT (NOT a) = a.
Proof.
  unfold is_word, TWO_POW256, NOT. intros Ha.
  rewrite !notn_below by (try rewrite notn_below by lia; lia).
  split; lia.
Qed.

Lemma NOT_complement_witness :
  NOT 0 = TWO_POW256 - 1 /\ NOT (NOT 5) = 5.
Proof.
  assert (H0 : is_word 0) by (unfold is_word, TWO_POW256; lia).
  assert (H5 : is_word 5) by (unfold is_word, TWO_POW256; lia).
  split; [apply (NOT_complement 0 H0) | apply (NOT_complement 5 H5)].
Defined.

(** ** SIGNEXTEND *)

Lemma fill_loop_lookup (x : Z) (n : nat) (l : Buffer) (j : nat) :
  fold_left (fun val i => buffer_set val i x) (rev (seq 0 n)) l !! j =
    if decide (j < n /\ j < length l)%nat then Some x else l !! j.
Proof.
  revert l. induction n as [| n IH]; intros l.
  - cbn. destruct (decide _); [lia | reflexivity].
  - rewrite seq_S, rev_app_distr. cbn [rev app fold_left Nat.add].
    rewrite IH. unfold buffer_set. rewrite length_insert.
    destruct (decide (j < n /\ j < length l)%nat) as [Hin | Hout].
    + destruct (decide _); [reflexivity | lia].
    + destruct (decide (j = n)) as [-> | Hne].
      * destruct (decide (n < S n /\ n < length l)%nat) as [[_ Hlt] | Hge].
        -- apply list_lookup_insert_eq. exact Hlt.
        -- rewrite list_insert_ge by lia. reflexivity.
      * rewrite list_lookup_insert_ne by congruence.
        destruct (decide _); [lia | reflexivity].
Qed.

Lemma fill_loop (x : Z) (n : nat) (l : Buffer) :
  (n <= length l)%nat ->
  fold_left (fun val i => buffer_set val i x) (rev (seq 0 n)) l =
    replicate n x ++ drop n l.
Proof.
  intros Hn. apply list_eq. intros j. rewrite fill_loop_lookup.
  destruct (decide (j < n /\ j < length l)%nat) as [[Hj _] | Hout].
  - rewrite lookup_app_l by (rewrite length_replicate; lia).
    symmetry. apply lookup_replicate_2. exact Hj.
  - rewrite lookup_app_r by (rewrite length_replicate; lia).
    rewrite length_replicate, lookup_drop. f_equal. lia.
Qed.

Lemma bufferToBN_concat (l1 l2 : Buffer) :
  bufferToBN (l1 ++ l2) =
    bufferToBN l1 * 256 ^ Z.of_nat (length l2) + bufferToBN l2.
Proof. rewrite bufferToBN_app. apply fold_be_shift. Qed.

Lemma bufferToBN_replicate_ff (n : nat) :
  bufferToBN (replicate n 0xff) = 256 ^ Z.of_nat n - 1.
Proof.
  induction n as [| n IH]; [reflexivity |].
  cbn [replicate]. rewrite bufferToBN_cons, length_replicate, IH.
  rewrite Nat2Z.inj_succ, Z.pow_succ_r by lia. lia.
Qed.

Lemma bufferToBN_replicate_00 (n : nat) : bufferToBN (replicate n 0) = 0.
Proof.
  induction n as [| n IH]; [reflexivity |].
  cbn [replicate]. rewrite bufferToBN_cons, IH. lia.
Qed.

Lemma land_0x80 (b : Z) :
  0 <= b < 256 -> (Z.land b 0x80 =? 0) = (b <? 128).
Proof.
  intros Hb.
  assert (Htop : Z.testbit b 7 = (128 <=? b))
    by (apply (testbit_top 8 b); lia).
  assert (Hland : Z.land b 0x80 = if Z.testbit b 7 then 0x80 else 0).
  { apply Z.bits_inj'. intros n Hn. rewrite Z.land_spec.
    change 0x80 with (2 ^ 7). rewrite Z.pow2_bits_eqb by lia.
    destruct (Z.eqb_spec 7 n) as [<- | Hne].
    - destruct (Z.testbit b 7); [| rewrite Z.bits_0; reflexivity].
      rewrite Z.pow2_bits_eqb by lia. reflexivity.
    - rewrite andb_false_r.
      destruct (Z.testbit b 7); [| rewrite Z.bits_0; reflexivity].
      rewrite Z.pow2_bits_eqb by lia. symmetry. apply Z.eqb_neq. exact Hne. }
  rewrite Hland, Htop.
  destruct (Z.leb_spec 128 b), (Z.ltb_spec b 128); try lia; reflexivity.
Qed.

(** The low bytes of a buffer hold its value modulo their width. *)
Lemma bufferToBN_drop (l : Buffer) (n : nat) :
  is_bytes l -> (n <= length l)%nat ->
  bufferToBN (drop n l) = bufferToBN l mod 256 ^ Z.of_nat (length l - n).
Proof.
  intros Hb Hn.
  assert (Hlo : is_bytes (drop n l)) by (apply Forall_drop; exact Hb).
  pose proof (bufferToBN_bound _ Hlo) as Hbound.
  rewrite length_drop in Hbound.
  rewrite <- (take_drop n l) at 2. rewrite bufferToBN_concat, length_drop.
  rewrite Z.add_comm, Z.mod_add
    by (apply Z.pow_nonzero; lia).
  symmetry. apply Z.mod_small. exact Hbound.
Qed.

(** X7. SIGNEXTEND of a 32-byte value: for [k <= 30] the result is the value
    of the low [k + 1] bytes with their top bit copied into every higher
    bit, as a word; for [k >= 31] the value is returned as it is. *)
Theorem SIGNEXTEND_extends_sign (k : BN.BN) (val : Buffer) :
  length val = 32%nat -> is_bytes val -> 0 <= k ->
  (k <= 30 ->
   let bits := 8 * (k + 1) in
   let low := bufferToBN val mod 2 ^ bits in
   bufferToBN (SIGNEXTEND k val) =
     if low <? 2 ^ (bits - 1) then low else low + (TWO_POW256 - 2 ^ bits)) /\
  (31 <= k -> SIGNEXTEND k val = val) /\
  length (SIGNEXTEND k val) = 32%nat.
Proof.
  intros Hlen Hbytes Hk.
  assert (Hrun : k <= 31 ->
    SIGNEXTEND k val =
      replicate (Z.to_nat (31 - k))
        (if nth (Z.to_nat (31 - k)) val 0 <? 128 then 0 else 0xff)
      ++ drop (Z.to_nat (31 - k)) val).
  { intros Hle. unfold SIGNEXTEND, toNumber.
    replace (k <=? 31) with true by (symmetry; apply Z.leb_le; lia).
    replace (30 - k + 1) with (31 - k) by lia.
    rewrite fill_loop by lia. f_equal. f_equal.
    destruct (lookup_lt_is_Some_2 val (Z.to_nat (31 - k)) ltac:(lia))
      as [b0 Hb0].
    rewrite Hb0. cbn [default from_option id].
    rewrite (nth_lookup_Some _ _ _ _ Hb0).
    rewrite land_0x80.
    - destruct (b0 <? 128); reflexivity.
    - exact (Forall_lookup_1 _ _ _ _ Hbytes Hb0). }
  split; [| split].
  - intros Hk30 bits low. rewrite Hrun by lia.
    set (n := Z.to_nat (31 - k)).
    assert (Hlo : bufferToBN (drop n val) = low).
    { rewrite bufferToBN_drop by (try assumption; lia).
      unfold low, bits. f_equal. change 256 with (2 ^ 8).
      rewrite <- Z.pow_mul_r by lia. f_equal. lia. }
    assert (Hw : 256 ^ Z.of_nat (length (drop n val)) = 2 ^ bits).
    { rewrite length_drop. unfold bits. change 256 with (2 ^ 8).
      rewrite <- Z.pow_mul_r by lia. f_equal. lia. }
    assert (Hb0 : (nth n val 0 <? 128) = (low <? 2 ^ (bits - 1))).
    { destruct (drop n val) as [| b0 rest] eqn:Edrop.
      - apply (f_equal length) in Edrop. rewrite length_drop in Edrop.
        cbn in Edrop. lia.
      - assert (Hn0 : nth n val 0 = b0).
        { apply nth_lookup_Some with (d := 0).
          rewrite <- (Nat.add_0_r n), <- lookup_drop, Edrop. reflexivity. }
        assert (Hrest : is_bytes (b0 :: rest))
          by (rewrite <- Edrop; apply Forall_drop; exact Hbytes).
        apply Forall_cons in Hrest as [Hb0 Hrb].
        pose proof (bufferToBN_bound rest Hrb) as Hr.
        rewrite bufferToBN_cons in Hlo.
        assert (Hl : Z.of_nat (length rest) = k).
        { apply (f_equal length) in Edrop. rewrite length_drop in Edrop.
          cbn [length] in Edrop. lia. }
        assert (Hp : 2 ^ (bits - 1) = 128 * 256 ^ Z.of_nat (length rest)).
        { rewrite Hl. unfold bits.
          change 256 with (2 ^ 8). change 128 with (2 ^ 7).
          rewrite <- Z.pow_mul_r, <- Z.pow_add_r by lia. f_equal. lia. }
        rewrite Hn0, Hp, <- Hlo.
        destruct (Z.ltb_spec (nth n val 0) 128) as [H1 | H1];
          rewrite Hn0 in H1;
          destruct (Z.ltb_spec
                      (b0 * 256 ^ Z.of_nat (length rest) + bufferToBN rest)
                      (128 * 256 ^ Z.of_nat (length rest))); nia. }
    rewrite bufferToBN_concat, Hw, Hlo, Hb0.
    destruct (low <? 2 ^ (bits - 1)).
    + rewrite bufferToBN_replicate_00. lia.
    + rewrite bufferToBN_replicate_ff.
      assert (H256 : 256 ^ Z.of_nat n * 2 ^ bits = TWO_POW256).
      { unfold TWO_POW256, bits, n. change 256 with (2 ^ 8).
        rewrite <- Z.pow_mul_r, <- Z.pow_add_r by lia. f_equal. lia. }
      lia.
  - intros Hk31. destruct (Z.eq_dec k 31) as [-> | Hne].
    + rewrite Hrun by lia. reflexivity.
    + unfold SIGNEXTEND.
      replace (k <=? 31) with false by (symmetry; apply Z.leb_gt; lia).
      reflexivity.
  - destruct (Z_le_gt_dec k 31) as [Hle | Hgt].
    + rewrite Hrun by lia.
      rewrite length_app, length_replicate, length_drop. lia.
    + unfold SIGNEXTEND.
      replace (k <=? 31) with false by (symmetry; apply Z.leb_gt; lia).
      exact Hlen.
Qed.

Lemma SIGNEXTEND_extends_sign_witness :
  bufferToBN (SIGNEXTEND 0 (replicate 31 0 ++ [0x80])) = TWO_POW256 - 128 /\
  bufferToBN (SIGNEXTEND 0 (replicate 30 0 ++ [0x12; 0x7f])) = 0x7f.
Proof.
  assert (B1 : is_bytes (replicate 31 0 ++ [0x80]))
    by (repeat constructor; lia).
  assert (B2 : is_bytes (replicate 30 0 ++ [0x12; 0x7f]))
    by (repeat constructor; lia).
  destruct (SIGNEXTEND_extends_sign 0 (replicate 31 0 ++ [0x80])
              eq_refl B1 ltac:(lia)) as [E1 _].
  destruct (SIGNEXTEND_extends_sign 0 (replicate 30 0 ++ [0x12; 0x7f])
              eq_refl B2 ltac:(lia)) as [E2 _].
  split; [rewrite E1 by lia; reflexivity | rewrite E2 by lia; reflexivity].
Defined.

(** ** BYTE *)

(** The byte at a position of a buffer, from the value of the buffer. *)
Lemma byte_of_value (l : Buffer) (i : nat) (b : Z) :
  is_bytes l -> l !! i = Some b ->
  b = (bufferToBN l / 256 ^ (Z.of_nat (length l) - 1 - Z.of_nat i)) mod 256.
Proof.
  intros Hl. revert i. induction Hl as [| x r Hx Hr IH]; intros i Hi.
  - discriminate.
  - pose proof (bufferToBN_bound r Hr) as Hbr.
    rewrite bufferToBN_cons. cbn [length]. rewrite Nat2Z.inj_succ.
    destruct i as [| j]; cbn in Hi.
    + inversion Hi; subst b.
      replace (Z.succ (Z.of_nat (length r)) - 1 - Z.of_nat 0)
        with (Z.of_nat (length r)) by lia.
      rewrite Z.div_add_l by (apply Z.pow_nonzero; lia).
      rewrite Z.div_small by lia. rewrite Z.add_0_r.
      symmetry. apply Z.mod_small. exact Hx.
    + assert (Hj : (j < length r)%nat) by (eapply lookup_lt_Some; eauto).
      rewrite (IH j Hi).
      set (e := Z.of_nat (length r) - 1 - Z.of_nat j).
      replace (Z.succ (Z.of_nat (length r)) - 1 - Z.of_nat (S j)) with e
        by lia.
      replace (Z.of_nat (length r)) with (Z.of_nat j + 1 + e) by lia.
      rewrite !Z.pow_add_r by lia.
      replace (x * (256 ^ Z.of_nat j * 256 ^ 1 * 256 ^ e) + bufferToBN r)
        with (x * 256 ^ Z.of_nat j * 256 * 256 ^ e + bufferToBN r) by lia.
      rewrite Z.div_add_l by (apply Z.pow_nonzero; lia).
      rewrite Z.add_comm, Z.mod_add by lia. reflexivity.
Qed.

Lemma setLengthLeft_short (b : Buffer) (n : nat) :
  (length b <= n)%nat ->
  setLengthLeft b n = replicate (n - length b) 0 ++ b.
Proof.
  intros Hn. unfold setLengthLeft.
  destruct (Nat.ltb_spec (length b) n) as [Hlt | Hge]; [reflexivity |].
  replace (length b - n)%nat with 0%nat by lia.
  replace (n - length b)%nat with 0%nat by lia. reflexivity.
Qed.

Lemma setLengthLeft_value (b : Buffer) (n : nat) :
  (length b <= n)%nat -> bufferToBN (setLengthLeft b n) = bufferToBN b.
Proof.
  intros Hn. rewrite setLengthLeft_short by exact Hn.
  rewrite bufferToBN_concat, bufferToBN_replicate_00. lia.
Qed.

Lemma setLengthLeft_length (b : Buffer) (n : nat) :
  length (setLengthLeft b n) = n.
Proof.
  unfold setLengthLeft.
  destruct (Nat.ltb_spec (length b) n).
  - rewrite length_app, length_replicate. lia.
  - rewrite length_drop. lia.
Qed.

Lemma setLengthLeft_is_bytes (b : Buffer) (n : nat) :
  is_bytes b -> is_bytes (setLengthLeft b n).
Proof.
  intros Hb. unfold setLengthLeft. destruct (_ <? _)%nat.
  - apply Forall_app. split; [| exact Hb].
    apply Forall_replicate. lia.
  - apply Forall_drop. exact Hb.
Qed.

Lemma intToBuffer_byte (b : Z) :
  0 <= b < 256 -> intToBuffer b = [b].
Proof.
  intros Hb. unfold intToBuffer, BN_toArray, BN_byteLength.
  rewrite Z.abs_eq by lia.
  assert (Hone : Nat.max 1
            (if b =? 0 then 0%nat else Z.to_nat (Z.log2 b / 8 + 1)) = 1%nat).
  { destruct (Z.eqb_spec b 0) as [-> | Hnz]; [reflexivity |].
    assert (Z.log2 b < 8) by (apply Z.log2_lt_pow2; lia).
    pose proof (Z.log2_nonneg b).
    rewrite Z.div_small by lia. reflexivity. }
  rewrite Hone. cbn [be_bytes app]. rewrite Z.mod_small by lia. reflexivity.
Qed.

(** X8. BYTE returns the one byte of the word at position [pos], counted
    from the most significant of the 32 bytes,
    [(word / 256^(31 - pos)) mod 256], and the byte 0 for a position of 32
    or more. *)
Theorem BYTE_extracts (pos word : Buffer) :
  is_bytes pos -> is_bytes word -> (length word <= 32)%nat ->
  bufferToInt pos <= MAX_INT ->
  let i := bufferToInt pos in
  BYTE pos word =
    [if i <? 32 then (bufferToBN word / 256 ^ (31 - i)) mod 256 else 0].
Proof.
  intros Hpos Hword Hlen _ i. unfold BYTE. fold i.
  destruct (Z.ltb_spec i 32) as [Hlt | Hge]; [| reflexivity].
  assert (Hi : 0 <= i) by (apply bufferToBN_nonneg; exact Hpos).
  destruct (lookup_lt_is_Some_2 (setLengthLeft word 32) (Z.to_nat i))
    as [b Hb]; [rewrite setLengthLeft_length; lia |].
  rewrite Hb. cbn [default from_option id].
  pose proof (setLengthLeft_is_bytes word 32 Hword) as H32.
  rewrite intToBuffer_byte by exact (Forall_lookup_1 _ _ _ _ H32 Hb).
  rewrite (byte_of_value _ _ _ H32 Hb).
  rewrite setLengthLeft_length, setLengthLeft_value by exact Hlen.
  replace (Z.of_nat 32 - 1 - Z.of_nat (Z.to_nat i)) with (31 - i) by lia.
  reflexivity.
Qed.

Lemma BYTE_extracts_witness :
  BYTE [31] [0xab; 0xcd] = [0xcd] /\ BYTE [30] [0xab; 0xcd] = [0xab] /\
  BYTE [0] [0xab; 0xcd] = [0] /\ BYTE [32] [0xab; 0xcd] = [0].
Proof.
  assert (Hw : is_bytes [0xab; 0xcd]) by (repeat constructor; lia).
  assert (Hl : (length [0xab; 0xcd] <= 32)%nat) by (simpl; lia).
  assert (Hp : forall p, 0 <= p < 256 -> is_bytes [p])
    by (intros; repeat constructor; lia).
  assert (Hs : forall p, 0 <= p < 256 -> bufferToInt [p] <= MAX_INT)
    by (intros; unfold bufferToInt, MAX_INT; cbn; lia).
  split; [| split; [| split]].
  - apply (BYTE_extracts [31] [0xab; 0xcd] (Hp 31 ltac:(lia)) Hw Hl
             (Hs 31 ltac:(lia))).
  - apply (BYTE_extracts [30] [0xab; 0xcd] (Hp 30 ltac:(lia)) Hw Hl
             (Hs 30 ltac:(lia))).
  - apply (BYTE_extracts [0] [0xab; 0xcd] (Hp 0 ltac:(lia)) Hw Hl
             (Hs 0 ltac:(lia))).
  - apply (BYTE_extracts [32] [0xab; 0xcd] (Hp 32 ltac:(lia)) Hw Hl
             (Hs 32 ltac:(lia))).
Defined.

(** ** EXP *)

Lemma pow_mod_pos_spec (a : Z) (e : positive) (m : Z) :
  0 < m -> pow_mod_pos a e m = a ^ Zpos e mod m.
Proof.
  intros Hm. induction e as [e IH | e IH |]; cbn [pow_mod_pos].
  - rewrite IH, Pos2Z.inj_xI.
    rewrite Z.pow_add_r, Z.pow_1_r, Z.pow_twice_r by lia.
    rewrite <- Z.mul_mod by lia. rewrite Z.mul_mod_idemp_l by lia.
    reflexivity.
  - rewrite IH, Pos2Z.inj_xO, Z.pow_twice_r.
    rewrite <- Z.mul_mod by lia. reflexivity.
  - rewrite Z.pow_1_r. reflexivity.
Qed.

Lemma redPow_spec (a e m : Z) :
  0 < m -> 0 <= e -> redPow a e m = a ^ e mod m.
Proof.
  intros Hm He. destruct e as [| p | p]; [reflexivity | | lia].
  apply pow_mod_pos_spec. exact Hm.
Qed.

(** X9. EXP with a zero exponent returns the byte 1 and leaves the frame as
    it is; with a non-zero exponent it takes
    [(1 + logTable exponent) * expByteGas] from [gasLeft], traps OUT_OF_GAS
    exactly when that exceeds the gas left, and otherwise returns the 32
    bytes of [base ^ exponent mod 2^256]. *)
Theorem EXP_charges_then_powers (opFees : OpFees) (logTable : BN.BN -> Z)
    (base exponent : BN.BN) (st : RunState) :
  is_word base -> is_word exponent ->
  let run := EXP opFees logTable base exponent st in
  let fee := (1 + logTable exponent) * expByteGas opFees in
  (exponent = 0 -> run = (Ok [1], st)) /\
  (exponent <> 0 ->
   snd run = set_gasLeft (gasLeft st - fee) st /\
   (fst run = Throw out_of_gas <-> gasLeft st < fee) /\
   (fee <= gasLeft st ->
    exists b, fst run = Ok b /\ length b = 32%nat /\
              bufferToBN b = base ^ exponent mod TWO_POW256)).
Proof.
  intros Hb He run fee. subst run. unfold EXP, BN.isZero. split.
  - intros ->. reflexivity.
  - intros Hnz. apply Z.eqb_neq in Hnz. rewrite Hnz. cbn [negb].
    unfold bind. rewrite subGas_run. fold fee.
    assert (Hpow : redPow (BN_umod base TWO_POW256) exponent TWO_POW256
                   = base ^ exponent mod TWO_POW256).
    { unfold is_word in He. rewrite redPow_spec by (try reflexivity; lia).
      unfold BN_umod. rewrite (Z.mod_small base) by exact Hb. reflexivity. }
    destruct (Z.ltb_spec (gasLeft st - fee) 0) as [Hlt | Hge]; cbn.
    + split; [reflexivity |]. split; [split; [lia | reflexivity] | lia].
    + split; [reflexivity |]. split; [split; [discriminate | lia] |].
      intros _. eexists. split; [reflexivity |].
      rewrite Hpow.
      destruct (BN_toArray_32 (base ^ exponent mod TWO_POW256)
                  (word_mod _)) as (Ev & El & _).
      split; assumption.
Qed.

Lemma EXP_charges_then_powers_witness :
  let fees := {| expByteGas := 10; sha3WordGas := 6; logTopicGas := 375;
                 logDataGas := 8 |} in
  let st := Fixtures.new_frame [] [] 100 in
  EXP fees (fun _ => 0) 2 0 st = (Ok [1], st) /\
  gasLeft (snd (EXP fees (fun _ => 0) 2 10 st)) = 90 /\
  exists b, fst (EXP fees (fun _ => 0) 2 10 st) = Ok b /\
            bufferToBN b = 1024.
Proof.
  intros fees st.
  assert (H2 : is_word 2) by (unfold is_word, TWO_POW256; lia).
  assert (H0 : is_word 0) by (unfold is_word, TWO_POW256; lia).
  assert (H10 : is_word 10) by (unfold is_word, TWO_POW256; lia).
  destruct (EXP_charges_then_powers fees (fun _ => 0) 2 0 st H2 H0)
    as [Hz _].
  destruct (EXP_charges_then_powers fees (fun _ => 0) 2 10 st H2 H10)
    as [_ Hnz].
  destruct (Hnz ltac:(lia)) as (Hst & _ & Hok).
  split; [apply Hz; reflexivity |].
  split; [rewrite Hst; reflexivity |].
  destruct (Hok ltac:(cbn; lia)) as (b & Hb & _ & Hv).
  exists b. split; [exact Hb | rewrite Hv; reflexivity].
Defined.

(** ** CALLDATALOAD *)

(** X10. CALLDATALOAD returns 32 bytes: the bytes of the call data from
    [pos] on, and zero for every position beyond the end of the call data;
    the frame is left as it is. *)
Theorem CALLDATALOAD_zero_padded (pos : Buffer) (st : RunState) :
  0 <= bufferToInt pos <= MAX_INT ->
  exists b,
    CALLDATALOAD pos st = (Ok b, st) /\
    length b = 32%nat /\
    forall i, (i < 32)%nat ->
      b !! i = Some (default 0 (callData st !! (Z.to_nat (bufferToInt pos) + i)%nat)).
Proof.
  intros [Hp _]. unfold CALLDATALOAD. unfold_vm. eexists.
  split; [reflexivity |].
  unfold slice. replace (bufferToInt pos + 32 - bufferToInt pos) with 32 by lia.
  set (p := Z.to_nat (bufferToInt pos)).
  set (loaded := take (Z.to_nat 32) (drop p (callData st))).
  assert (Hlen : length loaded = Nat.min 32 (length (callData st) - p)).
  { unfold loaded. rewrite length_take, length_drop. reflexivity. }
  assert (Hlk : forall i, (i < 32)%nat ->
            default 0 (loaded !! i) = default 0 (callData st !! (p + i)%nat)).
  { intros i Hi. unfold loaded.
    rewrite lookup_take_lt by (change (Z.to_nat 32) with 32%nat; lia).
    rewrite lookup_drop. reflexivity. }
  destruct (Nat.eqb_spec (length loaded) 0) as [Hz | Hnz].
  - cbv beta iota. change (setLengthRight [0] 32) with (replicate 32 0).
    split; [reflexivity |]. intros i Hi. rewrite <- Hlk by exact Hi.
    apply length_zero_iff_nil in Hz. rewrite Hz.
    rewrite lookup_replicate_2 by exact Hi. reflexivity.
  - unfold setLengthRight.
    destruct (Nat.ltb_spec (length loaded) 32) as [Hlt | Hge].
    + split; [rewrite length_app, length_replicate; lia |].
      intros i Hi. rewrite <- Hlk by exact Hi.
      destruct (Nat.lt_ge_cases i (length loaded)) as [Hin | Hout].
      * rewrite lookup_app_l by exact Hin.
        destruct (lookup_lt_is_Some_2 loaded i Hin) as [x Hx].
        rewrite Hx. reflexivity.
      * rewrite lookup_app_r by exact Hout.
        rewrite lookup_replicate_2 by lia.
        rewrite (lookup_ge_None_2 loaded) by exact Hout. reflexivity.
    + assert (H32 : length loaded = 32%nat) by lia.
      rewrite firstn_all2 by lia.
      split; [exact H32 |].
      intros i Hi. rewrite <- Hlk by exact Hi.
      destruct (lookup_lt_is_Some_2 loaded i ltac:(lia)) as [x Hx].
      rewrite Hx. reflexivity.
Qed.

Lemma CALLDATALOAD_zero_padded_witness :
  let st := Fixtures.new_frame [] [1; 2; 3] 100 in
  exists b, CALLDATALOAD [1] st = (Ok b, st) /\
            b !! 0%nat = Some 2 /\ b !! 1%nat = Some 3 /\
            b !! 2%nat = Some 0 /\ b !! 31%nat = Some 0.
Proof.
  intros st.
  assert (Hp : 0 <= bufferToInt [1] <= MAX_INT)
    by (unfold bufferToInt, MAX_INT; cbn; lia).
  destruct (CALLDATALOAD_zero_padded [1] st Hp) as (b & Hrun & _ & Hb).
  exists b. split; [exact Hrun |].
  split; [apply (Hb 0%nat); lia |].
  split; [apply (Hb 1%nat); lia |].
  split; [apply (Hb 2%nat); lia | apply (Hb 31%nat); lia].
Defined.

(** ** Memory: what an access leaves behind *)

Lemma bind_Ok_inv {A B : Type} (m : M A) (k : A -> M B) (st st' : RunState)
    (b : B) :
  bind m k st = (Ok b, st') ->
  exists a st1, m st = (Ok a, st1) /\ k a st1 = (Ok b, st').
Proof.
  unfold bind. destruct (m st) as [[a | e] st1]; [eauto | discriminate].
Qed.

Lemma subGas_Ok_inv (amount : Z) (st st' : RunState) :
  subGas amount st = (Ok tt, st') ->
  st' = set_gasLeft (gasLeft st - amount) st /\ amount <= gasLeft st.
Proof.
  rewrite subGas_run.
  destruct (Z.ltb_spec (gasLeft st - amount) 0); [discriminate |].
  intros Hrun; inversion Hrun. split; [reflexivity | lia].
Qed.

Section MemoryFacts.

Variable env : Env.

(** An access that has not trapped lies within the safe integers and
    within the words counted. *)
Lemma subMemUsage_covers (offset length : Z) (st st' : RunState) :
  subMemUsage env offset length st = (Ok tt, st') -> length <> 0 ->
  offset <= MAX_INT /\ length <= MAX_INT /\
  ceil_div (offset + length) 32 <= memoryWordCount st' /\
  memoryWordCount st <= memoryWordCount st'.
Proof.
  rewrite subMemUsage_run. intros Hrun Hlen.
  apply Z.eqb_neq in Hlen. rewrite Hlen in Hrun.
  rewrite !Z.gtb_ltb in Hrun.
  destruct (Z.ltb_spec MAX_INT offset); [discriminate |].
  destruct (Z.ltb_spec MAX_INT length); [discriminate |].
  cbn [orb] in Hrun.
  destruct (Z.leb_spec (ceil_div (offset + length) 32) (memoryWordCount st)).
  - inversion Hrun; subst. lia.
  - destruct (_ <? _); [destruct (_ <? 0); [discriminate |] |];
      inversion Hrun; subst; cbn; lia.
Qed.

(** An access within the words counted is free. *)
Lemma subMemUsage_free (offset length : Z) (st : RunState) :
  offset <= MAX_INT -> length <= MAX_INT ->
  ceil_div (offset + length) 32 <= memoryWordCount st ->
  subMemUsage env offset length st = (Ok tt, st).
Proof.
  intros Hoff Hlen Hw. rewrite subMemUsage_run.
  destruct (length =? 0); [reflexivity |].
  rewrite !Z.gtb_ltb.
  replace (MAX_INT <? offset) with false by (symmetry; apply Z.ltb_ge; lia).
  replace (MAX_INT <? length) with false by (symmetry; apply Z.ltb_ge; lia).
  cbn [orb].
  replace (_ <=? _) with true by (symmetry; apply Z.leb_le; lia).
  reflexivity.
Qed.

Lemma subMemUsage_memory (offset length : Z) (st : RunState) :
  memory (snd (subMemUsage env offset length st)) = memory st /\
  logs (snd (subMemUsage env offset length st)) = logs st /\
  trace (snd (subMemUsage env offset length st)) = trace st /\
  stack (snd (subMemUsage env offset length st)) = stack st.
Proof.
  pose proof (subMemUsage_billed env offset length st) as Hb.
  rewrite Hb. repeat split; reflexivity.
Qed.

Lemma memStore_skip_run (offset valOffset length : Z) (val : Buffer)
    (st : RunState) :
  memStore env offset val valOffset length (Some false) st =
    (Ok tt, set_memory (copy_loop (memory st) offset val valOffset length) st).
Proof. reflexivity. Qed.

End MemoryFacts.

(** X11. MSTORE then MLOAD at the same offset: once MSTORE has stored a
    word, MLOAD at that offset returns the word and leaves the frame as it
    is, charging nothing more; MSTORE has changed no byte of the memory
    outside the 32 it wrote. *)
Theorem MSTORE_MLOAD_round_trip (env : Env) (offset word : BN.BN)
    (st st1 : RunState) :
  is_word word -> 0 <= offset -> offset + 32 <= MAX_ARRAY_LENGTH ->
  MSTORE env offset word st = (Ok tt, st1) ->
  MLOAD env offset st1 = (Ok word, st1) /\
  (forall j : nat, ~ (offset <= Z.of_nat j < offset + 32) ->
     memory_byte (memory st1) j = memory_byte (memory st) j).
Proof.
  intros Hw Hoff _ Hstore. unfold MSTORE, toNumber in Hstore.
  rewrite memStore_run in Hstore.
  destruct (subMemUsage env offset 32 st) as [[[] | e] st0] eqn:Emem;
    [| discriminate].
  assert (Hst1 : st1 =
            set_memory
              (copy_loop (memory st0) offset (BN_toArray word (Some 32%nat))
                 0 32) st0) by congruence.
  clear Hstore.
  destruct (subMemUsage_covers env offset 32 st st0 Emem ltac:(lia))
    as (Ho & Hl & Hcov & _).
  destruct (subMemUsage_memory env offset 32 st) as (Hmem & _).
  rewrite Emem in Hmem. cbn [snd] in Hmem.
  destruct (BN_toArray_32 word Hw) as (Hval & Hlen & _).
  set (bytes := BN_toArray word (Some 32%nat)) in *.
  assert (Hbyte : forall j : nat,
            memory_byte (memory st1) j =
              if decide (Z.to_nat offset <= j < Z.to_nat offset + 32)%nat
              then default 0 (bytes !! (j - Z.to_nat offset)%nat)
              else memory_byte (memory st) j).
  { intros j. rewrite Hst1. cbn [memory set_memory].
    rewrite copy_loop_byte_Z by lia. rewrite Hmem.
    change (Z.to_nat 32) with 32%nat. change (Z.to_nat 0) with 0%nat.
    reflexivity. }
  split.
  - unfold MLOAD, toNumber. unfold bind.
    assert (Hfree : subMemUsage env offset 32 st1 = (Ok tt, st1)).
    { apply subMemUsage_free; try lia. rewrite Hst1. exact Hcov. }
    destruct (memLoad env offset 32 st1) as [[b | e] st2] eqn:Eload.
    + pose proof (memLoad_state env offset 32 st1) as (Hs & _).
      rewrite Eload, Hfree in Hs. cbn [snd] in Hs. subst st2.
      destruct (memLoad_bytes env offset 32 st1 st1 b Hoff ltac:(lia) Eload)
        as [Hblen Hbk].
      assert (Hb : b = bytes).
      { apply list_eq. intros k.
        destruct (Nat.lt_ge_cases k 32) as [Hk | Hk].
        - rewrite Hbk by exact Hk. rewrite Hbyte.
          destruct (decide _) as [_ | Hn]; [| lia].
          replace (Z.to_nat offset + k - Z.to_nat offset)%nat with k by lia.
          destruct (lookup_lt_is_Some_2 bytes k ltac:(lia)) as [x Hx].
          rewrite Hx. reflexivity.
        - rewrite !lookup_ge_None_2 by lia. reflexivity. }
      unfold ret. rewrite Hb, Hval. reflexivity.
    + pose proof (memLoad_state env offset 32 st1) as (_ & _ & He).
      rewrite Eload, Hfree in He. specialize (He e eq_refl). discriminate.
  - intros j Hj. rewrite Hbyte.
    destruct (decide _) as [Hin | _]; [lia | reflexivity].
Qed.

Lemma MSTORE_MLOAD_round_trip_witness :
  let env := Fixtures.world [] in
  let st := Fixtures.new_frame [] [] 100 in
  let st1 := snd (MSTORE env 4 0xabcdef st) in
  MLOAD env 4 st1 = (Ok 0xabcdef, st1) /\ gasLeft st1 = 100 - 6.
Proof.
  intros env st st1.
  assert (Hw : is_word 0xabcdef) by (unfold is_word, TWO_POW256; lia).
  assert (Hrun : MSTORE env 4 0xabcdef st = (Ok tt, st1))
    by (vm_compute; reflexivity).
  split; [| vm_compute; reflexivity].
  apply (MSTORE_MLOAD_round_trip env 4 0xabcdef st st1 Hw); try exact Hrun;
    unfold MAX_ARRAY_LENGTH; lia.
Defined.



(** ** The frame invariant through the handlers that use memory *)

Section FrameOk.

Variable env : Env.
Hypothesis quadCoeffDiv_positive : 0 < quadCoeffDiv (fees env).
Hypothesis memoryGas_not_negative : 0 <= memoryGas (fees env).

Lemma frame_ok_fields (st st' : RunState) :
  memoryWordCount st' = memoryWordCount st ->
  highestMemCost st' = highestMemCost st ->
  gasLeft st' = gasLeft st ->
  frame_ok env st -> frame_ok env st'.
Proof.
  unfold frame_ok, mem_inv. intros -> -> ->. auto.
Qed.

Lemma frame_ok_subMemUsage (offset length : Z) (st st' : RunState) :
  frame_ok env st ->
  subMemUsage env offset length st = (Ok tt, st') -> frame_ok env st'.
Proof.
  intros [Hinv Hgas] Hrun.
  exact (subMemUsage_keeps_inv env quadCoeffDiv_positive memoryGas_not_negative
           offset length st st' Hinv Hgas Hrun).
Qed.

Lemma frame_ok_subGas (amount : Z) (st st' : RunState) :
  frame_ok env st -> subGas amount st = (Ok tt, st') -> frame_ok env st'.
Proof.
  intros [Hinv Hgas] Hrun.
  destruct (subGas_Ok_inv amount st st' Hrun) as [-> Hle].
  split; [exact Hinv | cbn; lia].
Qed.

Lemma frame_ok_memLoad (offset length : Z) (st st' : RunState) (b : Buffer) :
  frame_ok env st ->
  memLoad env offset length st = (Ok b, st') -> frame_ok env st'.
Proof.
  intros Hok. rewrite memLoad_run.
  destruct (subMemUsage env offset length st) as [[[] | e] st1] eqn:E;
    [| discriminate].
  intros H; inversion H; subst. eapply frame_ok_subMemUsage; eauto.
Qed.

Lemma frame_ok_memStore (offset valOffset length : Z) (val : Buffer)
    (st st' : RunState) :
  frame_ok env st ->
  memStore env offset val valOffset length None st = (Ok tt, st') ->
  frame_ok env st'.
Proof.
  intros Hok. rewrite memStore_run.
  destruct (subMemUsage env offset length st) as [[[] | e] st1] eqn:E;
    [| discriminate].
  intros H; inversion H; subst.
  apply (frame_ok_fields st1); try reflexivity.
  eapply frame_ok_subMemUsage; eauto.
Qed.

Lemma frame_ok_copy (src : Buffer) (d s len fee : Z) (st st' : RunState) :
  frame_ok env st ->
  (memStore env d src s len None ;; subGas fee) st = (Ok tt, st') ->
  frame_ok env st'.
Proof.
  intros Hok Hrun.
  apply bind_Ok_inv in Hrun as ([] & st1 & Hstore & Hfee).
  eapply frame_ok_subGas; [| exact Hfee].
  eapply frame_ok_memStore; eauto.
Qed.

End FrameOk.

(** X13. A frame whose [highestMemCost] is the cost of its word count and
    whose [gasLeft] is not negative is such a frame again after every
    handler that uses the memory, when the handler has not trapped:
    [memLoad], [memStore], MLOAD, MSTORE, CALLDATACOPY, CODECOPY, SHA3, LOG
    and EXTCODECOPY. *)
Theorem memory_handlers_keep_frame_ok (env : Env) (opFees : OpFees)
    (sha3 : Buffer -> Buffer) (st st' : RunState) :
  0 < quadCoeffDiv (fees env) -> 0 <= memoryGas (fees env) ->
  frame_ok env st ->
  (forall offset length b,
     memLoad env offset length st = (Ok b, st') -> frame_ok env st') /\
  (forall offset val valOffset length,
     memStore env offset val valOffset length None st = (Ok tt, st') ->
     frame_ok env st') /\
  (forall pos w, MLOAD env pos st = (Ok w, st') -> frame_ok env st') /\
  (forall offset word,
     MSTORE env offset word st = (Ok tt, st') -> frame_ok env st') /\
  (forall memOffset dataOffset dataLength,
     CALLDATACOPY env memOffset dataOffset dataLength st = (Ok tt, st') ->
     frame_ok env st') /\
  (forall memOffset codeOffset length,
     CODECOPY env memOffset codeOffset length st = (Ok tt, st') ->
     frame_ok env st') /\
  (forall offset length h,
     SHA3 env opFees sha3 offset length st = (Ok h, st') ->
     frame_ok env st') /\
  (forall memOffset memLength topics,
     LOG env opFees memOffset memLength topics st = (Ok tt, st') ->
     frame_ok env st') /\
  (forall address memOffset codeOffset length,
     EXTCODECOPY env address memOffset codeOffset length st = (Ok tt, st') ->
     frame_ok env st').
Proof.
  intros Hq Hg Hok.
  repeat match goal with |- _ /\ _ => split end.
  - intros offset length b. apply frame_ok_memLoad; assumption.
  - intros offset val valOffset length. apply frame_ok_memStore; assumption.
  - intros pos w Hrun. unfold MLOAD in Hrun.
    apply bind_Ok_inv in Hrun as (b & st1 & Hload & Hret).
    inversion Hret; subst. eapply frame_ok_memLoad; eauto.
  - intros offset word. unfold MSTORE. apply frame_ok_memStore; assumption.
  - intros memOffset dataOffset dataLength Hrun. unfold CALLDATACOPY in Hrun.
    eapply (frame_ok_copy env Hq Hg); [exact Hok | exact Hrun].
  - intros memOffset codeOffset length Hrun. unfold CODECOPY in Hrun.
    eapply (frame_ok_copy env Hq Hg); [exact Hok | exact Hrun].
  - intros offset length h Hrun. unfold SHA3 in Hrun.
    apply bind_Ok_inv in Hrun as (data & st1 & Hload & Hrun).
    apply bind_Ok_inv in Hrun as ([] & st2 & Hfee & Hret).
    inversion Hret; subst.
    eapply frame_ok_subGas; [| exact Hfee].
    eapply frame_ok_memLoad; eauto.
  - intros memOffset memLength topics Hrun. unfold LOG in Hrun.
    apply bind_Ok_inv in Hrun as (s0 & st0 & Hget & Hrun).
    inversion Hget; subst s0 st0.
    apply bind_Ok_inv in Hrun as (data & st1 & Hload & Hrun).
    apply bind_Ok_inv in Hrun as ([] & st2 & Hfee & Hrun).
    apply bind_Ok_inv in Hrun as (s3 & st3 & Hget3 & Hmod).
    inversion Hget3; subst s3 st3. inversion Hmod; subst.
    apply (frame_ok_fields env st2); try reflexivity.
    eapply frame_ok_subGas; [| exact Hfee].
    eapply frame_ok_memLoad; eauto.
  - intros address memOffset codeOffset length Hrun. unfold EXTCODECOPY in Hrun.
    apply bind_Ok_inv in Hrun as ([] & st1 & Hmem & Hrun).
    apply bind_Ok_inv in Hrun as ([] & st2 & Hfee & Hrun).
    assert (Hok2 : frame_ok env st2).
    { eapply frame_ok_subGas; [| exact Hfee].
      eapply frame_ok_subMemUsage; eauto. }
    apply bind_Ok_inv in Hrun as ([] & st3 & Hemit & Hrun).
    inversion Hemit; subst st3.
    destruct (getContractCode env _) as [err [code compiled]].
    apply bind_Ok_inv in Hrun as ([] & st4 & Hstore & Hcb).
    rewrite memStore_skip_run in Hstore.
    inversion Hstore; subst st4. inversion Hcb; subst st'.
    apply (frame_ok_fields env st2); try reflexivity. exact Hok2.
Qed.

Lemma memory_handlers_keep_frame_ok_witness :
  let env := Fixtures.world [] in
  let st := Fixtures.new_frame [] [1; 2; 3] 100 in
  let st' := snd (CALLDATACOPY env [0] [0] [3] st) in
  frame_ok env st'.
Proof.
  intros env st st'.
  assert (Hq : 0 < quadCoeffDiv (fees env)) by (cbn; lia).
  assert (Hg : 0 <= memoryGas (fees env)) by (cbn; lia).
  assert (Hok : frame_ok env st).
  { split; [apply new_frame_mem_inv; exact Hq | cbn; lia]. }
  assert (Hrun : CALLDATACOPY env [0] [0] [3] st = (Ok tt, st'))
    by (vm_compute; reflexivity).
  destruct (memory_handlers_keep_frame_ok env
              {| expByteGas := 10; sha3WordGas := 6; logTopicGas := 375;
                 logDataGas := 8 |} (fun b => b) st st' Hq Hg Hok)
    as (_ & _ & _ & _ & Hcopy & _).
  exact (Hcopy [0] [0] [3] Hrun).
Defined.

(** ** SHA3, LOG, EXTCODECOPY *)

Lemma bind_Throw_inv {A B : Type} (m : M A) (k : A -> M B)
    (st st' : RunState) (e : VmError) :
  bind m k st = (Throw e, st') ->
  m st = (Throw e, st') \/
  exists a st1, m st = (Ok a, st1) /\ k a st1 = (Throw e, st').
Proof.
  unfold bind. destruct (m st) as [[a | e0] st1]; [eauto |].
  intros H; inversion H; subst. auto.
Qed.

Lemma subMemUsage_throws (env : Env) (offset length : Z) (st st' : RunState)
    (e : VmError) :
  subMemUsage env offset length st = (Throw e, st') ->
  e = out_of_gas /\ billed st st'.
Proof.
  intros Hrun. pose proof (subMemUsage_billed env offset length st) as Hb.
  rewrite Hrun in Hb. split; [| exact Hb].
  rewrite subMemUsage_run in Hrun.
  repeat match type of Hrun with
         | context [if ?b then _ else _] => destruct b
         end; inversion Hrun; reflexivity.
Qed.

Lemma memLoad_throws (env : Env) (offset length : Z) (st st' : RunState)
    (e : VmError) :
  memLoad env offset length st = (Throw e, st') ->
  e = out_of_gas /\ billed st st'.
Proof.
  rewrite memLoad_run.
  destruct (subMemUsage env offset length st) as [[[] | e0] st1] eqn:E;
    [discriminate |].
  intros H; inversion H; subst. eapply subMemUsage_throws; eauto.
Qed.

(** What a successful [memLoad] gives: the bytes of the memory, which it
    leaves as it was, and the bill of the expansion. *)
Lemma memLoad_Ok (env : Env) (offset length : Z) (st st' : RunState)
    (b : Buffer) :
  0 <= offset -> 0 <= length ->
  memLoad env offset length st = (Ok b, st') ->
  bytes_of_memory (memory st) offset length b /\
  billed st st' /\
  gasLeft st - gasLeft st' = highestMemCost st' - highestMemCost st.
Proof.
  intros Hoff Hlen Hload.
  pose proof (memLoad_billed env offset length st) as Hb.
  rewrite Hload in Hb. cbn [snd] in Hb.
  destruct (memLoad_paid env offset length st st' b Hload) as [Hpaid _].
  destruct (memLoad_bytes env offset length st st' b Hoff Hlen Hload)
    as [Hl Hk].
  assert (Hmem : memory st' = memory st) by (rewrite Hb; reflexivity).
  rewrite Hmem in Hk. split; [split; assumption | split; assumption].
Qed.



(** X15. LOG appends one log to the logs of the frame, behind those that
    are there: the address of the frame, the topics each left-padded to 32
    bytes, and the [memLength] bytes of the memory from [memOffset] on.  It
    takes from [gasLeft] the memory expansion, [logTopicGas] for each topic
    of the opcode and [logDataGas] for each byte, and calls nothing outside
    the frame.  When it traps, it traps OUT_OF_GAS and the logs are as they
    were. *)
Theorem LOG_appends_one_log (env : Env) (opFees : OpFees)
    (memOffset memLength : Buffer) (topics : list Buffer) (st : RunState) :
  let offset := bufferToInt memOffset in
  let length := bufferToInt memLength in
  let fee :=
    (opCode st - 0xa0) * logTopicGas opFees + length * logDataGas opFees in
  let run := LOG env opFees memOffset memLength topics st in
  0 <= offset <= MAX_INT -> 0 <= length <= MAX_INT ->
  (forall st', run = (Ok tt, st') ->
     exists log,
       logs st' = logs st ++ [log] /\
       log_address log = address st /\
       log_topics log = (fun a => setLengthLeft a 32) <$> topics /\
       Forall (fun t => List.length t = 32%nat) (log_topics log) /\
       bytes_of_memory (memory st) offset length (log_data log) /\
       gasLeft st - gasLeft st' =
         (highestMemCost st' - highestMemCost st) + fee /\
       memory st' = memory st /\ trace st' = trace st) /\
  (forall e st', run = (Throw e, st') ->
     e = out_of_gas /\ logs st' = logs st /\ trace st' = trace st).
Proof.
  intros offset length fee run [Hoff _] [Hlen _]. subst run. split.
  - intros st' Hrun. unfold LOG in Hrun. fold offset length in Hrun.
    apply bind_Ok_inv in Hrun as (s0 & st0 & Hget & Hrun).
    inversion Hget; subst s0 st0; clear Hget.
    apply bind_Ok_inv in Hrun as (data & st1 & Hload & Hrun).
    apply bind_Ok_inv in Hrun as ([] & st2 & Hfee & Hrun).
    apply bind_Ok_inv in Hrun as (s3 & st3 & Hget & Hmod).
    inversion Hget; subst s3 st3; clear Hget.
    inversion Hmod; subst st'; clear Hmod.
    destruct (memLoad_Ok env offset length st st1 data Hoff Hlen Hload)
      as (Hbytes & Hb & Hpaid).
    destruct (subGas_Ok_inv _ _ _ Hfee) as [-> _].
    fold fee. eexists.
    cbn [logs set_logs set_gasLeft log_address log_topics log_data
         gasLeft highestMemCost memory trace address].
    rewrite Hb. cbn.
    split; [reflexivity |]. split; [reflexivity |].
    split; [reflexivity |].
    split; [apply Forall_fmap, Forall_forall; intros t _;
            apply setLengthLeft_length |].
    split; [exact Hbytes |].
    split; [lia | split; reflexivity].
  - intros e st' Hrun. unfold LOG in Hrun. fold offset length in Hrun.
    apply bind_Throw_inv in Hrun as [Hrun | (s0 & st0 & Hget & Hrun)];
      [discriminate |].
    inversion Hget; subst s0 st0; clear Hget.
    apply bind_Throw_inv in Hrun as [Hrun | (data & st1 & Hload & Hrun)].
    { destruct (memLoad_throws env _ _ _ _ _ Hrun) as [-> Hb].
      rewrite Hb. repeat split; reflexivity. }
    pose proof (memLoad_billed env offset length st) as Hb.
    rewrite Hload in Hb. cbn [snd] in Hb.
    apply bind_Throw_inv in Hrun as [Hrun | ([] & st2 & Hfee & Hrun)].
    { rewrite subGas_run in Hrun.
      destruct (_ <? 0); inversion Hrun; subst.
      rewrite Hb. repeat split; reflexivity. }
    apply bind_Throw_inv in Hrun as [Hrun | (s3 & st3 & _ & Hrun)];
      discriminate.
Qed.

Lemma LOG_appends_one_log_witness :
  let env := Fixtures.world [] in
  let fees := {| expByteGas := 10; sha3WordGas := 6; logTopicGas := 375;
                 logDataGas := 8 |} in
  let st := Fixtures.at_pc 0xa1 1 (Fixtures.new_frame [] [] 1000) in
  exists st' log,
    LOG env fees [0] [2] [[7]] st = (Ok tt, st') /\
    logs st' = [log] /\
    log_topics log = [replicate 31 0 ++ [7]] /\
    gasLeft st' = 1000 - 3 - 375 - 16.
Proof.
  intros env fees st.
  set (st' := snd (LOG env fees [0] [2] [[7]] st)).
  assert (Hrun : LOG env fees [0] [2] [[7]] st = (Ok tt, st'))
    by (vm_compute; reflexivity).
  assert (H0 : 0 <= bufferToInt [0] <= MAX_INT)
    by (unfold bufferToInt, MAX_INT; cbn; lia).
  assert (H2 : 0 <= bufferToInt [2] <= MAX_INT)
    by (unfold bufferToInt, MAX_INT; cbn; lia).
  destruct (LOG_appends_one_log env fees [0] [2] [[7]] st H0 H2)
    as [Hok _].
  destruct (Hok st' Hrun) as (log & Hlogs & _ & Htopics & _).
  exists st', log. split; [exact Hrun |].
  split; [exact Hlogs |]. split; [exact Htopics |].
  vm_compute. reflexivity.
Defined.



(** ** DUP, SWAP *)

(** X17. DUPn, for [n >= 1]: with at least [n] words on the stack it
    returns the [n]-th word from the top and leaves the frame as it is;
    with fewer it traps STACK_UNDERFLOW. *)
Theorem DUP_nth_from_top (st : RunState) :
  let n := opCode st - 0x7f in
  1 <= n ->
  (forall below x above,
     stack st = below ++ x :: above -> Z.of_nat (length above) = n - 1 ->
     DUP st = (Ok (Some x), st)) /\
  (n <= Z.of_nat (length (stack st)) -> exists x, DUP st = (Ok (Some x), st)) /\
  (Z.of_nat (length (stack st)) < n -> DUP st = (Throw stack_underflow, st)).
Proof.
  intros n Hn.
  assert (Hget : forall below x above,
            stack st = below ++ x :: above ->
            Z.of_nat (length above) = n - 1 ->
            DUP st = (Ok (Some x), st)).
  { intros below x above Hst Hab. unfold DUP. unfold_vm. fold n.
    rewrite Hst, length_app. cbn [length].
    replace (n >? Z.of_nat (length below + S (length above))) with false
      by (symmetry; rewrite Z.gtb_ltb; apply Z.ltb_ge; lia).
    replace (Z.to_nat (Z.of_nat (length below + S (length above)) - n))
      with (length below + 0)%nat by lia.
    rewrite lookup_app_r by lia.
    replace (length below + 0 - length below)%nat with 0%nat by lia.
    reflexivity. }
  split; [exact Hget |]. split.
  - intros Hle.
    set (i := (length (stack st) - Z.to_nat n)%nat).
    destruct (lookup_lt_is_Some_2 (stack st) i ltac:(lia)) as [x Hx].
    exists x. apply (Hget (take i (stack st)) x (drop (S i) (stack st))).
    + symmetry. apply take_drop_middle. exact Hx.
    + rewrite length_drop. lia.
  - intros Hlt. unfold DUP. unfold_vm. fold n.
    replace (n >? Z.of_nat (length (stack st))) with true
      by (symmetry; rewrite Z.gtb_ltb; apply Z.ltb_lt; lia).
    reflexivity.
Qed.

Lemma DUP_nth_from_top_witness :
  let st := set_stack [10; 20; 30]
              (Fixtures.at_pc 0x81 1 (Fixtures.new_frame [] [] 100)) in
  DUP st = (Ok (Some 20), st) /\
  DUP (set_stack [30] st) = (Throw stack_underflow, set_stack [30] st).
Proof.
  intros st. split.
  - apply (DUP_nth_from_top st ltac:(cbn; lia)) with (below := [10])
      (above := [30]); reflexivity.
  - apply (DUP_nth_from_top (set_stack [30] st) ltac:(cbn; lia)).
    cbn. lia.
Defined.

(** X18. SWAPn, for [n >= 1]: with more than [n] words on the stack it
    takes the top word off, puts it where the [(n + 1)]-th word from the top
    was and returns that word, so that the stack with the returned word on
    top is the stack before with the two exchanged; with [n] words or fewer
    it traps STACK_UNDERFLOW and leaves the stack as it is. *)
Theorem SWAP_exchanges_with_top (st : RunState) :
  let n := opCode st - 0x8f in
  1 <= n ->
  (forall below x mid top,
     stack st = below ++ x :: mid ++ [top] ->
     Z.of_nat (length mid) = n - 1 ->
     SWAP st = (Ok (Some x), set_stack (below ++ top :: mid) st)) /\
  (Z.of_nat (length (stack st)) <= n ->
   SWAP st = (Throw stack_underflow, st)).
Proof.
  intros n Hn. split.
  - intros below x mid top Hst Hmid. unfold SWAP. unfold_vm. fold n.
    assert (Hlen : Z.of_nat (length (stack st)) - n - 1
                   = Z.of_nat (length below)).
    { rewrite Hst, length_app. cbn [length]. rewrite length_app. cbn. lia. }
    rewrite Hlen, Nat2Z.id.
    replace (Z.of_nat (length below) <? 0) with false
      by (symmetry; apply Z.ltb_ge; lia).
    rewrite Hst.
    replace (below ++ x :: mid ++ [top]) with ((below ++ x :: mid) ++ [top])
      by (rewrite <- app_assoc; reflexivity).
    rewrite last_snoc, removelast_last.
    rewrite lookup_app_l by (rewrite length_app; cbn; lia).
    rewrite list_lookup_middle by reflexivity.
    cbv beta iota. do 2 f_equal.
    replace (length below) with (length below + 0)%nat at 1 by lia.
    rewrite insert_app_r. reflexivity.
  - intros Hle. unfold SWAP. unfold_vm. fold n.
    replace (Z.of_nat (length (stack st)) - n - 1 <? 0) with true
      by (symmetry; apply Z.ltb_lt; lia).
    reflexivity.
Qed.

Lemma SWAP_exchanges_with_top_witness :
  let st := set_stack [10; 20; 30]
              (Fixtures.at_pc 0x91 1 (Fixtures.new_frame [] [] 100)) in
  SWAP st = (Ok (Some 10), set_stack [30; 20] st) /\
  SWAP (set_stack [20; 30] st) = (Throw stack_underflow, set_stack [20; 30] st).
Proof.
  intros st. split.
  - apply (SWAP_exchanges_with_top st ltac:(cbn; lia)) with (below := [])
      (mid := [20]); reflexivity.
  - apply (SWAP_exchanges_with_top (set_stack [20; 30] st) ltac:(cbn; lia)).
    cbn. lia.
Defined.

(** ** SLOAD, and SSTORE once more *)

Lemma bufferToBN_inj (l1 l2 : Buffer) :
  is_bytes l1 -> is_bytes l2 -> length l1 = length l2 ->
  bufferToBN l1 = bufferToBN l2 -> l1 = l2.
Proof.
  intros H1. revert l2. induction H1 as [| x r Hx Hr IH]; intros l2 H2 Hlen Hv.
  - destruct l2; [reflexivity | discriminate].
  - destruct l2 as [| y s]; [discriminate |].
    apply Forall_cons in H2 as [Hy Hs]. cbn [length] in Hlen.
    rewrite !bufferToBN_cons in Hv.
    pose proof (bufferToBN_bound r Hr) as Br.
    pose proof (bufferToBN_bound s Hs) as Bs.
    assert (Hl : length s = length r) by lia.
    rewrite Hl in Hv, Bs.
    assert (x = y) by nia. subst y.
    f_equal. apply IH; [exact Hs | lia | lia].
Qed.

(** SLOAD and SSTORE name the slot of a key by the same 32 bytes. *)
Lemma slot_of_key (key : Buffer) :
  is_bytes key -> (length key <= 32)%nat ->
  BN_toArray (bufferToBN key) (Some 32%nat) = setLengthLeft key 32.
Proof.
  intros Hk Hlen.
  pose proof (bufferToBN_bound key Hk) as Hb.
  assert (Hw : is_word (bufferToBN key)).
  { unfold is_word, TWO_POW256. split; [lia |].
    apply Z.lt_le_trans with (256 ^ Z.of_nat (length key)); [lia |].
    change (2 ^ 256) with (256 ^ 32). apply Z.pow_le_mono_r; lia. }
  destruct (BN_toArray_32 _ Hw) as (Hv & Hl & Hbytes).
  apply bufferToBN_inj.
  - exact Hbytes.
  - apply setLengthLeft_is_bytes. exact Hk.
  - rewrite Hl, setLengthLeft_length. reflexivity.
  - rewrite Hv, setLengthLeft_value by exact Hlen. reflexivity.
Qed.

Lemma bufferToBN_unpad (l : Buffer) : bufferToBN (unpad l) = bufferToBN l.
Proof.
  induction l as [| x l IH]; [reflexivity |].
  cbn [unpad]. destruct (Z.eqb_spec x 0) as [-> | Hnz]; [| reflexivity].
  rewrite IH, bufferToBN_cons. lia.
Qed.

(** X19. SLOAD asks the state manager for the slot of the frame's own
    address under the key as 32 bytes, the slot SSTORE writes for that key,
    and calls back once: with the error if the read failed, and otherwise
    with the number the bytes found encode, 0 for no bytes.  It changes
    nothing else of the frame.  Fed what SSTORE has handed the state manager
    for a value, the value without its leading zero bytes, it calls back
    with that value. *)
Theorem SLOAD_reads_the_slot_SSTORE_writes (env : Env) (key val : Buffer)
    (st : RunState) :
  is_bytes key -> (length key <= 32)%nat ->
  let slot := setLengthLeft key 32 in
  let lookup := SmGetContractStorage (address st) slot in
  (forall found,
     getContractStorage env (address st) slot = (None, found) ->
     SLOAD env (bufferToBN key) st =
       (Ok tt,
        set_trace
          (trace st ++ [lookup; Callback None (Some (VBN (bufferToBN found)))])
          st)) /\
  (forall e found,
     getContractStorage env (address st) slot = (Some e, found) ->
     SLOAD env (bufferToBN key) st =
       (Ok tt,
        set_trace
          (trace st ++ [lookup; Callback (Some (OfStateManager e)) None])
          st)) /\
  (getContractStorage env (address st) slot = (None, unpad val) ->
   SLOAD env (bufferToBN key) st =
     (Ok tt,
      set_trace
        (trace st ++ [lookup; Callback None (Some (VBN (bufferToBN val)))])
        st)).
Proof.
  intros Hk Hlen slot lookup.
  assert (Hrun : forall found,
            getContractStorage env (address st) slot = (None, found) ->
            SLOAD env (bufferToBN key) st =
              (Ok tt,
               set_trace
                 (trace st ++
                  [lookup; Callback None (Some (VBN (bufferToBN found)))])
                 st)).
  { intros found Hget. unfold SLOAD. rewrite slot_of_key by assumption.
    fold slot. repeat (unfold_vm; cbv beta iota). rewrite Hget.
    unfold set_trace at 1. cbn [trace set_trace]. rewrite <- app_assoc.
    destruct found as [| b f]; reflexivity. }
  split; [exact Hrun |]. split.
  - intros e found Hget. unfold SLOAD. rewrite slot_of_key by assumption.
    fold slot. repeat (unfold_vm; cbv beta iota). rewrite Hget.
    unfold set_trace at 1. cbn [trace set_trace]. rewrite <- app_assoc.
    reflexivity.
  - intros Hget. rewrite (Hrun _ Hget), bufferToBN_unpad. reflexivity.
Qed.

Lemma SLOAD_reads_the_slot_SSTORE_writes_witness :
  let env := Fixtures.world (unpad [0; 0; 7]) in
  let st := Fixtures.new_frame [] [] 100 in
  SLOAD env (bufferToBN [1]) st =
    (Ok tt,
     set_trace
       [SmGetContractStorage [] (setLengthLeft [1] 32);
        Callback None (Some (VBN 7))] st).
Proof.
  intros env st.
  assert (Hk : is_bytes [1]) by (repeat constructor; lia).
  assert (Hl : (length [1] <= 32)%nat) by (cbn; lia).
  destruct (SLOAD_reads_the_slot_SSTORE_writes env [1] [0; 0; 7] st Hk Hl)
    as (_ & _ & Hback).
  apply Hback. reflexivity.
Defined.

(** X20. SSTORE never throws and calls back exactly once.  It hands the
    state manager a write exactly when the read of the slot has succeeded
    and the charge of the gas table has not exceeded the gas left, and then
    one write: of the value without its leading zero bytes, to the slot of
    the key under the frame's own address.  When the read fails nothing is
    charged. *)
Theorem SSTORE_writes_once_or_never (env : Env) (key val : Buffer)
    (st : RunState) :
  let slot := setLengthLeft key 32 in
  let value := unpad val in
  let answer := getContractStorage env (address st) slot in
  let charge :=
    sstore_charge env (negb (length (snd answer) =? 0)%nat)
      (negb (length value =? 0)%nat) in
  let st' := snd (SSTORE env key val st) in
  fst (SSTORE env key val st) = Ok tt /\
  exists events,
    trace st' = trace st ++ events /\
    List.filter is_storage_write events =
      (if bool_decide (fst answer = None) && (charge <=? gasLeft st)
       then [SmPutContractStorage (address st) slot value]
       else []) /\
    length (List.filter stays_inside events) = 1%nat /\
    (fst answer <> None -> gasLeft st' = gasLeft st).
Proof.
  intros slot value answer charge st'. subst st'.
  destruct (getContractStorage env (address st) slot) as [err found] eqn:Eget.
  subst answer. cbn [fst snd] in *.
  destruct err as [e |].
  - unfold SSTORE. fold slot. repeat (unfold_vm; cbv beta iota).
    rewrite Eget. cbn. split; [reflexivity |].
    eexists. split; [rewrite <- app_assoc; reflexivity |].
    cbn. repeat split; reflexivity.
  - rewrite (SSTORE_run env key val found st Eget). cbn [fst snd].
    fold slot value charge. split; [reflexivity |].
    rewrite bool_decide_eq_true_2 by reflexivity. cbn [andb].
    destruct (Z.ltb_spec (gasLeft st - charge) 0) as [Hlt | Hge].
    + replace (charge <=? gasLeft st) with false
        by (symmetry; apply Z.leb_gt; lia).
      eexists. cbn [trace set_trace set_gasLeft].
      split; [rewrite <- app_assoc; reflexivity |].
      cbn. repeat split; try reflexivity. intros H; congruence.
    + replace (charge <=? gasLeft st) with true
        by (symmetry; apply Z.leb_le; lia).
      destruct (putContractStorage env (address st) slot value);
        eexists; cbn [trace set_trace set_gasLeft set_gasRefund set_contract];
        (split; [rewrite <- !app_assoc; reflexivity |]);
        cbn; repeat split; try reflexivity; intros H; congruence.
Qed.

(** ** makeCall, when the call goes through *)

Section CallThrough.

Variable env : Env.

(** The contract that [makeCall] puts into the cache before the child
    runs: for a creation, with the nonce raised by one. *)
Lemma makeCall_runs (o : CallOptions) (lo : LocalOpts) (st : RunState) :
  call_guard env st (co_delegatecall o) (co_value o) = false ->
  let st1 :=
    match co_to o with
    | None =>
        set_contract (set_nonce (nonce (contract st) + 1) (contract st)) st
    | Some _ => st
    end in
  let o' := child_options st o in
  let st2 :=
    set_trace
      (trace st ++ [SmCachePut (address st) (contract st1); VmRunCall o'])
      st1 in
  makeCall env o lo st =
    parseCallResults env lo (fst (runCall env o')) (snd (runCall env o')) st2.
Proof.
  intros Hguard st1 o' st2. unfold call_guard in Hguard.
  unfold makeCall. unfold bind at 1. unfold get at 1. cbv beta iota.
  cbn [co_delegatecall co_value]. rewrite Hguard.
  fold (child_options st o). fold o'.
  destruct (runCall env o') as [err results]. cbn [fst snd].
  subst st2 st1. change (co_to o') with (co_to o).
  destruct (co_to o); repeat (unfold_vm; cbv beta iota); f_equal;
    unfold set_trace; cbn; rewrite <- app_assoc; reflexivity.
Qed.

(** What [parseCallResults] does to the frame. *)
Lemma parseCallResults_effect (lo : LocalOpts) (err : option CbError)
    (results : CallResults) (st : RunState) :
  let st' := snd (parseCallResults env lo err results st) in
  let failed := bool_decide (vm_exceptionError (vm results) <> None) in
  fst (parseCallResults env lo err results st) = Ok tt /\
  gasLeft st' = gasLeft st - gasUsed results /\
  logs st' = logs st ++ default [] (vm_logs (vm results)) /\
  gasRefund st' = gasRefund st + default 0 (vm_gasRefund (vm results)) /\
  stack st' = stack st /\
  memoryWordCount st' = memoryWordCount st /\
  highestMemCost st' = highestMemCost st /\
  memory st' =
    (if failed then memory st
     else match vm_return (vm results), out lo with
          | Some r, Some (outOffset, outLength) =>
              copy_loop (memory st) outOffset r 0
                (Z.min outLength (Z.of_nat (length r)))
          | _, _ => memory st
          end) /\
  contract st' =
    (if failed
     then match vm_createdAddress (vm results) with
          | Some _ => set_nonce (nonce (contract st) - 1) (contract st)
          | None => contract st
          end
     else snd (getAccount env (address st))) /\
  (exists events,
     trace st' = trace st ++ events /\
     forallb reads_only events = true /\
     length (List.filter stays_inside events) = 1%nat).
Proof.
  destruct results as [used created [lg rf ex rt exn ca]].
  unfold parseCallResults.
  cbn [vm vm_logs vm_gasRefund vm_exceptionError vm_return vm_exception
       vm_createdAddress gasUsed createdAddress].
  destruct lg, rf, ex, rt, (out lo) as [[? ?] |], created, ca;
    step_vm; cbn; try destruct (getAccount env (address st)) as [e a];
    cbn; rewrite ?Z.add_0_r, ?app_nil_r;
    repeat match goal with |- _ /\ _ => split end; try reflexivity;
    eexists; (split; [try rewrite <- app_assoc; reflexivity |]);
    split; reflexivity.
Qed.

End CallThrough.

(** X21. A call that [makeCall] lets through: the contract is put into the
    cache, the child-frame runner is run once, with the options
    [child_options] at a depth one more than the frame's, and its results
    are merged.  Whether or not the child has failed, the gas it used is
    taken from [gasLeft], its logs are appended to the logs and its refund is
    added to [gasRefund]; the stack and the memory billing are untouched and
    the callback is called once.  The memory is as it was when the child has
    failed, and otherwise differs at most in the [min outLength (length of
    the return data)] bytes from [outOffset] on, which are those of the
    return data. *)
Theorem makeCall_merges_child_results (env : Env) (o : CallOptions)
    (lo : LocalOpts) (st : RunState) :
  call_guard env st (co_delegatecall o) (co_value o) = false ->
  let o' := child_options st o in
  let results := snd (runCall env o') in
  let st' := snd (makeCall env o lo st) in
  fst (makeCall env o lo st) = Ok tt /\
  (exists cached rest,
     trace st' = trace st ++ SmCachePut (address st) cached :: VmRunCall o' :: rest /\
     List.filter is_child_run rest = [] /\
     length (List.filter stays_inside rest) = 1%nat) /\
  gasLeft st' = gasLeft st - gasUsed results /\
  logs st' = logs st ++ default [] (vm_logs (vm results)) /\
  gasRefund st' = gasRefund st + default 0 (vm_gasRefund (vm results)) /\
  stack st' = stack st /\
  highestMemCost st' = highestMemCost st /\
  (vm_exceptionError (vm results) <> None -> memory st' = memory st) /\
  (vm_exceptionError (vm results) = None ->
   forall r outOffset outLength,
     vm_return (vm results) = Some r ->
     out lo = Some (outOffset, outLength) ->
     0 <= outOffset -> 0 <= outLength ->
     forall j : nat,
       memory_byte (memory st') j =
         if decide (outOffset <= Z.of_nat j
                    < outOffset + Z.min outLength (Z.of_nat (length r)))
         then default 0 (r !! (j - Z.to_nat outOffset)%nat)
         else memory_byte (memory st) j).
Proof.
  intros Hguard o' results st'. subst st'.
  rewrite (makeCall_runs env o lo st Hguard). cbv zeta. fold o'.
  set (st1 := match co_to o with
              | None => set_contract
                          (set_nonce (nonce (contract st) + 1) (contract st))
                          st
              | Some _ => st
              end).
  set (st2 := set_trace _ st1).
  assert (Hst2 : gasLeft st2 = gasLeft st /\ logs st2 = logs st /\
                 gasRefund st2 = gasRefund st /\ stack st2 = stack st /\
                 highestMemCost st2 = highestMemCost st /\
                 memory st2 = memory st)
    by (subst st2 st1; destruct (co_to o); repeat split; reflexivity).
  destruct Hst2 as (Eg & El & Er & Es & Eh & Em).
  destruct (parseCallResults_effect env lo (fst (runCall env o'))
              (snd (runCall env o')) st2)
    as (Hok & Hgas & Hlogs & Href & Hstack & _ & Hhmc & Hmem & _ & Hev).
  fold results in Hok, Hgas, Hlogs, Href, Hstack, Hhmc, Hmem, Hev |- *.
  rewrite Eg in Hgas. rewrite El in Hlogs. rewrite Er in Href.
  rewrite Es in Hstack. rewrite Eh in Hhmc. rewrite Em in Hmem.
  split; [exact Hok |]. split.
  { destruct Hev as (events & Htr & Hro & Hcb).
    exists (contract st1), events. split.
    - rewrite Htr. subst st2. cbn [trace set_trace].
      replace (trace st1) with (trace st)
        by (subst st1; destruct (co_to o); reflexivity).
      rewrite <- app_assoc. reflexivity.
    - split; [| exact Hcb].
      clear - Hro. induction events as [| e events IH]; [reflexivity |].
      cbn in Hro. apply andb_true_iff in Hro as [He Hro].
      cbn. destruct e; cbn in *; try discriminate; auto. }
  split; [exact Hgas |]. split; [exact Hlogs |]. split; [exact Href |].
  split; [exact Hstack |]. split; [exact Hhmc |]. split.
  - intros Hfail. rewrite Hmem.
    rewrite bool_decide_eq_true_2 by exact Hfail. reflexivity.
  - intros Hnone r outOffset outLength Hr Hout Hoff Hlen j.
    rewrite Hmem.
    rewrite bool_decide_eq_false_2 by (intros H; apply H; exact Hnone).
    rewrite Hr, Hout. rewrite copy_loop_byte_Z by lia.
    change (Z.to_nat 0) with 0%nat. cbn [Nat.add].
    destruct (decide (Z.to_nat outOffset <= j
                      < Z.to_nat outOffset
                        + Z.to_nat (Z.min outLength (Z.of_nat (length r))))%nat),
             (decide (outOffset <= Z.of_nat j
                      < outOffset + Z.min outLength (Z.of_nat (length r))));
      try lia; reflexivity.
Qed.

Lemma makeCall_merges_child_results_witness :
  let env := Fixtures.world [] in
  let st := Fixtures.new_frame [] [] 100 in
  let o := call_options (Some 50) 0 (Some [1]) (Some []) None false in
  let lo := {| inOffset := 0; inLength := 0; out := Some (0, 0) |} in
  let st' := snd (makeCall env o lo st) in
  gasLeft st' = 100 - 0 /\ stack st' = [] /\ logs st' = [].
Proof.
  intros env st o lo st'.
  assert (Hguard : call_guard env st (co_delegatecall o) (co_value o) = false)
    by reflexivity.
  destruct (makeCall_merges_child_results env o lo st Hguard)
    as (_ & _ & Hgas & Hlogs & _ & Hstack & _).
  split; [exact Hgas |]. split; [exact Hstack | exact Hlogs].
Defined.

Lemma set_nonce_back (c : Account) :
  set_nonce (nonce (set_nonce (nonce c + 1) c) - 1) (set_nonce (nonce c + 1) c)
  = c.
Proof.
  destruct c as [b n e]. unfold set_nonce. cbn. f_equal. lia.
Qed.

(** X22. The nonce around a creation.  For a call without a target, a
    creation, [makeCall] raises the nonce of the contract by one before it
    puts the contract into the cache and runs the child.  When the child has
    failed and its results name a created address the nonce is lowered
    again, and the contract is as it was before the call; when the child has
    failed and its results name none, the nonce stays raised; when the child
    has not failed the contract is the account that the state manager has
    for the frame's address. *)
Theorem creation_raises_then_restores_nonce (env : Env) (o : CallOptions)
    (lo : LocalOpts) (st : RunState) :
  call_guard env st (co_delegatecall o) (co_value o) = false ->
  co_to o = None ->
  let raised := set_nonce (nonce (contract st) + 1) (contract st) in
  let results := snd (runCall env (child_options st o)) in
  let st' := snd (makeCall env o lo st) in
  (exists rest,
     trace st' =
       trace st ++ SmCachePut (address st) raised
                   :: VmRunCall (child_options st o) :: rest) /\
  (vm_exceptionError (vm results) <> None ->
   vm_createdAddress (vm results) <> None -> contract st' = contract st) /\
  (vm_exceptionError (vm results) <> None ->
   vm_createdAddress (vm results) = None -> contract st' = raised) /\
  (vm_exceptionError (vm results) = None ->
   contract st' = snd (getAccount env (address st))).
Proof.
  intros Hguard Hto raised results st'. subst st'.
  rewrite (makeCall_runs env o lo st Hguard). cbv zeta. rewrite Hto.
  fold raised.
  set (st2 := set_trace _ (set_contract raised st)).
  destruct (parseCallResults_effect env lo
              (fst (runCall env (child_options st o)))
              (snd (runCall env (child_options st o))) st2)
    as (_ & _ & _ & _ & _ & _ & _ & _ & Hc & Hev).
  fold results in Hc, Hev |- *.
  replace (contract st2) with raised in Hc by reflexivity.
  replace (address st2) with (address st) in Hc by reflexivity.
  split.
  { destruct Hev as (events & Htr & _). exists events. rewrite Htr.
    subst st2. cbn [trace set_trace set_contract contract].
    rewrite <- app_assoc. reflexivity. }
  split; [| split].
  - intros Hfail Hca. rewrite Hc.
    rewrite bool_decide_eq_true_2 by exact Hfail.
    destruct (vm_createdAddress (vm results)); [| congruence].
    apply set_nonce_back.
  - intros Hfail Hca. rewrite Hc.
    rewrite bool_decide_eq_true_2 by exact Hfail.
    rewrite Hca. reflexivity.
  - intros Hnone. rewrite Hc.
    rewrite bool_decide_eq_false_2 by (intros H; apply H; exact Hnone).
    reflexivity.
Qed.

Lemma creation_raises_then_restores_nonce_witness :
  let failing :=
    {| gasUsed := 7; createdAddress := None;
       vm := {| vm_logs := None; vm_gasRefund := None;
                vm_exceptionError := Some out_of_gas; vm_return := None;
                vm_exception := 0; vm_createdAddress := Some [9] |} |} in
  let env :=
    {| fees := homestead_fees;
       getContractStorage := fun _ _ => (None, []);
       putContractStorage := fun _ _ _ => None;
       cache_get := fun _ => Fixtures.account0;
       sm_exists := fun _ => (None, true);
       accountIsEmpty := fun _ => (None, false);
       getContractCode := fun _ => (None, ([], false));
       getAccount := fun _ => (None, Fixtures.account0);
       isPrecompiled := fun _ => false;
       runCall := fun _ => (None, failing) |} in
  let st := Fixtures.new_frame [] [] 100 in
  let o := call_options (Some 50) 0 None (Some []) None false in
  let lo := {| inOffset := 0; inLength := 0; out := None |} in
  contract (snd (makeCall env o lo st)) = contract st.
Proof.
  intros failing env st o lo.
  assert (Hguard : call_guard env st (co_delegatecall o) (co_value o) = false)
    by reflexivity.
  destruct (creation_raises_then_restores_nonce env o lo st Hguard eq_refl)
    as (_ & Hback & _).
  apply Hback; cbn; congruence.
Defined.

(** ** The gas of the caller across a call *)

Section CallGasFloor.

Variable env : Env.
Hypothesis runner_ok : runner_within_limit env.

(** A call takes from the caller at most the limit it hands the child. *)
Lemma makeCall_gas (o : CallOptions) (lo : LocalOpts) (st : RunState)
    (g : Z) :
  co_gasLimit o = Some g ->
  fst (makeCall env o lo st) = Ok tt /\
  (gasLeft (snd (makeCall env o lo st)) = gasLeft st \/
   gasLeft st - g <= gasLeft (snd (makeCall env o lo st))).
Proof.
  intros Hg.
  destruct (call_guard env st (co_delegatecall o) (co_value o)) eqn:Hguard.
  - rewrite (makeCall_refuses env o lo st Hguard). cbn. auto.
  - rewrite (makeCall_runs env o lo st Hguard). cbv zeta.
    set (st2 := set_trace _ _).
    destruct (parseCallResults_effect env lo
                (fst (runCall env (child_options st o)))
                (snd (runCall env (child_options st o))) st2)
      as (Hok & Hgas & _).
    split; [exact Hok |]. right. rewrite Hgas.
    replace (gasLeft st2) with (gasLeft st)
      by (subst st2; destruct (co_to o); reflexivity).
    pose proof (runner_ok (child_options st o) g Hg). lia.
Qed.

Lemma loadCodeAndCall_gas (toAddress : Address) (o : CallOptions)
    (lo : LocalOpts) (st : RunState) (g : Z) :
  co_gasLimit o = Some g ->
  fst (loadCodeAndCall env toAddress o lo st) = Ok tt /\
  (gasLeft (snd (loadCodeAndCall env toAddress o lo st)) = gasLeft st \/
   gasLeft st - g <= gasLeft (snd (loadCodeAndCall env toAddress o lo st))).
Proof.
  intros Hg. unfold loadCodeAndCall.
  destruct (isPrecompiled env toAddress).
  - apply makeCall_gas. exact Hg.
  - unfold bind at 1. unfold emit at 1, modify at 1. cbv beta iota.
    destruct (getContractCode env toAddress) as [[e |] [code compiled]].
    + cbn. auto.
    + set (st1 := set_trace _ st).
      replace (gasLeft st) with (gasLeft st1) by reflexivity.
      apply makeCall_gas. exact Hg.
Qed.

Lemma checkOutOfGas_caps (o o' : CallOptions) (st st' : RunState) (g : Z) :
  co_gasLimit o = Some g ->
  checkOutOfGas o st = (Ok o', st') ->
  st' = st /\
  exists g', co_gasLimit o' = Some g' /\ g' <= g /\
             g' <= gasLeft st - Z.quot (gasLeft st) 64.
Proof.
  intros Hg. rewrite checkOutOfGas_run, Hg.
  intros Hrun. injection Hrun as Ho Hst. subst o' st'.
  split; [reflexivity |].
  rewrite Z.gtb_ltb.
  destruct (Z.ltb_spec (gasLeft st - Z.quot (gasLeft st) 64) g).
  - eexists. split; [reflexivity | lia].
  - exists g. split; [exact Hg | lia].
Qed.

Lemma addStipend_run (value : BN.BN) (o : CallOptions) (st : RunState) :
  addStipend env value o st =
    if negb (BN.isZero value)
    then (Ok (set_co_gasLimit
                (option_map (fun g => g + callStipend (fees env))
                   (co_gasLimit o)) o),
          set_gasLeft (gasLeft st + callStipend (fees env)) st)
    else (Ok o, st).
Proof. unfold addStipend. destruct (negb _); reflexivity. Qed.

Lemma quot64_nonneg (x : Z) : 0 <= x -> 0 <= Z.quot x 64.
Proof. intros Hx. apply Z.quot_pos; lia. Qed.

End CallGasFloor.

(** X23. With a child-frame runner that uses no more gas than the limit it
    is given, a CREATE, a CALLCODE or a DELEGATECALL that starts with a
    [gasLeft] that is not negative and does not trap ends with a [gasLeft]
    that is not negative: what the child has used is covered by the limit,
    which [checkOutOfGas] has capped by the gas left, and the stipend is
    added to both. *)
Theorem call_keeps_gas_nonnegative (env : Env) (st st' : RunState) :
  runner_within_limit env ->
  0 <= callStipend (fees env) ->
  0 <= gasLeft st ->
  (forall value offset length,
     CREATE env value offset length st = (Ok tt, st') -> 0 <= gasLeft st') /\
  (forall gas toAddress value inOffset inLength outOffset outLength,
     CALLCODE env gas toAddress value inOffset inLength outOffset outLength st
       = (Ok tt, st') -> 0 <= gasLeft st') /\
  (forall gas toAddress inOffset inLength outOffset outLength,
     DELEGATECALL env gas toAddress inOffset inLength outOffset outLength st
       = (Ok tt, st') -> 0 <= gasLeft st').
Proof.
  intros Hrunner Hstipend Hgas. split; [| split].
  - intros value offset length Hrun. unfold CREATE in Hrun.
    apply bind_Ok_inv in Hrun as (o1 & st1 & Hmem & Hrun).
    apply bind_Ok_inv in Hrun as (o2 & st2 & Hcap & Hrun).
    destruct (checkCallMemCost_ok env _ _ _ _ _ Hmem) as ((data & Ho1) & _ & Hnn).
    specialize (Hnn Hgas).
    assert (Hg1 : co_gasLimit o1 = Some (gasLeft st1))
      by (rewrite Ho1; reflexivity).
    destruct (checkOutOfGas_caps o1 o2 st1 st2 _ Hg1 Hcap)
      as (-> & g2 & Hg2 & _ & Hle).
    destruct (makeCall_gas env Hrunner o2
                {| inOffset := bufferToInt offset;
                   inLength := bufferToInt length; out := None |} st1 g2 Hg2)
      as [_ Hfloor].
    rewrite Hrun in Hfloor. cbn [snd] in Hfloor.
    pose proof (quot64_nonneg (gasLeft st1) Hnn). lia.
  - intros gas toAddress value inOffset inLength outOffset outLength Hrun.
    unfold CALLCODE in Hrun.
    apply bind_Ok_inv in Hrun as (s0 & st0 & Hget & Hrun).
    inversion Hget; subst s0 st0; clear Hget.
    apply bind_Ok_inv in Hrun as ([] & st1 & Hfee & Hrun).
    assert (Hnn1 : 0 <= gasLeft st1).
    { unfold when in Hfee. destruct (negb _).
      - destruct (subGas_Ok_inv _ _ _ Hfee) as [-> Hle]. cbn. lia.
      - inversion Hfee; subst. exact Hgas. }
    apply bind_Ok_inv in Hrun as (o1 & st2 & Hmem & Hrun).
    apply bind_Ok_inv in Hrun as (o2 & st3 & Hcap & Hrun).
    apply bind_Ok_inv in Hrun as (o3 & st4 & Hstip & Hrun).
    destruct (checkCallMemCost_ok env _ _ _ _ _ Hmem) as ((data & Ho1) & _ & Hnn).
    specialize (Hnn Hnn1).
    assert (Hg1 : co_gasLimit o1 = Some (bufferToBN gas))
      by (rewrite Ho1; reflexivity).
    destruct (checkOutOfGas_caps o1 o2 st2 st3 _ Hg1 Hcap)
      as (-> & g2 & Hg2 & _ & Hle).
    rewrite addStipend_run in Hstip.
    pose proof (quot64_nonneg (gasLeft st2) Hnn) as Hq.
    destruct (negb (BN.isZero (bufferToBN value)));
      inversion Hstip; subst o3 st4; clear Hstip.
    + assert (Hg3 : co_gasLimit
                      (set_co_gasLimit
                         (option_map (fun g => g + callStipend (fees env))
                            (co_gasLimit o2)) o2)
                    = Some (g2 + callStipend (fees env)))
        by (rewrite Hg2; reflexivity).
      match type of Hrun with
      | loadCodeAndCall _ ?a ?o ?l ?s = _ =>
          destruct (loadCodeAndCall_gas env Hrunner a o l s _ Hg3)
            as [_ Hfloor]
      end.
      rewrite Hrun in Hfloor. cbn [snd gasLeft set_gasLeft] in Hfloor. lia.
    + match type of Hrun with
      | loadCodeAndCall _ ?a ?o ?l ?s = _ =>
          destruct (loadCodeAndCall_gas env Hrunner a o l s _ Hg2)
            as [_ Hfloor]
      end.
      rewrite Hrun in Hfloor. cbn [snd] in Hfloor. lia.
  - intros gas toAddress inOffset inLength outOffset outLength Hrun.
    unfold DELEGATECALL in Hrun.
    apply bind_Ok_inv in Hrun as (s0 & st0 & Hget & Hrun).
    inversion Hget; subst s0 st0; clear Hget.
    apply bind_Ok_inv in Hrun as (o1 & st1 & Hmem & Hrun).
    apply bind_Ok_inv in Hrun as (o2 & st2 & Hcap & Hrun).
    destruct (checkCallMemCost_ok env _ _ _ _ _ Hmem) as ((data & Ho1) & _ & Hnn).
    specialize (Hnn Hgas).
    assert (Hg1 : co_gasLimit o1 = Some (bufferToBN gas))
      by (rewrite Ho1; reflexivity).
    destruct (checkOutOfGas_caps o1 o2 st1 st2 _ Hg1 Hcap)
      as (-> & g2 & Hg2 & _ & Hle).
    pose proof (quot64_nonneg (gasLeft st1) Hnn) as Hq.
    apply bind_Ok_inv in Hrun as ([] & st3 & Hemit & Hrun).
    inversion Hemit; subst st3; clear Hemit.
    destruct (getAccount env _) as [[e |] account].
    + inversion Hrun; subst. cbn. lia.
    + match type of Hrun with
      | loadCodeAndCall _ ?a ?o ?l ?s = _ =>
          destruct (loadCodeAndCall_gas env Hrunner a o l s _ Hg2)
            as [_ Hfloor]
      end.
      rewrite Hrun in Hfloor. cbn [snd gasLeft set_trace] in Hfloor. lia.
Qed.

Lemma call_keeps_gas_nonnegative_witness :
  let spent :=
    {| gasUsed := 60; createdAddress := None;
       vm := {| vm_logs := None; vm_gasRefund := None;
                vm_exceptionError := None; vm_return := None;
                vm_exception := 1; vm_createdAddress := None |} |} in
  let env :=
    {| fees := homestead_fees;
       getContractStorage := fun _ _ => (None, []);
       putContractStorage := fun _ _ _ => None;
       cache_get := fun _ => Fixtures.account0;
       sm_exists := fun _ => (None, true);
       accountIsEmpty := fun _ => (None, false);
       getContractCode := fun _ => (None, ([], false));
       getAccount := fun _ => (None, Fixtures.account0);
       isPrecompiled := fun _ => false;
       runCall := fun o =>
         (None,
          {| gasUsed := Z.min 60 (default 0 (co_gasLimit o));
             createdAddress := None; vm := vm spent |}) |} in
  let st := Fixtures.new_frame [] [] 64 in
  0 <= gasLeft (snd (DELEGATECALL env [200] [1] [0] [0] [0] [0] st)) /\
  gasLeft (snd (DELEGATECALL env [200] [1] [0] [0] [0] [0] st)) = 4.
Proof.
  intros spent env st.
  assert (Hrunner : runner_within_limit env).
  { intros o g Hg. cbn. rewrite Hg. cbn. lia. }
  assert (Hrun : DELEGATECALL env [200] [1] [0] [0] [0] [0] st
                 = (Ok tt, snd (DELEGATECALL env [200] [1] [0] [0] [0] [0] st)))
    by (vm_compute; reflexivity).
  destruct (call_keeps_gas_nonnegative env st
              (snd (DELEGATECALL env [200] [1] [0] [0] [0] [0] st))
              Hrunner ltac:(cbn; lia) ltac:(cbn; lia)) as (_ & _ & Hdc).
  split; [exact (Hdc _ _ _ _ _ _ Hrun) | vm_compute; reflexivity].
Defined.

(** ** The call handlers, when the child is run *)

Lemma same_frame_refl (st : RunState) : same_frame st st.
Proof. unfold same_frame. repeat split; auto. Qed.

Lemma same_frame_trans (a b c : RunState) :
  same_frame a b -> same_frame b c -> same_frame a c.
Proof.
  unfold same_frame.
  intros (A1 & A2 & A3 & A4 & A5 & A6 & A7 & A8 & A9 & A10)
         (B1 & B2 & B3 & B4 & B5 & B6 & B7 & B8 & B9 & B10).
  repeat split; try congruence. auto.
Qed.

Lemma same_frame_billed (st st1 : RunState) :
  billed st st1 -> same_frame st st1.
Proof.
  intros Hb. rewrite Hb. unfold same_frame. repeat split; auto.
Qed.

Lemma same_frame_old_child (st st1 : RunState) (o : CallOptions) :
  same_frame st st1 ->
  ~ In (VmRunCall o) (trace st) -> ~ In (VmRunCall o) (trace st1).
Proof.
  intros (_ & _ & _ & _ & _ & _ & _ & _ & _ & Htr) Hnew Hin. auto.
Qed.

Lemma progress_refl (st : RunState) : call_progress st st 0.
Proof. split; [apply same_frame_refl | lia]. Qed.

Lemma progress_trans (a b c : RunState) (x y : Z) :
  call_progress a b x -> call_progress b c y -> call_progress a c (x + y).
Proof.
  intros [Hs1 Hg1] [Hs2 Hg2].
  split; [eapply same_frame_trans; eassumption | lia].
Qed.

Lemma progress_gas (g : Z) (st : RunState) :
  call_progress st (set_gasLeft g st) (gasLeft st - g).
Proof.
  split; [unfold same_frame; repeat split; auto | cbn; lia].
Qed.

Lemma progress_emit (e : Event) (st : RunState) :
  is_child_run e = false ->
  call_progress st (set_trace (trace st ++ [e]) st) 0.
Proof.
  intros He. split; [| cbn; lia].
  unfold same_frame. repeat split; auto.
  cbn. intros o Hin. apply in_app_iff in Hin as [Hin | [Heq | []]];
    [exact Hin | subst e; discriminate].
Qed.

Lemma progress_subGas (amount : Z) (st : RunState) :
  call_progress st (snd (subGas amount st)) amount.
Proof.
  rewrite subGas_run. cbn [snd].
  replace amount with (gasLeft st - (gasLeft st - amount)) at 2 by lia.
  apply progress_gas.
Qed.

Lemma progress_when_subGas (b : bool) (amount : Z) (st st1 : RunState) :
  when b (subGas amount) st = (Ok tt, st1) ->
  call_progress st st1 (if b then amount else 0).
Proof.
  unfold when. destruct b; intros Hrun.
  - pose proof (progress_subGas amount st) as Hp.
    rewrite Hrun in Hp. exact Hp.
  - inversion Hrun. apply progress_refl.
Qed.

Lemma try_catch_inv {A : Type} (m : M A) (st st1 : RunState)
    (r : VmError + A) :
  try_catch m st = (Ok r, st1) ->
  (exists e, r = inl e /\ m st = (Throw e, st1)) \/
  (exists a, r = inr a /\ m st = (Ok a, st1)).
Proof.
  unfold try_catch. destruct (m st) as [[a | e] s];
    intros H; inversion H; subst; eauto.
Qed.

Section ChildFrame.

Variable env : Env.

(** A child that [makeCall] has run, and what it has cost. *)
Lemma makeCall_child (o o' : CallOptions) (lo : LocalOpts) (st : RunState) :
  let st' := snd (makeCall env o lo st) in
  In (VmRunCall o') (trace st') -> ~ In (VmRunCall o') (trace st) ->
  o' = child_options st o /\
  gasLeft st' = gasLeft st - gasUsed (snd (runCall env o')) /\
  highestMemCost st' = highestMemCost st.
Proof.
  intros st'. subst st'.
  destruct (call_guard env st (co_delegatecall o) (co_value o)) eqn:Hguard.
  - rewrite (makeCall_refuses env o lo st Hguard). cbn.
    rewrite in_app_iff. cbn.
    intros [H | [H | []]] Hnew; [contradiction | discriminate].
  - rewrite (makeCall_runs env o lo st Hguard). cbv zeta.
    set (st1 := match co_to o with Some _ => st | None => _ end).
    set (st2 := set_trace _ st1).
    destruct (parseCallResults_effect env lo
                (fst (runCall env (child_options st o)))
                (snd (runCall env (child_options st o))) st2)
      as (_ & Hgas & _ & _ & _ & _ & Hhmc & _ & _ & events & Htr & Hro & _).
    rewrite Htr, Hgas, Hhmc.
    replace (gasLeft st2) with (gasLeft st)
      by (subst st2 st1; destruct (co_to o); reflexivity).
    replace (highestMemCost st2) with (highestMemCost st)
      by (subst st2 st1; destruct (co_to o); reflexivity).
    subst st2. cbn [trace set_trace].
    rewrite !in_app_iff. cbn.
    intros [[H | [H | [H | []]]] | H] Hnew;
      try contradiction; try discriminate.
    + inversion H. auto.
    + exfalso. rewrite forallb_forall in Hro.
      specialize (Hro _ H). discriminate.
Qed.

Lemma child_options_same_frame (st st1 : RunState) (o : CallOptions) :
  same_frame st st1 -> child_options st1 o = child_options st o.
Proof.
  intros (A1 & A2 & A3 & A4 & A5 & A6 & A7 & _).
  unfold child_options. rewrite A1, A3, A4, A5, A6, A7. reflexivity.
Qed.

(** [makeCall] at the end of a handler that has come from [st] to [st1]
    spending [charge]. *)
Lemma makeCall_child_from (o o' : CallOptions) (lo : LocalOpts)
    (st st1 st' : RunState) (charge : Z) :
  call_progress st st1 charge ->
  makeCall env o lo st1 = (Ok tt, st') ->
  In (VmRunCall o') (trace st') -> ~ In (VmRunCall o') (trace st) ->
  o' = child_options st o /\ call_bill env st st' o' charge.
Proof.
  intros [Hsame Hspent] Hrun Hin Hnew.
  pose proof (makeCall_child o o' lo st1) as Hchild.
  cbv zeta in Hchild. rewrite Hrun in Hchild. cbn [snd] in Hchild.
  destruct (Hchild Hin (same_frame_old_child _ _ _ Hsame Hnew))
    as (-> & Hgas & Hhmc).
  split; [apply child_options_same_frame; exact Hsame |].
  unfold call_bill. rewrite Hgas, Hhmc. lia.
Qed.

Lemma loadCodeAndCall_child_from (toAddress : Address) (o o' : CallOptions)
    (lo : LocalOpts) (st st1 st' : RunState) (charge : Z) :
  call_progress st st1 charge ->
  loadCodeAndCall env toAddress o lo st1 = (Ok tt, st') ->
  In (VmRunCall o') (trace st') -> ~ In (VmRunCall o') (trace st) ->
  (exists compiled,
     o' = child_options st
            (set_co_code (Some (code_at env toAddress)) compiled o)) /\
  call_bill env st st' o' charge.
Proof.
  intros Hprog Hrun Hin Hnew. unfold loadCodeAndCall, code_at in *.
  destruct (isPrecompiled env toAddress).
  - destruct (makeCall_child_from _ _ _ _ _ _ _ Hprog Hrun Hin Hnew)
      as [Ho Hbill].
    split; [eauto | exact Hbill].
  - apply bind_Ok_inv in Hrun as ([] & st2 & Hemit & Hrun).
    inversion Hemit; subst st2; clear Hemit.
    assert (Hprog2 : call_progress st
              (set_trace (trace st1 ++ [SmGetContractCode toAddress]) st1)
              charge).
    { replace charge with (charge + 0) by lia.
      eapply progress_trans; [exact Hprog |].
      apply progress_emit. reflexivity. }
    destruct (getContractCode env toAddress) as [[e |] [code compiled]].
    + exfalso. inversion Hrun; subst st'.
      apply (same_frame_old_child _ _ _ (proj1 Hprog2) Hnew).
      cbn in Hin. rewrite in_app_iff in Hin.
      destruct Hin as [Hin | [Hin | []]]; [exact Hin | discriminate].
    + cbn [fst snd].
      destruct (makeCall_child_from _ _ _ _ _ _ _ Hprog2 Hrun Hin Hnew)
        as [Ho Hbill].
      split; [eauto | exact Hbill].
Qed.

(** What [checkCallMemCost] makes of the options. *)
Lemma checkCallMemCost_options (o o1 : CallOptions) (lo : LocalOpts)
    (st st1 : RunState) :
  checkCallMemCost env o lo st = (Ok o1, st1) ->
  0 <= inOffset lo -> 0 <= inLength lo ->
  call_progress st st1 0 /\
  exists data,
    bytes_of_memory (memory st) (inOffset lo) (inLength lo) data /\
    o1 = set_co_gasLimit (Some (default (gasLeft st1) (co_gasLimit o)))
           (set_co_data (Some data) o).
Proof.
  intros Hrun Hoff Hlen.
  pose proof (checkCallMemCost_billed env o lo st) as Hb.
  rewrite Hrun in Hb. cbn [snd] in Hb.
  destruct (checkCallMemCost_ok env _ _ _ _ _ Hrun) as (_ & Hpaid & _).
  split; [split; [apply same_frame_billed; exact Hb | lia] |].
  rewrite checkCallMemCost_run in Hrun.
  destruct (memLoad env (inOffset lo) (inLength lo) st)
    as [[data | e] st0] eqn:Eload; [| discriminate].
  destruct (memLoad_Ok env _ _ _ _ _ Hoff Hlen Eload) as (Hbytes & _).
  exists data. split; [exact Hbytes |].
  destruct (out lo) as [[outOffset outLength] |].
  - destruct (outLength =? 0); [congruence |].
    destruct (subMemUsage env outOffset outLength st0) as [[[] | e] st2];
      [congruence | discriminate].
  - congruence.
Qed.

Lemma checkOutOfGas_options (o o1 : CallOptions) (st st1 : RunState) :
  checkOutOfGas o st = (Ok o1, st1) ->
  st1 = st /\ exists gl, o1 = set_co_gasLimit gl o.
Proof.
  rewrite checkOutOfGas_run. intros H. injection H as Ho Hst.
  split; [congruence |]. subst o1.
  destruct (co_gasLimit o) as [g |] eqn:Eg.
  - destruct (_ >? _); [eauto |].
    exists (Some g). destruct o; unfold set_co_gasLimit; cbn in *.
    congruence.
  - exists None. destruct o; unfold set_co_gasLimit; cbn in *. congruence.
Qed.

Lemma addStipend_options (value : BN.BN) (o o1 : CallOptions)
    (st st1 : RunState) :
  addStipend env value o st = (Ok o1, st1) ->
  call_progress st st1
    (if negb (BN.isZero value) then - callStipend (fees env) else 0) /\
  exists gl, o1 = set_co_gasLimit gl o.
Proof.
  rewrite addStipend_run. destruct (negb _); intros H; injection H as Ho Hst;
    subst o1 st1.
  - split; [| eauto].
    replace (- callStipend (fees env))
      with (gasLeft st - (gasLeft st + callStipend (fees env))) by lia.
    apply progress_gas.
  - split; [apply progress_refl |].
    exists (co_gasLimit o). destruct o; reflexivity.
Qed.

Ltac child_fields :=
  unfold child_context; cbn;
  repeat match goal with |- _ /\ _ => split end; try reflexivity; eauto.

Lemma CREATE_path (value offset length : Buffer) (st st' : RunState)
    (o' : CallOptions) :
  0 <= bufferToInt offset -> 0 <= bufferToInt length ->
  CREATE env value offset length st = (Ok tt, st') ->
  In (VmRunCall o') (trace st') -> ~ In (VmRunCall o') (trace st) ->
  child_context st o' None (bufferToBN value) (address st) false None
    (bufferToInt offset) (bufferToInt length) /\
  call_bill env st st' o' 0.
Proof.
  intros Hoff Hlen Hrun Hin Hnew. unfold CREATE in Hrun.
  apply bind_Ok_inv in Hrun as (o1 & st1 & Hmem & Hrun).
  apply bind_Ok_inv in Hrun as (o2 & st2 & Hcap & Hrun).
  destruct (checkCallMemCost_options _ _ _ _ _ Hmem Hoff Hlen)
    as (Hprog & data & Hbytes & ->).
  destruct (checkOutOfGas_options _ _ _ _ Hcap) as (-> & gl & ->).
  destruct (makeCall_child_from _ _ _ _ _ _ _ Hprog Hrun Hin Hnew)
    as [-> Hbill].
  split; [child_fields | exact Hbill].
Qed.

Lemma CALLCODE_path (gas toAddress value inOffset inLength outOffset
    outLength : Buffer) (st st' : RunState) (o' : CallOptions) :
  0 <= bufferToInt inOffset -> 0 <= bufferToInt inLength ->
  CALLCODE env gas toAddress value inOffset inLength outOffset outLength st
    = (Ok tt, st') ->
  In (VmRunCall o') (trace st') -> ~ In (VmRunCall o') (trace st) ->
  child_context st o' (Some (address st)) (bufferToBN value) (address st)
    false (Some (code_at env (setLengthLeft toAddress 20)))
    (bufferToInt inOffset) (bufferToInt inLength) /\
  call_bill env st st' o'
    (if bufferToBN value =? 0 then 0
     else callValueTransferGas (fees env) - callStipend (fees env)).
Proof.
  intros Hoff Hlen Hrun Hin Hnew. unfold CALLCODE in Hrun.
  apply bind_Ok_inv in Hrun as (s0 & st0 & Hget & Hrun).
  inversion Hget; subst s0 st0; clear Hget.
  apply bind_Ok_inv in Hrun as ([] & st1 & Hfee & Hrun).
  apply progress_when_subGas in Hfee as Hp1.
  apply bind_Ok_inv in Hrun as (o1 & st2 & Hmem & Hrun).
  apply bind_Ok_inv in Hrun as (o2 & st3 & Hcap & Hrun).
  apply bind_Ok_inv in Hrun as (o3 & st4 & Hstip & Hrun).
  destruct (checkCallMemCost_options _ _ _ _ _ Hmem Hoff Hlen)
    as (Hp2 & data & Hbytes & ->).
  destruct (checkOutOfGas_options _ _ _ _ Hcap) as (-> & gl & ->).
  destruct (addStipend_options _ _ _ _ _ Hstip) as (Hp4 & gl2 & ->).
  pose proof (progress_trans _ _ _ _ _ (progress_trans _ _ _ _ _ Hp1 Hp2) Hp4)
    as Hprog.
  destruct (loadCodeAndCall_child_from _ _ _ _ _ _ _ _ Hprog Hrun Hin Hnew)
    as [(compiled & ->) Hbill].
  assert (Hmem1 : memory st1 = memory st) by apply Hp1.
  rewrite Hmem1 in Hbytes.
  split; [child_fields |].
  unfold call_bill, BN.isZero in *. destruct (bufferToBN value =? 0);
    cbn [negb] in Hbill; lia.
Qed.

Lemma DELEGATECALL_path (gas toAddress inOffset inLength outOffset
    outLength : Buffer) (st st' : RunState) (o' : CallOptions) :
  0 <= bufferToInt inOffset -> 0 <= bufferToInt inLength ->
  DELEGATECALL env gas toAddress inOffset inLength outOffset outLength st
    = (Ok tt, st') ->
  In (VmRunCall o') (trace st') -> ~ In (VmRunCall o') (trace st) ->
  child_context st o' (Some (address st)) (callValue st) (caller st)
    true (Some (code_at env (setLengthLeft toAddress 20)))
    (bufferToInt inOffset) (bufferToInt inLength) /\
  call_bill env st st' o' 0.
Proof.
  intros Hoff Hlen Hrun Hin Hnew. unfold DELEGATECALL in Hrun.
  apply bind_Ok_inv in Hrun as (s0 & st0 & Hget & Hrun).
  inversion Hget; subst s0 st0; clear Hget.
  apply bind_Ok_inv in Hrun as (o1 & st1 & Hmem & Hrun).
  apply bind_Ok_inv in Hrun as (o2 & st2 & Hcap & Hrun).
  destruct (checkCallMemCost_options _ _ _ _ _ Hmem Hoff Hlen)
    as (Hp1 & data & Hbytes & ->).
  destruct (checkOutOfGas_options _ _ _ _ Hcap) as (-> & gl & ->).
  apply bind_Ok_inv in Hrun as ([] & st3 & Hemit & Hrun).
  inversion Hemit; subst st3; clear Hemit.
  pose proof (progress_trans _ _ _ _ _ Hp1
                (progress_emit (SmGetAccount (setLengthLeft toAddress 20))
                   st1 eq_refl)) as Hprog.
  destruct (getAccount env _) as [[e |] account].
  - exfalso. inversion Hrun; subst st'.
    apply (same_frame_old_child _ _ _ (proj1 Hprog) Hnew).
    cbn in Hin. rewrite in_app_iff in Hin.
    destruct Hin as [Hin | [Hin | []]]; [exact Hin | discriminate].
  - destruct (loadCodeAndCall_child_from _ _ _ _ _ _ _ _ Hprog Hrun Hin Hnew)
      as [(compiled & ->) Hbill].
    split; [child_fields | exact Hbill].
Qed.

Lemma CALL_path (gasLimit toAddress value inOffset inLength outOffset
    outLength : Buffer) (st st' : RunState) (o' : CallOptions) :
  let to := setLengthLeft toAddress 20 in
  let v := bufferToBN value in
  0 <= bufferToInt inOffset -> 0 <= bufferToInt inLength ->
  CALL env gasLimit toAddress value inOffset inLength outOffset outLength st
    = (Ok tt, st') ->
  In (VmRunCall o') (trace st') -> ~ In (VmRunCall o') (trace st) ->
  child_context st o' (Some to) v (address st) false None
    (bufferToInt inOffset) (bufferToInt inLength) /\
  call_bill env st st' o'
    (if v =? 0 then 0
     else callValueTransferGas (fees env)
          + (if negb (snd (sm_exists env to)) || snd (accountIsEmpty env to)
             then callNewAccountGas (fees env) else 0)
          - callStipend (fees env)).
Proof.
  intros to v Hoff Hlen Hrun Hin Hnew. unfold CALL in Hrun.
  fold to v in Hrun.
  assert (Hdead : forall (s : RunState) err res,
            same_frame st s ->
            st' = set_trace (trace s ++ [Callback err res]) s -> False).
  { intros s err res Hs ->.
    apply (same_frame_old_child _ _ _ Hs Hnew).
    cbn in Hin. rewrite in_app_iff in Hin.
    destruct Hin as [Hin | [Hin | []]]; [exact Hin | discriminate]. }
  apply bind_Ok_inv in Hrun as (data0 & st1 & Hload & Hrun).
  assert (Hp1 : call_progress st st1 0).
  { pose proof (memLoad_billed env (bufferToInt inOffset)
                  (bufferToInt inLength) st) as Hb.
    rewrite Hload in Hb.
    destruct (memLoad_paid env _ _ _ _ _ Hload) as [Hpaid _].
    split; [apply same_frame_billed; exact Hb | lia]. }
  apply bind_Ok_inv in Hrun as ([] & st2 & Hfee & Hrun).
  apply progress_when_subGas in Hfee as Hp2.
  pose proof (progress_trans _ _ _ _ _ Hp1 Hp2) as Hq2.
  apply bind_Ok_inv in Hrun as ([] & st3 & Hemit & Hrun).
  inversion Hemit; subst st3; clear Hemit.
  pose proof (progress_trans _ _ _ _ _ Hq2
                (progress_emit (SmExists to) st2 eq_refl)) as Hq3.
  set (st3 := set_trace (trace st2 ++ [SmExists to]) st2) in *.
  destruct (sm_exists env to) as [[e |] ex].
  { exfalso. inversion Hrun. eapply (Hdead st3); [apply Hq3 | eauto]. }
  apply bind_Ok_inv in Hrun as ([] & st4 & Hemit & Hrun).
  inversion Hemit; subst st4; clear Hemit.
  pose proof (progress_trans _ _ _ _ _ Hq3
                (progress_emit (SmAccountIsEmpty to) st3 eq_refl)) as Hq4.
  set (st4 := set_trace (trace st3 ++ [SmAccountIsEmpty to]) st3) in *.
  destruct (accountIsEmpty env to) as [err empty]. cbn [snd].
  apply bind_Ok_inv in Hrun as ([] & st5 & Herr & Hrun).
  assert (Hp5 : call_progress st4 st5 0).
  { destruct err; inversion Herr.
    - apply progress_emit. reflexivity.
    - apply progress_refl. }
  pose proof (progress_trans _ _ _ _ _ Hq4 Hp5) as Hq5.
  apply bind_Ok_inv in Hrun as ([] & st6 & Hnewacc & Hrun).
  assert (Hp6 : call_progress st5 st6
                  (if (negb ex || empty) && negb (BN.isZero v)
                   then callNewAccountGas (fees env) else 0)).
  { destruct ((negb ex || empty) && negb (BN.isZero v)).
    - apply bind_Ok_inv in Hnewacc as (r & s & Htry & Hcb).
      pose proof (progress_subGas (callNewAccountGas (fees env)) st5) as Hs.
      apply try_catch_inv in Htry
        as [(e & -> & Hsub) | (a & -> & Hsub)];
        rewrite Hsub in Hs; cbn [snd] in Hs.
      + inversion Hcb.
        replace (callNewAccountGas (fees env))
          with (callNewAccountGas (fees env) + 0) by lia.
        eapply progress_trans; [exact Hs |].
        apply progress_emit. reflexivity.
      + inversion Hcb; subst. exact Hs.
    - inversion Hnewacc. apply progress_refl. }
  pose proof (progress_trans _ _ _ _ _ Hq5 Hp6) as Hq6.
  apply bind_Ok_inv in Hrun as (r & st7 & Htry & Hrun).
  apply try_catch_inv in Htry as [(e & -> & Hcap) | (o2 & -> & Hcap)].
  - exfalso.
    apply bind_Throw_inv in Hcap as [Hthrow | (o1 & s & Hmem & Hthrow)].
    + assert (Hs7 : same_frame st st7).
      { eapply same_frame_trans; [exact (proj1 Hq6) |].
        match type of Hthrow with
        | checkCallMemCost _ ?o ?l ?s = _ =>
            pose proof (checkCallMemCost_billed env o l s) as Hb
        end.
        rewrite Hthrow in Hb. apply same_frame_billed. exact Hb. }
      inversion Hrun. eapply (Hdead st7); eauto.
    + rewrite checkOutOfGas_run in Hthrow. discriminate.
  - apply bind_Ok_inv in Hcap as (o1 & st8 & Hmem & Hcap).
    destruct (checkCallMemCost_options _ _ _ _ _ Hmem Hoff Hlen)
      as (Hp8 & data & Hbytes & ->).
    destruct (checkOutOfGas_options _ _ _ _ Hcap) as (-> & gl & ->).
    apply bind_Ok_inv in Hrun as (o3 & st9 & Hstip & Hrun).
    destruct (addStipend_options _ _ _ _ _ Hstip) as (Hp9 & gl2 & ->).
    pose proof (progress_trans _ _ _ _ _
                  (progress_trans _ _ _ _ _ Hq6 Hp8) Hp9) as Hprog.
    destruct (makeCall_child_from _ _ _ _ _ _ _ Hprog Hrun Hin Hnew)
      as [-> Hbill].
    assert (Hmem6 : memory st6 = memory st) by apply Hq6.
    rewrite Hmem6 in Hbytes.
    split; [child_fields |].
    unfold call_bill, BN.isZero in *.
    destruct (v =? 0), (negb ex || empty); cbn [negb andb] in Hbill; lia.
Qed.

End ChildFrame.

(** X24. The child frame of each call handler.  Whenever CREATE, CALLCODE,
    DELEGATECALL or CALL returns having run a child frame that it had not
    run before, the child was given one level more of depth, the origin of
    the frame and as its data the bytes of the memory in the input range,
    and: by CREATE no target, the value of the operand and the frame's
    address as caller; by CALLCODE the frame's own address as target and as
    caller, the value of the operand and the code at the address of the
    operand; by DELEGATECALL the frame's own address as target, the call
    value and the caller of the frame itself, and the code at the address of
    the operand; by CALL the address of the operand as target, the value of
    the operand, the frame's address as caller and no code. *)
Theorem child_frame_context (env : Env) (st st' : RunState)
    (o' : CallOptions) :
  In (VmRunCall o') (trace st') -> ~ In (VmRunCall o') (trace st) ->
  (forall value offset length,
     0 <= bufferToInt offset -> 0 <= bufferToInt length ->
     CREATE env value offset length st = (Ok tt, st') ->
     child_context st o' None (bufferToBN value) (address st) false None
       (bufferToInt offset) (bufferToInt length)) /\
  (forall gas toAddress value inOffset inLength outOffset outLength,
     0 <= bufferToInt inOffset -> 0 <= bufferToInt inLength ->
     CALLCODE env gas toAddress value inOffset inLength outOffset outLength st
       = (Ok tt, st') ->
     child_context st o' (Some (address st)) (bufferToBN value) (address st)
       false (Some (code_at env (setLengthLeft toAddress 20)))
       (bufferToInt inOffset) (bufferToInt inLength)) /\
  (forall gas toAddress inOffset inLength outOffset outLength,
     0 <= bufferToInt inOffset -> 0 <= bufferToInt inLength ->
     DELEGATECALL env gas toAddress inOffset inLength outOffset outLength st
       = (Ok tt, st') ->
     child_context st o' (Some (address st)) (callValue st) (caller st)
       true (Some (code_at env (setLengthLeft toAddress 20)))
       (bufferToInt inOffset) (bufferToInt inLength)) /\
  (forall gasLimit toAddress value inOffset inLength outOffset outLength,
     0 <= bufferToInt inOffset -> 0 <= bufferToInt inLength ->
     CALL env gasLimit toAddress value inOffset inLength outOffset outLength st
       = (Ok tt, st') ->
     child_context st o' (Some (setLengthLeft toAddress 20))
       (bufferToBN value) (address st) false None
       (bufferToInt inOffset) (bufferToInt inLength)).
Proof.
  intros Hin Hnew. split; [| split; [| split]].
  - intros value offset length Hoff Hlen Hrun.
    apply (CREATE_path env value offset length st st' o'); assumption.
  - intros gas toAddress value inOffset inLength outOffset outLength
      Hoff Hlen Hrun.
    apply (CALLCODE_path env gas toAddress value inOffset inLength outOffset
             outLength st st' o'); assumption.
  - intros gas toAddress inOffset inLength outOffset outLength Hoff Hlen Hrun.
    apply (DELEGATECALL_path env gas toAddress inOffset inLength outOffset
             outLength st st' o'); assumption.
  - intros gasLimit toAddress value inOffset inLength outOffset outLength
      Hoff Hlen Hrun.
    apply (CALL_path env gasLimit toAddress value inOffset inLength outOffset
             outLength st st' o'); assumption.
Qed.

Lemma child_frame_context_witness :
  let env := Fixtures.world [] in
  let st := Fixtures.new_frame [] [] 100 in
  let st' := snd (DELEGATECALL env [200] [1] [0] [0] [0] [0] st) in
  exists o',
    In (VmRunCall o') (trace st') /\
    co_caller o' = Some (caller st) /\ co_value o' = callValue st /\
    co_delegatecall o' = true /\ co_depth o' = Some (depth st + 1).
Proof.
  intros env st st'.
  set (o' := match nth 3 (trace st') (Callback None None) with
             | VmRunCall o => o
             | _ => call_options None 0 None None None false
             end).
  assert (Hin : In (VmRunCall o') (trace st')) by (vm_compute; auto 10).
  assert (Hnew : ~ In (VmRunCall o') (trace st)) by (cbn; tauto).
  assert (H0 : 0 <= bufferToInt [0]) by (unfold bufferToInt; cbn; lia).
  assert (Hrun : DELEGATECALL env [200] [1] [0] [0] [0] [0] st = (Ok tt, st'))
    by (vm_compute; reflexivity).
  destruct (child_frame_context env st st' o' Hin Hnew) as (_ & _ & Hdc & _).
  destruct (Hdc [200] [1] [0] [0] [0] [0] H0 H0 Hrun)
    as (_ & Hval & Hcaller & Hdeleg & _ & Hdepth & _).
  exists o'. repeat split; assumption.
Defined.

(** X25. The bill of a call that has gone through.  Whenever CREATE,
    CALLCODE, DELEGATECALL or CALL returns having run a child frame that it
    had not run before, the gas it has taken from [gasLeft] is the memory
    expansion, the gas the child used, and: for CREATE and DELEGATECALL
    nothing more; for a CALLCODE of non-zero value [callValueTransferGas]
    less the [callStipend]; for a CALL of non-zero value
    [callValueTransferGas], and [callNewAccountGas] when the target does not
    exist or is empty, less the [callStipend]. *)
Theorem call_bill_when_child_runs (env : Env) (st st' : RunState)
    (o' : CallOptions) :
  In (VmRunCall o') (trace st') -> ~ In (VmRunCall o') (trace st) ->
  (forall value offset length,
     0 <= bufferToInt offset -> 0 <= bufferToInt length ->
     CREATE env value offset length st = (Ok tt, st') ->
     call_bill env st st' o' 0) /\
  (forall gas toAddress value inOffset inLength outOffset outLength,
     0 <= bufferToInt inOffset -> 0 <= bufferToInt inLength ->
     CALLCODE env gas toAddress value inOffset inLength outOffset outLength st
       = (Ok tt, st') ->
     call_bill env st st' o'
       (if bufferToBN value =? 0 then 0
        else callValueTransferGas (fees env) - callStipend (fees env))) /\
  (forall gas toAddress inOffset inLength outOffset outLength,
     0 <= bufferToInt inOffset -> 0 <= bufferToInt inLength ->
     DELEGATECALL env gas toAddress inOffset inLength outOffset outLength st
       = (Ok tt, st') ->
     call_bill env st st' o' 0) /\
  (forall gasLimit toAddress value inOffset inLength outOffset outLength,
     let to := setLengthLeft toAddress 20 in
     0 <= bufferToInt inOffset -> 0 <= bufferToInt inLength ->
     CALL env gasLimit toAddress value inOffset inLength outOffset outLength st
       = (Ok tt, st') ->
     call_bill env st st' o'
       (if bufferToBN value =? 0 then 0
        else callValueTransferGas (fees env)
             + (if negb (snd (sm_exists env to))
                   || snd (accountIsEmpty env to)
                then callNewAccountGas (fees env) else 0)
             - callStipend (fees env))).
Proof.
  intros Hin Hnew. split; [| split; [| split]].
  - intros value offset length Hoff Hlen Hrun.
    apply (CREATE_path env value offset length st st' o'); assumption.
  - intros gas toAddress value inOffset inLength outOffset outLength
      Hoff Hlen Hrun.
    apply (CALLCODE_path env gas toAddress value inOffset inLength outOffset
             outLength st st' o'); assumption.
  - intros gas toAddress inOffset inLength outOffset outLength Hoff Hlen Hrun.
    apply (DELEGATECALL_path env gas toAddress inOffset inLength outOffset
             outLength st st' o'); assumption.
  - intros gasLimit toAddress value inOffset inLength outOffset outLength
      to Hoff Hlen Hrun.
    apply (CALL_path env gasLimit toAddress value inOffset inLength outOffset
             outLength st st' o'); assumption.
Qed.

Lemma call_bill_when_child_runs_witness :
  let spent :=
    {| gasUsed := 1000; createdAddress := None;
       vm := {| vm_logs := None; vm_gasRefund := None;
                vm_exceptionError := None; vm_return := None;
                vm_exception := 1; vm_createdAddress := None |} |} in
  let env :=
    {| fees := homestead_fees;
       getContractStorage := fun _ _ => (None, []);
       putContractStorage := fun _ _ _ => None;
       cache_get := fun _ => Fixtures.account0;
       sm_exists := fun _ => (None, false);
       accountIsEmpty := fun _ => (None, false);
       getContractCode := fun _ => (None, ([], false));
       getAccount := fun _ => (None, Fixtures.account0);
       isPrecompiled := fun _ => false;
       runCall := fun _ => (None, spent) |} in
  let st := Fixtures.at_depth 0 10 (Fixtures.new_frame [] [] 100000) in
  let st' := snd (CALL env [200] [9] [1] [0] [0] [0] [0] st) in
  gasLeft st - gasLeft st' = (9000 + 25000 - 2300) + 1000.
Proof.
  intros spent env st st'.
  set (o' := match nth 3 (trace st') (Callback None None) with
             | VmRunCall o => o
             | _ => call_options None 0 None None None false
             end).
  assert (Hin : In (VmRunCall o') (trace st')) by (vm_compute; auto 10).
  assert (Hnew : ~ In (VmRunCall o') (trace st)) by (cbn; tauto).
  assert (H0 : 0 <= bufferToInt [0]) by (unfold bufferToInt; cbn; lia).
  assert (Hrun : CALL env [200] [9] [1] [0] [0] [0] [0] st = (Ok tt, st'))
    by (vm_compute; reflexivity).
  destruct (call_bill_when_child_runs env st st' o' Hin Hnew)
    as (_ & _ & _ & Hcall).
  pose proof (Hcall [200] [9] [1] [0] [0] [0] [0] H0 H0 Hrun) as Hbill.
  unfold call_bill in Hbill.
  assert (Hh : highestMemCost st' = highestMemCost st)
    by (vm_compute; reflexivity).
  rewrite Hh in Hbill. exact Hbill.
Defined.
